(** * undervolt: P-state voltage and divisor editor for AMD Family 14h

    A shallow embedding of [undervolt.c] and the properties of its
    register codec, its MSR access layer and its orchestration in [main].

    Integers are modelled as [Z] with the C wrap-around written out,
    [float] and [double] values as the rationals they denote, with IEEE-754
    rounding to nearest (ties to even) applied after every operation, the
    divisors read from the command line as such a value, an infinity or a
    NaN, and the effects of the program (exit, the descriptors, the MSR
    device, the two output streams) by a small state monad over an event
    log. *)

From Stdlib Require Import ZArith QArith Qabs Qpower Bool List String Lia Lqa.
Import ListNotations.

Local Open Scope Z_scope.

(** * Part I: the embedding *)

(** ** Machine integers *)

Module CInt.

(** Conversion to [uint64_t]. *)
Definition u64 (x : Z) : Z := x mod 2 ^ 64.

(** Conversion to [unsigned] (32 bits). *)
Definition u32 (x : Z) : Z := x mod 2 ^ 32.

(** Conversion to [long] (64 bits, two's complement). *)
Definition s64 (x : Z) : Z := (x + 2 ^ 63) mod 2 ^ 64 - 2 ^ 63.

(** Conversion to [int] (32 bits, two's complement). *)
Definition s32 (x : Z) : Z := (x + 2 ^ 31) mod 2 ^ 32 - 2 ^ 31.

Definition is_u64 (x : Z) : Prop := 0 <= x < 2 ^ 64.
Definition is_int (x : Z) : Prop := - 2 ^ 31 <= x < 2 ^ 31.

End CInt.
Import CInt.

(** ** Floating point

    A finite [float] or [double] is the rational it denotes.  Every
    operation computes the exact rational result and rounds it to the
    format: precision [prec] bits, smallest exponent [emin] (gradual
    underflow), nearest value with ties to even.  The exponent range of
    [round] is not bounded above: none of the arithmetic operations of the
    program produces an infinity or a NaN from the finite operands it is
    given.  The conversion of the command line by [sscanf] can; its result
    is a [cfloat], below. *)

Module IEEE.

(** Nearest integer to [num / den] for [0 < den], ties to even. *)
Definition rne (num den : Z) : Z :=
  let q := num / den in
  let r := num mod den in
  match 2 * r ?= den with
  | Lt => q
  | Gt => q + 1
  | Eq => if Z.even q then q else q + 1
  end.

(** The integer [e] with [2^(e-1) <= |n/d| < 2^e], for [n <> 0]. *)
Definition mag (n : Z) (d : positive) : Z :=
  let a := Z.abs n in
  let k := Z.log2 a - Z.log2 (Zpos d) in
  if (if 0 <=? k then Zpos d * 2 ^ k <=? a else Zpos d <=? a * 2 ^ (- k))
  then k + 1 else k.

Definition round (prec emin : Z) (x : Q) : Q :=
  let n := Qnum x in
  let d := Qden x in
  if n =? 0 then 0%Q else
  let e := Z.max (mag n d - prec) emin in
  let m := if 0 <=? e then rne n (Zpos d * 2 ^ e)
           else rne (n * 2 ^ (- e)) (Zpos d) in
  Qred (if 0 <=? e then inject_Z (m * 2 ^ e)
        else Qmake m (Z.to_pos (2 ^ (- e)))).

(** [2^e] as a rational. *)
Definition pow2 (e : Z) : Q :=
  if 0 <=? e then inject_Z (2 ^ e) else 1 # Z.to_pos (2 ^ (- e)).

(** The exponent at which [round] places the last bit of its result. *)
Definition ulp_exp (prec emin : Z) (x : Q) : Z :=
  Z.max (mag (Qnum x) (Qden x) - prec) emin.

(** binary32 and binary64. *)
Definition to_float : Q -> Q := round 24 (-149).
Definition to_double : Q -> Q := round 53 (-1074).

(** Conversion of a floating value to an integer type discards the
    fractional part; the behaviour is undefined ([None]) when the integral
    part is not a value of the type. *)
Definition trunc (x : Q) : Z := Z.quot (Qnum x) (Zpos (Qden x)).

Definition to_unsigned (x : Q) : option Z :=
  let t := trunc x in
  if (0 <=? t) && (t <? 2 ^ 32) then Some t else None.

Definition to_int (x : Q) : option Z :=
  let t := trunc x in
  if (- 2 ^ 31 <=? t) && (t <? 2 ^ 31) then Some t else None.

(** The largest finite [float]. *)
Definition FLT_MAX : Q := inject_Z ((2 ^ 24 - 1) * 2 ^ 104).

End IEEE.
Import IEEE.

(** *** The values of a [float] variable

    The variables [div] and [divToSet[i]] of [main] hold what [sscanf]
    converted from the command line: a finite value, or an infinity or a
    NaN.  The program compares such a value with [0.0], prints it and
    passes it to [divtomsr]. *)

Inductive nonfinite : Type := Inf (negative : bool) | NaN.

Inductive cfloat : Type :=
| Finite (q : Q)
| NonFinite (s : nonfinite).

Coercion Finite : Q >-> cfloat.

(** [x != 0.0]: true of an infinity and of a NaN. *)
Definition float_neq_zero (x : cfloat) : bool :=
  match x with
  | Finite q => negb (Qeq_bool q 0)
  | NonFinite _ => true
  end.

(** The text that [%f] converts: a decimal number, or one of the texts
    that denote an infinity or a NaN. *)
Inductive scanned : Type :=
| Decimal (d : Q)
| Special (s : nonfinite).

Coercion Decimal : Q >-> scanned.

(** What [sscanf] stores for [%f]: the decimal number rounded to [float],
    which is an infinity when the rounded magnitude exceeds [FLT_MAX]. *)
Definition scan_float (x : scanned) : cfloat :=
  match x with
  | Decimal d =>
    let f := to_float d in
    if Qle_bool (Qabs f) FLT_MAX then Finite f
    else NonFinite (Inf (negb (Qle_bool 0 f)))
  | Special s => NonFinite s
  end.

(** ** Bit fields of the P-state registers (the codec inlined in [main]) *)

(** [(oMSR[i] >> 9) & 0x7F]: the Vid field of a P-state register. *)
Definition decodeVoltageIdentifier (word : Z) : Z :=
  Z.land (Z.shiftr word 9) 0x7F.

(** [(oMSR[i] & (~(0x7F << 9))) | (vidToSet[i] << 9)]: the mask is computed
    in [int] and sign-extended to 64 bits, the shift is a 64-bit shift. *)
Definition encodeVoltageIdentifier (word vidToSet : Z) : Z :=
  Z.lor (Z.land word (u64 (Z.lnot (Z.shiftl 0x7F 9))))
        (u64 (Z.shiftl vidToSet 9)).

(** [(val >> 16) & 0x03]: the current P-state printed by [-c]. *)
Definition currentPstate (val : Z) : Z :=
  Z.land (Z.shiftr val 16) 0x03.

(** [(val & 0x70) >> 4] and [val & 0x07], stored in [int] variables. *)
Definition maxPstateOf (val : Z) : Z := s32 (Z.shiftr (Z.land val 0x70) 4).
Definition minPstateOf (val : Z) : Z := s32 (Z.land val 0x07).

(** [aMSR[i]]: the addresses of the eight P-state registers. *)
Definition aMSR (i : Z) : Z := nth (Z.to_nat i)
  [0xC0010064; 0xC0010065; 0xC0010066; 0xC0010067;
   0xC0010068; 0xC0010069; 0xC001006A; 0xC001006B] 0.

(** ** [voltage] *)

(** [static double voltage(long SviVid)]: the [long] is converted to
    [double], the product and the difference are each rounded to [double]
    (no fused multiply-add). *)
Definition voltage (SviVid : Z) : Q :=
  if (SviVid <=? 0x7F) && (SviVid >=? 0x7C) then 0%Q
  else to_double (to_double (1550 # 1000)
                  - to_double (to_double (125 # 10000) * to_double (inject_Z SviVid))).

(** ** Effects: output, the MSR device, [exit] *)

Inductive stream : Set := Stdout | Stderr.

(** One constructor per [printf]/[fprintf] of the program, with its
    arguments. *)
Inductive msg : Type :=
| Usage
| VendorUnsupported (s : string)
| VendorChecked
| FamilyUnsupported (f : option Z)
| FamilyChecked
| ModelUnsupported (m : option Z)
| ModelChecked
| CoresError
| CoresRetrieved (n : Z)
| DidTrace (msd lsd : Z)
| StrangeMSD (msd : Z)
| StrangeLSD (lsd : Z)
| ParseError (optarg : string)
| OutOfBounds (pstateId : Z)
| Duplicate (pstateId : Z)
| VidToSet (vid : Z) (volt : Q) (div : cfloat) (pstateId : Z)
| InvalidArgument (arg : string)
| FailedReadingMsr
| Beware
| NotValid (i : Z)
| TableHeader
| TableRow (i vid : Z) (volt div : Q)
| ErrorReadingRegisters
| ErrorReadingRegister
| ChangingVid (i j vid : Z) (volt : Q)
| DivLine (div : cfloat)
| ToVid (vid : Z) (volt : Q)
| Newline
| ErrorWritingRegister
| ErrorReadingStatus (msr : Z)
| CurrentState (i pstate vid : Z) (volt div : Q)
| WrTrace (cpu msr val : Z)
| RdTrace (cpu msr : Z)
| MsrValue (msr val : Z).

(** What the program does to the outside, in order.  The [Sys] events are
    the system calls on [/dev/cpu/<cpu>/msr]. *)
Inductive event : Type :=
| Print (s : stream) (m : msg)
| Perror (what : string)
| SysOpen (cpu fd : Z)
| SysLseek (cpu msr : Z) (ok : bool)
| SysRead (cpu msr count data : Z)
| SysWrite (cpu msr val count : Z)
| SysClose (fd ret : Z).

Definition is_hw (e : event) : bool :=
  match e with
  | Print _ _ | Perror _ => false
  | _ => true
  end.

Definition is_write (e : event) : bool :=
  match e with
  | SysWrite _ _ _ _ => true
  | _ => false
  end.

(** The accesses to the MSR device recorded in a log. *)
Definition hw_events (l : list event) : list event := filter is_hw l.
Definition hw_writes (l : list event) : list event := filter is_write l.

(** The MSR device: what each system call answers, given everything that
    happened before it. *)
Record msrdev : Type := {
  dev_open : list event -> Z -> bool;
  dev_lseek : list event -> Z -> Z -> bool;
  dev_read : list event -> Z -> Z -> Z * Z;
  dev_write : list event -> Z -> Z -> Z -> Z;
  dev_close : list event -> Z -> bool
}.

(** The two globals of the program, the open file descriptors and the log. *)
Record world : Type := {
  verbose : bool;
  ncpu : Z;
  fds : list Z;
  log : list event
}.

Definition initial_world : world :=
  {| verbose := false; ncpu := 0; fds := [0; 1; 2]; log := [] |}.

Inductive outcome (A : Type) : Type :=
| Ret (a : A) (w : world)
| Exit (status : Z) (w : world)
| Undef (w : world).
Arguments Ret {A} a w.
Arguments Exit {A} status w.
Arguments Undef {A} w.

Definition final_world {A : Type} (o : outcome A) : world :=
  match o with
  | Ret _ w | Exit _ w | Undef w => w
  end.

Definition M (A : Type) : Type := world -> outcome A.

Definition ret {A : Type} (a : A) : M A := fun w => Ret a w.

Definition bind {A B : Type} (m : M A) (k : A -> M B) : M B :=
  fun w =>
    match m w with
    | Ret a w' => k a w'
    | Exit st w' => Exit st w'
    | Undef w' => Undef w'
    end.

Declare Scope prog_scope.
Delimit Scope prog_scope with prog.
Notation "x <- m ;; k" := (bind m (fun x => k))
  (at level 61, m at next level, right associativity) : prog_scope.
Notation "' p <- m ;; k" := (bind m (fun x => match x with p => k end))
  (at level 61, p pattern, m at next level, right associativity) : prog_scope.
Notation "m ;; k" := (bind m (fun _ => k))
  (at level 61, right associativity) : prog_scope.
Local Open Scope prog_scope.

Definition exit {A : Type} (status : Z) : M A := fun w => Exit status w.
Definition undef {A : Type} : M A := fun w => Undef w.

(** The world after the events [l]. *)
Definition add_log (w : world) (l : list event) : world :=
  {| verbose := verbose w; ncpu := ncpu w; fds := fds w; log := log w ++ l |}.

Definition emit (e : event) : M unit := fun w => Ret tt (add_log w [e]).

Definition print (s : stream) (m : msg) : M unit := emit (Print s m).
Definition perror (what : string) : M unit := emit (Perror what).

(** [if(verbose) printf(...)]. *)
Definition whenv (m : M unit) : M unit :=
  fun w => if verbose w then m w else Ret tt w.

Definition set_verbose (b : bool) : M unit :=
  fun w => Ret tt {| verbose := b; ncpu := ncpu w; fds := fds w; log := log w |}.

Definition get_ncpu : M Z := fun w => Ret (ncpu w) w.

Definition set_ncpu (n : Z) : M unit :=
  fun w => Ret tt {| verbose := verbose w; ncpu := n; fds := fds w; log := log w |}.

(** [for] loops over a fixed list of indices, threading the variables
    that the body assigns. *)
Fixpoint for_each {S : Type} (body : Z -> S -> M S) (l : list Z) (s : S) : M S :=
  match l with
  | [] => ret s
  | i :: l' => s' <- body i s ;; for_each body l' s'
  end.

(** The indices [lo, lo+1, ..., hi-1]. *)
Definition range (lo hi : Z) : list Z :=
  map (fun k => lo + Z.of_nat k) (seq 0 (Z.to_nat (hi - lo))).

(** *** System calls *)

(** The lowest descriptor that is not open. *)
Fixpoint lowest_free (fuel : nat) (fd : Z) (open : list Z) : Z :=
  match fuel with
  | O => fd
  | S fuel' => if existsb (Z.eqb fd) open then lowest_free fuel' (fd + 1) open else fd
  end.

Fixpoint remove_fd (fd : Z) (open : list Z) : list Z :=
  match open with
  | [] => []
  | x :: open' => if x =? fd then open' else x :: remove_fd fd open'
  end.

Section Program.

Variable dev : msrdev.

(** [open(path, O_RDWR)] on [/dev/cpu/<cpu>/msr]. *)
Definition sys_open (cpu : Z) : M Z :=
  fun w =>
    if dev_open dev (log w) cpu then
      let fd := lowest_free (List.length (fds w)) 0 (fds w) in
      Ret fd {| verbose := verbose w; ncpu := ncpu w; fds := fd :: fds w;
                log := log w ++ [SysOpen cpu fd] |}
    else
      Ret (-1) (add_log w [SysOpen cpu (-1)]).

(** [lseek(fd, msr, SEEK_SET)]. *)
Definition sys_lseek (cpu msr : Z) : M Z :=
  fun w =>
    let ok := dev_lseek dev (log w) cpu msr in
    Ret (if ok then msr else -1) (add_log w [SysLseek cpu msr ok]).

(** [read(fd, pVal, 8)]: the count returned and the 64-bit word that
    [*pVal] holds afterwards. *)
Definition sys_read (cpu msr pVal : Z) : M (Z * Z) :=
  fun w =>
    let '(count, data) := dev_read dev (log w) cpu msr in
    let stored := if 0 <? count then u64 data else pVal in
    Ret (count, stored) (add_log w [SysRead cpu msr count stored]).

(** [write(fd, &val, 8)]. *)
Definition sys_write (cpu msr val : Z) : M Z :=
  fun w =>
    let count := dev_write dev (log w) cpu msr val in
    Ret count (add_log w [SysWrite cpu msr val count]).

(** [close(fd)]: the descriptor is released whatever the answer. *)
Definition sys_close (fd : Z) : M Z :=
  fun w =>
    let r := if dev_close dev (log w) fd then 0 else -1 in
    Ret r {| verbose := verbose w; ncpu := ncpu w; fds := remove_fd fd (fds w);
             log := log w ++ [SysClose fd r] |}.

(** ** [wrmsr] and [rdmsr] *)

Definition wrmsr (cpu msr val : Z) : M Z :=
  whenv (print Stdout (WrTrace cpu msr val)) ;;
  fd <- sys_open cpu ;;
  if fd <? 0 then perror "Accessing msr device" ;; ret 1 else
  off <- sys_lseek cpu msr ;;
  if off <? 0 then perror "Seek in msr" ;; ret 1 else
  error <- sys_write cpu msr val ;;
  if error <? 8 then perror "Write msr register" ;; ret 1 else
  whenv (print Stdout (MsrValue msr val)) ;;
  c <- sys_close fd ;;
  if negb (c =? 0) then perror "Closing msr device" ;; ret 1 else
  ret 0.

(** [rdmsr] returns its status together with the contents of [*pVal]
    after the call; [pVal] is what [*pVal] held before. *)
Definition rdmsr (cpu msr pVal : Z) : M (Z * Z) :=
  whenv (print Stdout (RdTrace cpu msr)) ;;
  fd <- sys_open cpu ;;
  if fd <? 0 then perror "Open msr device" ;; ret (1, pVal) else
  off <- sys_lseek cpu msr ;;
  if off <? 0 then perror "Seek to msr register" ;; ret (1, pVal) else
  '(error, pVal') <- sys_read cpu msr pVal ;;
  if error <? 8 then perror "Read msr register" ;; ret (1, pVal') else
  whenv (print Stdout (MsrValue msr pVal')) ;;
  c <- sys_close fd ;;
  if negb (c =? 0) then perror "Closing msr device" ;; ret (1, pVal') else
  ret (0, pVal').

End Program.

(** ** The divisor: [checkdid], [msrtodiv], [divtomsr] *)

Definition checkdid (msd lsd : Z) : M unit :=
  whenv (print Stdout (DidTrace msd lsd)) ;;
  (if 0x19 <? msd then print Stdout (StrangeMSD msd) else ret tt) ;;
  (if 3 <? lsd then print Stdout (StrangeLSD lsd) else ret tt).

(** The [return] expression of [msrtodiv],
    [(float)didmsd + ((float)didlsd * 0.25) + 1]: the literal [0.25] is a
    [double], so the product and the sums are computed in [double]; the
    result is converted to [float]. *)
Definition div_of_fields (didmsd didlsd : Z) : Q :=
  to_float
    (to_double
       (to_double (to_float (inject_Z didmsd)
                   + to_double (to_float (inject_Z didlsd) * to_double (25 # 100)))
        + to_double (inject_Z 1))).

Definition msrtodiv (val : Z) : M Q :=
  let didmsd := u32 (Z.land (Z.shiftr val 4) 0x1f) in
  let didlsd := u32 (Z.land val 0xf) in
  checkdid didmsd didlsd ;;
  ret (div_of_fields didmsd didlsd).

(** The two fields that [divtomsr] computes from [div]:
    [didmsd = div - 1; div -= (int)div; didlsd = div * 4;].  The
    arithmetic is in [float] (each result rounded to binary32); each of
    the three conversions from [float] to an integer type is undefined
    ([None]) out of range.  On an infinity or a NaN, [div - 1] is an
    infinity or a NaN, and its conversion to [unsigned] is undefined. *)
Definition did_of_div (div : cfloat) : option (Z * Z) :=
  match div with
  | NonFinite _ => None
  | Finite div =>
    match to_unsigned (to_float (div - to_float (inject_Z 1))) with
    | None => None
    | Some didmsd =>
      match to_int div with
      | None => None
      | Some n =>
        let div := to_float (div - to_float (inject_Z n)) in
        match to_unsigned (to_float (div * to_float (inject_Z 4))) with
        | None => None
        | Some didlsd => Some (didmsd, didlsd)
        end
      end
    end
  end.

(** [divtomsr] returns the new contents of [*msr]; [didmsd << 4] is a
    32-bit shift. *)
Definition divtomsr (div : cfloat) (msr : Z) : M Z :=
  match did_of_div div with
  | None => undef
  | Some (didmsd, didlsd) =>
    checkdid didmsd didlsd ;;
    ret (Z.lor (Z.lor (Z.land msr (u64 (Z.lnot 0x1ff)))
                      (u32 (Z.shiftl didmsd 4)))
               didlsd)
  end.

(** ** [usage] *)

Definition usage : M unit := print Stderr Usage ;; exit 1.

(** ** [cpuIdCheck] *)

(** The world with the open descriptors [f]. *)
Definition with_fds (w : world) (f : list Z) : world :=
  {| verbose := verbose w; ncpu := ncpu w; fds := f; log := log w |}.

(** [fopen("/proc/cpuinfo", "r")] when it succeeds, and [fclose]: the
    stream takes the lowest descriptor that is free and gives it back.
    The reads of the file are not events of the log. *)
Definition fopen : M Z :=
  fun w =>
    let fd := lowest_free (List.length (fds w)) 0 (fds w) in
    Ret fd (with_fds w (fd :: fds w)).

Definition fclose (stream : Z) : M unit :=
  fun w => Ret tt (with_fds w (remove_fd stream (fds w))).

(** A line of [/proc/cpuinfo], by the one prefix test of the loop it
    passes and what [sscanf] converts from it ([None]: no conversion).
    With no conversion of the vendor, [strncmp] reads the uninitialised
    buffer: undefined.  The vendor is taken to fit the 512 bytes of the
    buffer. *)
Inductive cpuinfo_line : Type :=
| L_vendor_id (s : option string)
| L_cpu_family (f : option Z)
| L_model (m : option Z)
| L_cpu_cores (n : option Z)
| L_other.

(** [(r != 1) || bad(x)] for a number [x] converted by [sscanf]. *)
Definition scan_fails (r : option Z) (bad : Z -> bool) : bool :=
  match r with
  | None => true
  | Some x => bad x
  end.

(** The [while(getline)] loop.  The value is 1 when the function is left
    from inside the loop by one of the three [return(1)], and 0 when the
    loop ends, at the end of the file or by [break]. *)
Fixpoint cpuinfo_loop (lines : list cpuinfo_line)
    (vendorChecked familyChecked : bool) : M Z :=
  match lines with
  | [] => ret 0
  | line :: rest =>
    let next (vendorChecked familyChecked : bool) : M Z :=
      n <- get_ncpu ;;
      if vendorChecked && familyChecked && negb (n =? 0) then ret 0
      else cpuinfo_loop rest vendorChecked familyChecked in
    match line with
    | L_vendor_id None => undef
    | L_vendor_id (Some s) =>
      if negb (String.prefix "AuthenticAMD" s) then
        print Stderr (VendorUnsupported s) ;; ret 1
      else
        whenv (print Stdout VendorChecked) ;; next true familyChecked
    | L_cpu_family f =>
      if scan_fails f (fun f => negb (f =? 0x14)) then
        print Stderr (FamilyUnsupported f) ;; ret 1
      else
        whenv (print Stdout FamilyChecked) ;; next vendorChecked true
    | L_model m =>
      if scan_fails m (fun m => negb (m =? 1) && negb (m =? 2)) then
        print Stderr (ModelUnsupported m) ;; ret 1
      else
        whenv (print Stdout ModelChecked) ;; next vendorChecked familyChecked
    | L_cpu_cores n =>
      match n with
      | Some n' => set_ncpu n'
      | None => ret tt
      end ;;
      n' <- get_ncpu ;;
      if scan_fails n (fun _ => false) || (n' =? 0) then
        print Stderr CoresError ;; exit 1
      else
        whenv (print Stdout (CoresRetrieved n')) ;; next vendorChecked familyChecked
    | L_other => next vendorChecked familyChecked
    end
  end.

(** [cpuinfo] is [None] when [/proc/cpuinfo] cannot be opened.  What
    follows the loop, [fclose(stream); return 0;], is reached only when
    the loop ends: the [return(1)] inside the loop leave the stream
    open. *)
Definition cpuIdCheck (cpuinfo : option (list cpuinfo_line)) : M Z :=
  match cpuinfo with
  | None => perror "Opening /proc/cpuinfo" ;; exit 1
  | Some lines =>
    stream <- fopen ;;
    r <- cpuinfo_loop lines false false ;;
    if r =? 0 then fclose stream ;; ret 0 else ret r
  end.

(** ** [main] *)

(** What [sscanf(optarg, "%1d:%i,%f", &pstateId, &vid, &div)] converts:
    fewer than two fields, two, or three.  [div] is the text of the third
    field; what is stored in the variable is [scan_float] of it. *)
Inductive scan : Type :=
| ScanFail (n : Z)
| Scan2 (pstateId vid : Z)
| Scan3 (pstateId vid : Z) (div : scanned).

(** One result of [getopt(argc, argv, "hcvrp:")]; [Opt_unknown] is the
    [default] case, with the test [optind != argc - 1]. *)
Inductive opt : Type :=
| Opt_h
| Opt_v
| Opt_r
| Opt_c
| Opt_p (optarg : string) (fields : scan)
| Opt_unknown (not_last : bool) (arg : string).

(** The variables of [main] that the option loop sets. *)
Record args : Type := {
  vidToSet : Z -> Z;
  divToSet : Z -> cfloat;
  read : bool;
  current : bool;
  div : cfloat
}.

Definition initial_args : args :=
  {| vidToSet := fun _ => 0; divToSet := fun _ => 0%Q;
     read := false; current := false; div := 0%Q |}.

(** Assignment to one element of an array. *)
Definition upd {A : Type} (a : Z -> A) (i : Z) (x : A) : Z -> A :=
  fun j => if j =? i then x else a j.

(** [case 'p'] after a successful [sscanf]. *)
Definition set_pstate (a : args) (pstateId vid : Z) (d : cfloat) (k : args -> M args) :
    M args :=
  if (pstateId <? 0) || (pstateId >=? 8) then
    print Stderr (OutOfBounds pstateId) ;; exit 1
  else if negb (vidToSet a pstateId =? 0) then
    print Stderr (Duplicate pstateId) ;; exit 1
  else
    whenv (print Stdout (VidToSet vid (voltage vid) d pstateId)) ;;
    k {| vidToSet := upd (vidToSet a) pstateId (u64 vid);
         divToSet := upd (divToSet a) pstateId d;
         read := read a; current := current a; div := d |}.

(** The [while(getopt)] loop. *)
Fixpoint getopt_loop (argv : list opt) (a : args) : M args :=
  match argv with
  | [] => ret a
  | o :: rest =>
    match o with
    | Opt_h => usage ;; exit 0
    | Opt_v => set_verbose true ;; getopt_loop rest a
    | Opt_r =>
      getopt_loop rest {| vidToSet := vidToSet a; divToSet := divToSet a;
                          read := true; current := current a; div := div a |}
    | Opt_c =>
      getopt_loop rest {| vidToSet := vidToSet a; divToSet := divToSet a;
                          read := read a; current := true; div := div a |}
    | Opt_p optarg (ScanFail _) => print Stderr (ParseError optarg) ;; exit 1
    | Opt_p _ (Scan2 pstateId vid) =>
      set_pstate a pstateId vid 0%Q (getopt_loop rest)
    | Opt_p _ (Scan3 pstateId vid d) =>
      set_pstate a pstateId vid (scan_float d) (getopt_loop rest)
    | Opt_unknown true arg => print Stderr (InvalidArgument arg) ;; usage ;; exit 1
    | Opt_unknown false _ => usage ;; exit 0
    end
  end.

(** The locals [val] and [oMSR] of [main]. *)
Record locals : Type := { val : Z; oMSR : Z -> Z }.

Section Main.

Variable dev : msrdev.

(** Body of the loop of the [-r] command. *)
Definition read_pstate (i : Z) (l : locals) : M locals :=
  '(rc, o) <- rdmsr dev 0 (aMSR i) (oMSR l i) ;;
  let l := {| val := val l; oMSR := upd (oMSR l) i o |} in
  if negb (rc =? 0) then print Stderr ErrorReadingRegisters ;; exit 1 else
  d <- msrtodiv o ;;
  print Stdout (TableRow i (decodeVoltageIdentifier o)
                         (voltage (s64 (decodeVoltageIdentifier o))) d) ;;
  ret l.

(** Body of the loop over the cores of the write command. *)
Definition write_core (a : args) (i j : Z) (l : locals) : M locals :=
  '(rc, o) <- rdmsr dev j (aMSR i) (oMSR l i) ;;
  let l := {| val := val l; oMSR := upd (oMSR l) i o |} in
  if negb (rc =? 0) then print Stderr ErrorReadingRegister ;; exit 1 else
  let vid := s64 (decodeVoltageIdentifier o) in
  let v := encodeVoltageIdentifier o (vidToSet a i) in
  print Stdout (ChangingVid i j vid (voltage vid)) ;;
  (if float_neq_zero (divToSet a i)
   then d <- msrtodiv o ;; print Stdout (DivLine d)
   else ret tt) ;;
  print Stdout (ToVid (vidToSet a i) (voltage (s64 (vidToSet a i)))) ;;
  v <- (if float_neq_zero (divToSet a i)
        then print Stdout (DivLine (div a)) ;; divtomsr (divToSet a i) v
        else print Stdout Newline ;; ret v) ;;
  rc <- wrmsr dev j (aMSR i) v ;;
  if negb (rc =? 0) then print Stderr ErrorWritingRegister ;; exit 1 else
  ret {| val := v; oMSR := oMSR l |}.

(** Body of the loop over the P-states of the write command. *)
Definition write_pstate (a : args) (i : Z) (l : locals) : M locals :=
  if negb (vidToSet a i =? 0) then
    n <- get_ncpu ;;
    for_each (write_core a i) (range 0 n) l
  else ret l.

(** Body of the loop of the [-c] command. *)
Definition current_core (i : Z) (l : locals) : M locals :=
  '(rc, v) <- rdmsr dev i 0xC0010071 (val l) ;;
  let l := {| val := v; oMSR := oMSR l |} in
  if negb (rc =? 0) then print Stderr (ErrorReadingStatus 0xC0010071) ;; exit 1 else
  d <- msrtodiv v ;;
  print Stdout (CurrentState i (currentPstate v) (decodeVoltageIdentifier v)
                             (voltage (s64 (decodeVoltageIdentifier v))) d) ;;
  ret l.

(** Body of the loop that checks the requested P-states. *)
Definition check_pstate (a : args) (maxPstate minPstate : Z) (i : Z) (u : unit) : M unit :=
  if negb (vidToSet a i =? 0) && ((maxPstate <? i) || (i <? minPstate))
  then print Stderr (NotValid i)
  else ret tt.

(** What follows the call of [cpuIdCheck] in [main].  The locals that C
    leaves uninitialised start at 0; each is assigned before it is read. *)
Definition apply_args (a : args) : M unit :=
  '(rc, v) <- rdmsr dev 0 0xC0010061 0 ;;
  if negb (rc =? 0) then print Stderr FailedReadingMsr ;; exit 1 else
  let maxPstate := maxPstateOf v in
  let minPstate := minPstateOf v in
  (if negb (minPstate =? 0) then whenv (print Stdout Beware) else ret tt) ;;
  for_each (check_pstate a maxPstate minPstate) (range 0 8) tt ;;
  l <- (if read a
        then print Stdout TableHeader ;;
             for_each read_pstate (range minPstate (maxPstate + 1))
                      {| val := v; oMSR := fun _ => 0 |}
        else ret {| val := v; oMSR := fun _ => 0 |}) ;;
  l <- for_each (write_pstate a) (range minPstate (maxPstate + 1)) l ;;
  (if current a
   then n <- get_ncpu ;; for_each current_core (range 0 n) l
   else ret l) ;;
  exit 0.

(** [main]: the value that [cpuIdCheck] returns is not looked at. *)
Definition main (cpuinfo : option (list cpuinfo_line)) (argv : list opt) : M unit :=
  a <- getopt_loop argv initial_args ;;
  cpuIdCheck cpuinfo ;;
  apply_args a.

End Main.

(** ** The quantities of the register layout, for the statements

    These follow the description of the registers, not the code. *)

(** The same encoder written from the description of the codec: clear bits
    15..9 of the word, then set them to [id & 0x7F]. *)
Definition encodeVoltageIdentifier_spec (word id : Z) : Z :=
  Z.lor (Z.land word (Z.lnot (Z.shiftl 0x7F 9))) (Z.shiftl (Z.land id 0x7F) 9).

(** Bits 8..4 and bits 3..0 of a P-state register. *)
Definition DidMSD (word : Z) : Z := (word / 2 ^ 4) mod 2 ^ 5.
Definition DidLSD (word : Z) : Z := word mod 2 ^ 4.

(** The exact rational [1.550 - 0.0125 * id]. *)
Definition voltage_formula (id : Z) : Q :=
  ((1550 # 1000) - (125 # 10000) * inject_Z id)%Q.

(** The divisor [n + f/4], for [f] quarters. *)
Definition quarters (n f : Z) : Q := (inject_Z n + inject_Z f * (1 # 4))%Q.

(** ** Devices, for the statements and the examples *)

(** A device on which every system call succeeds and transfers 8 bytes. *)
Record dev_ok (dev : msrdev) : Prop := {
  ok_open : forall l cpu, dev_open dev l cpu = true;
  ok_lseek : forall l cpu msr, dev_lseek dev l cpu msr = true;
  ok_read : forall l cpu msr, fst (dev_read dev l cpu msr) = 8;
  ok_write : forall l cpu msr v, dev_write dev l cpu msr v = 8;
  ok_close : forall l fd, dev_close dev l fd = true
}.

(** Such a device, whose registers read as [regs cpu msr]. *)
Definition good_dev (regs : Z -> Z -> Z) : msrdev :=
  {| dev_open := fun _ _ => true;
     dev_lseek := fun _ _ _ => true;
     dev_read := fun _ cpu msr => (8, regs cpu msr);
     dev_write := fun _ _ _ _ => 8;
     dev_close := fun _ _ => true |}.

(** A device on which [read] and [write] fail (they return -1), as for a
    register that the processor does not implement. *)
Definition io_error_dev : msrdev :=
  {| dev_open := fun _ _ => true;
     dev_lseek := fun _ _ _ => true;
     dev_read := fun _ _ _ => (-1, 0);
     dev_write := fun _ _ _ _ => -1;
     dev_close := fun _ _ => true |}.

(** Registers of a machine whose status register gives [minPstate = 0]
    and [maxPstate = 2]. *)
Definition sample_regs (cpu msr : Z) : Z :=
  if msr =? 0xC0010061 then 0x20
  else if msr =? 0xC0010071 then 0x520A2
  else 0x8000013000001CC0.

(** [/proc/cpuinfo] of a supported machine with two cores, and of an
    unsupported one. *)
Definition sample_cpuinfo : option (list cpuinfo_line) :=
  Some [L_other; L_vendor_id (Some "AuthenticAMD"%string); L_cpu_family (Some 0x14);
        L_model (Some 2); L_other; L_cpu_cores (Some 2); L_other].

Definition intel_cpuinfo : option (list cpuinfo_line) :=
  Some [L_other; L_vendor_id (Some "GenuineIntel"%string); L_cpu_family (Some 6);
        L_model (Some 23); L_other; L_cpu_cores (Some 2); L_other].


(** Two requests: P-state 5, outside the range of [sample_regs], and
    P-state 1 with a divisor; and the table that the option loop builds
    from them. *)
Definition sample_argv : list opt :=
  [Opt_p "5:0x20" (Scan2 5 0x20); Opt_p "1:0x21,11.5" (Scan3 1 0x21 (115 # 10))].

Definition sample_args : args :=
  match getopt_loop sample_argv initial_args initial_world with
  | Ret a _ => a
  | _ => initial_args
  end.



(** The edit request that an option carries. *)
Definition request_of (o : opt) : option (Z * Z) :=
  match o with
  | Opt_p _ (Scan2 pstateId vid) => Some (pstateId, vid)
  | Opt_p _ (Scan3 pstateId vid _) => Some (pstateId, vid)
  | _ => None
  end.

(** ** Vocabulary of the properties *)

(** The test behind the bound of [voltage] on the 7-bit identifiers. *)
Definition voltage_close (id : Z) : bool :=
  ((0x7C <=? id) && (id <=? 0x7F))
  || Qle_bool (Qabs (voltage id - voltage_formula id)) (1 # 2 ^ 52).

(** [runs m w Post]: from the world [w] the computation [m] returns
    normally, having appended some events [l] to the log and changed
    nothing else, and [Post] holds of its value and of [l]. *)
Definition runs {A : Type} (m : M A) (w : world) (Post : A -> list event -> Prop) : Prop :=
  exists a l, m w = Ret a (add_log w l) /\ Post a l.

(** The events that are not accesses to the device. *)
Definition quiet (l : list event) : Prop := Forall (fun e => is_hw e = false) l.

(** Every write recorded in [l] is to a register that satisfies [P]. *)
Definition writes_only (P : Z -> Prop) (l : list event) : Prop :=
  forall cpu msr v c, In (SysWrite cpu msr v c) l -> P msr.

(** No write is recorded in [l]. *)
Definition no_writes (l : list event) : Prop := writes_only (fun _ => False) l.

(** The log grows by events that are not accesses to the device. *)
Definition parse_quiet (w w' : world) : Prop :=
  exists l, log w' = log w ++ l /\ quiet l.

(** The same, and the last event is a diagnostic on [stderr]. *)
Definition parse_fatal (w w' : world) : Prop :=
  exists l m, log w' = log w ++ l ++ [Print Stderr m] /\ quiet l.

(** [v] is the word that the write loop builds for P-state [i] from the
    word [o] that it read.  Without a divisor it is [o] with the requested
    identifier encoded: its Vid field holds the low 7 bits of the
    identifier, bits 8..0 are those of [o], and for an identifier in
    [0,127] so are bits 16 and above.  With a divisor, the two fields that
    [divtomsr] computes are stored as well: when the DidMSD is below 32
    and the DidLSD below 16, the Vid field holds the low 7 bits of the
    identifier, the two divisor fields of [v] are the two computed, and
    for an identifier in [0,127] bits 16 and above are those of [o]. *)
Definition edited_word (a : args) (i o v : Z) : Prop :=
  if float_neq_zero (divToSet a i) then
    exists msd lsd,
      did_of_div (divToSet a i) = Some (msd, lsd)
      /\ v = Z.lor (Z.lor (Z.land (encodeVoltageIdentifier o (vidToSet a i))
                                 (u64 (Z.lnot 0x1ff)))
                         (u32 (Z.shiftl msd 4))) lsd
      /\ (msd < 32 -> lsd < 16 ->
          decodeVoltageIdentifier v = Z.land (vidToSet a i) 0x7F
          /\ DidMSD v = msd /\ DidLSD v = lsd
          /\ (0 <= vidToSet a i <= 127 ->
              forall n, 16 <= n -> Z.testbit v n = Z.testbit o n))
  else
    v = encodeVoltageIdentifier o (vidToSet a i)
    /\ decodeVoltageIdentifier v = Z.land (vidToSet a i) 0x7F
    /\ (forall n, 0 <= n < 9 -> Z.testbit v n = Z.testbit o n)
    /\ (0 <= vidToSet a i <= 127 ->
        forall n, 16 <= n -> Z.testbit v n = Z.testbit o n).

(** On core [j] the register of P-state [i] was read, as the 64-bit word
    [o], and written with the word built from [o] and the request. *)
Definition edit_written (a : args) (i j : Z) (l : list event) : Prop :=
  exists o v,
    is_u64 o
    /\ In (SysRead j (aMSR i) 8 o) l
    /\ In (SysWrite j (aMSR i) v 8) l
    /\ edited_word a i o v.

(** The cores and registers of the writes recorded in [l], in order. *)
Definition write_targets (l : list event) : list (Z * Z) :=
  flat_map (fun e => match e with
                     | SysWrite cpu msr _ _ => [(cpu, msr)]
                     | _ => []
                     end) l.

(** The writes of the write loop for P-state [i] on [n] cores: none when
    no edit is pending, else one per core, in the order of the cores. *)
Definition pstate_targets (a : args) (n i : Z) : list (Z * Z) :=
  if vidToSet a i =? 0 then [] else map (fun j => (j, aMSR i)) (range 0 n).

(** The divisors to set are in the range of the conversions of
    [divtomsr]. *)
Definition divisors_defined (a : args) : Prop :=
  forall i, 0 <= i < 8 -> vidToSet a i <> 0 ->
    float_neq_zero (divToSet a i) = true -> did_of_div (divToSet a i) <> None.

(** [exits m w st Post]: from [w] the computation [m] calls [exit(st)],
    having appended events [l] with [Post l], and changed nothing else. *)
Definition exits {A : Type} (m : M A) (w : world) (st : Z) (Post : list event -> Prop) : Prop :=
  exists l, m w = Exit st (add_log w l) /\ Post l.

(** ** Vocabulary of the further properties *)

(** The options at which the option loop ends the run whatever the table
    holds: [-h], an option that [getopt] does not know, a [-p] whose
    argument does not convert, and a request for an index outside
    [0, 8). *)
Definition fatal_opt (o : opt) : bool :=
  match o with
  | Opt_h | Opt_unknown _ _ => true
  | Opt_p _ (ScanFail _) => true
  | Opt_p _ (Scan2 p _) | Opt_p _ (Scan3 p _ _) => (p <? 0) || (p >=? 8)
  | Opt_v | Opt_r | Opt_c => false
  end.

(** The lines of [/proc/cpuinfo] that [cpuIdCheck] goes past: a vendor
    that starts with [AuthenticAMD], family 0x14, model 1 or 2, a number
    of cores that is not 0, and every other line. *)
Definition accepted_line (line : cpuinfo_line) : bool :=
  match line with
  | L_vendor_id None => false
  | L_vendor_id (Some s) => String.prefix "AuthenticAMD" s
  | L_cpu_family f => negb (scan_fails f (fun f => negb (f =? 0x14)))
  | L_model m => negb (scan_fails m (fun m => negb (m =? 1) && negb (m =? 2)))
  | L_cpu_cores n => negb (scan_fails n (fun n => n =? 0))
  | L_other => true
  end.

(** [access rd wr e]: when [e] is a [read] or a [write] on the MSR
    device, the core and the register satisfy [rd], respectively [wr]. *)
Definition access (rd wr : Z -> Z -> Prop) (e : event) : Prop :=
  match e with
  | SysRead cpu msr _ _ => rd cpu msr
  | SysWrite cpu msr _ _ => wr cpu msr
  | _ => True
  end.

(** [steps m w R]: however [m] ends from [w] (it returns, exits, or
    reaches an undefined operation), it has left the two globals as they
    were and appended to the log events that all satisfy [R]. *)
Definition steps {A : Type} (m : M A) (w : world) (R : event -> Prop) : Prop :=
  exists l,
    verbose (final_world (m w)) = verbose w
    /\ ncpu (final_world (m w)) = ncpu w
    /\ log (final_world (m w)) = log w ++ l
    /\ Forall R l.

(** The messages of [cpuIdCheck] for a processor that is not supported. *)
Definition unsupported (m : msg) : Prop :=
  match m with
  | VendorUnsupported _ | FamilyUnsupported _ | ModelUnsupported _ => True
  | _ => False
  end.

(** What the scan of [lines] from the world [w] has done when it ends
    with [o]: [verbose] and the descriptors are as before, [ncpu] is as
    before or the number of a [cpu cores] line, only messages were
    printed, and an end other than the value 0 comes with a line that is
    not accepted and its message on [stderr]. *)
Definition cpuinfo_post (lines : list cpuinfo_line) (w : world) (o : outcome Z) : Prop :=
  verbose (final_world o) = verbose w
  /\ fds (final_world o) = fds w
  /\ (ncpu (final_world o) = ncpu w
      \/ exists k, In (L_cpu_cores (Some k)) lines /\ ncpu (final_world o) = k)
  /\ exists l,
       log (final_world o) = log w ++ l /\ quiet l
       /\ match o with
          | Ret r _ =>
            r = 0
            \/ (r = 1
                /\ exists line l' m,
                     In line lines /\ accepted_line line = false
                     /\ l = l' ++ [Print Stderr m] /\ unsupported m)
          | Exit st _ =>
            st = 1
            /\ exists n l',
                 In (L_cpu_cores n) lines /\ accepted_line (L_cpu_cores n) = false
                 /\ l = l' ++ [Print Stderr CoresError]
          | Undef _ => In (L_vendor_id None) lines
          end.

(** The registers that [main] may read and write, for the table [a] of
    the options and [n] cores: the status register on core 0, the P-state
    registers on core 0 under [-r], the register of a pending edit on each
    core, and the per-core status register under [-c]. *)
Definition may_read (a : args) (n : Z) (cpu msr : Z) : Prop :=
  (cpu = 0 /\ msr = 0xC0010061)
  \/ (cpu = 0 /\ read a = true /\ exists i, 0 <= i < 8 /\ msr = aMSR i)
  \/ (0 <= cpu < n /\ current a = true /\ msr = 0xC0010071)
  \/ (0 <= cpu < n /\ exists i, 0 <= i < 8 /\ vidToSet a i <> 0 /\ msr = aMSR i).

Definition may_write (a : args) (n : Z) (cpu msr : Z) : Prop :=
  0 <= cpu < n /\ exists i, 0 <= i < 8 /\ vidToSet a i <> 0 /\ msr = aMSR i.

(** The command line requests an edit of P-state [i] with an identifier
    that is not 0. *)
Definition requested (argv : list opt) (i : Z) : Prop :=
  exists o v, In o argv /\ request_of o = Some (i, v) /\ u64 v <> 0.

(** The divisor that an option stores: what [sscanf] converts from the
    third field of a [-p], and 0 otherwise. *)
Definition divisor_of (o : opt) : cfloat :=
  match o with
  | Opt_p _ (Scan3 _ _ d) => scan_float d
  | _ => 0%Q
  end.

(** * Part II: properties *)

(** ** The rounding, on known values *)

(** 0.1 is [0x3FB999999999999A] in binary64 and [0x3DCCCCCD] in binary32. *)
Example to_double_tenth : to_double (1 # 10) = (3602879701896397 # 2 ^ 55)%Q.
Proof. vm_compute. reflexivity. Qed.

Example to_float_tenth : to_float (1 # 10) = (13421773 # 2 ^ 27)%Q.
Proof. vm_compute. reflexivity. Qed.

(** Ties go to the even significand; the sign is kept. *)
Example to_float_ties :
  to_float (inject_Z (2 ^ 24 + 1)) = inject_Z (2 ^ 24)
  /\ to_float (inject_Z (2 ^ 24 + 3)) = inject_Z (2 ^ 24 + 4)
  /\ to_float (inject_Z (- (2 ^ 24 + 3))) = inject_Z (- (2 ^ 24 + 4)).
Proof. repeat split; vm_compute; reflexivity. Qed.

(** Below the smallest normal number the spacing is [2^-149]. *)
Example to_float_subnormal :
  to_float (1 # 2 ^ 150) = 0%Q
  /\ to_float (3 # 2 ^ 150) = (1 # 2 ^ 148)%Q
  /\ to_float (5 # 2 ^ 151) = (1 # 2 ^ 149)%Q.
Proof. repeat split; vm_compute; reflexivity. Qed.

(** What is representable is not changed. *)
Example to_float_exact :
  to_float (23 # 2) = (23 # 2)%Q /\ to_double (- (327 # 8)) = (- (327 # 8))%Q.
Proof. split; vm_compute; reflexivity. Qed.

(** ** The rounding is to a nearest value of the format *)

Lemma rne_error (num den : Z) :
  0 < den -> Z.abs (2 * (rne num den * den - num)) <= den.
Proof.
  intros Hden. unfold rne.
  pose proof (Z.div_mod num den ltac:(lia)) as Hdm.
  pose proof (Z.mod_pos_bound num den Hden) as Hr.
  set (q := num / den) in *. set (r := num mod den) in *.
  destruct (Z.compare_spec (2 * r) den) as [E | L | G].
  - destruct (Z.even q); nia.
  - nia.
  - nia.
Qed.

(** [2^(mag - 1) <= |n| / d]. *)
Lemma mag_lower (n : Z) (d : positive) :
  n <> 0 ->
  let e := mag n d - 1 in
  if 0 <=? e then Zpos d * 2 ^ e <= Z.abs n else Zpos d <= Z.abs n * 2 ^ (- e).
Proof.
  intros Hn. unfold mag.
  set (a := Z.abs n). assert (Ha : 0 < a) by (unfold a; lia).
  pose proof (Z.log2_spec a Ha) as [La _].
  pose proof (Z.log2_spec (Zpos d) ltac:(lia)) as [_ Ld].
  rewrite <- Z.add_1_r in Ld.
  pose proof (Z.log2_nonneg a) as Na. pose proof (Z.log2_nonneg (Zpos d)) as Nd.
  set (la := Z.log2 a) in *. set (ld := Z.log2 (Zpos d)) in *.
  set (k := la - ld).
  destruct (Z.leb_spec 0 k) as [Hk | Hk].
  - destruct (Z.leb_spec (Zpos d * 2 ^ k) a) as [H | H]; cbv zeta.
    + replace (k + 1 - 1) with k by lia.
      replace (0 <=? k) with true by (symmetry; apply Z.leb_le; lia). exact H.
    + destruct (Z.leb_spec 0 (k - 1)) as [Hk1 | Hk1].
      * (* d * 2^(k-1) <= a : d < 2^(ld+1), 2^la <= a *)
        assert (E : 2 ^ la = 2 ^ (ld + 1) * 2 ^ (k - 1)).
        { rewrite <- Z.pow_add_r by lia. f_equal. lia. }
        assert (0 < 2 ^ (k - 1)) by (apply Z.pow_pos_nonneg; lia).
        nia.
      * assert (k = 0) by lia. replace (- (k - 1)) with 1 by lia.
        assert (E : la = ld) by lia. rewrite E in La.
        rewrite Z.pow_add_r in Ld by lia. change (2 ^ 1) with 2 in *. lia.
  - destruct (Z.leb_spec (Zpos d) (a * 2 ^ (- k))) as [H | H]; cbv zeta.
    + replace (k + 1 - 1) with k by lia.
      replace (0 <=? k) with false by (symmetry; apply Z.leb_gt; lia). exact H.
    + replace (0 <=? k - 1) with false by (symmetry; apply Z.leb_gt; lia).
      replace (- (k - 1)) with (ld + 1 - la) by lia.
      assert (E : 2 ^ (ld + 1) = 2 ^ la * 2 ^ (ld + 1 - la)).
      { rewrite <- Z.pow_add_r by lia. f_equal. lia. }
      assert (0 < 2 ^ (ld + 1 - la)) by (apply Z.pow_pos_nonneg; lia).
      nia.
Qed.

(** [|n| / d < 2^mag]. *)
Lemma mag_upper (n : Z) (d : positive) :
  n <> 0 ->
  let e := mag n d in
  if 0 <=? e then Z.abs n < Zpos d * 2 ^ e else Z.abs n * 2 ^ (- e) < Zpos d.
Proof.
  intros Hn. unfold mag.
  set (a := Z.abs n). assert (Ha : 0 < a) by (unfold a; lia).
  pose proof (Z.log2_spec a Ha) as [_ La]. rewrite <- Z.add_1_r in La.
  pose proof (Z.log2_spec (Zpos d) ltac:(lia)) as [Ld _].
  pose proof (Z.log2_nonneg a) as Na. pose proof (Z.log2_nonneg (Zpos d)) as Nd.
  set (la := Z.log2 a) in *. set (ld := Z.log2 (Zpos d)) in *.
  set (k := la - ld).
  destruct (Z.leb_spec 0 k) as [Hk | Hk].
  - destruct (Z.leb_spec (Zpos d * 2 ^ k) a) as [H | H]; cbv zeta.
    + replace (0 <=? k + 1) with true by (symmetry; apply Z.leb_le; lia).
      assert (E : 2 ^ (la + 1) = 2 ^ ld * 2 ^ (k + 1)).
      { rewrite <- Z.pow_add_r by lia. f_equal. lia. }
      assert (0 < 2 ^ (k + 1)) by (apply Z.pow_pos_nonneg; lia).
      nia.
    + replace (0 <=? k) with true by (symmetry; apply Z.leb_le; lia). exact H.
  - destruct (Z.leb_spec (Zpos d) (a * 2 ^ (- k))) as [H | H]; cbv zeta.
    + destruct (Z.leb_spec 0 (k + 1)) as [Hk1 | Hk1].
      * assert (k = -1) by lia. replace (k + 1) with 0 by lia.
        change (2 ^ 0) with 1.
        assert (E : ld = la + 1) by lia. rewrite <- E in La. lia.
      * replace (- (k + 1)) with (ld - (la + 1)) by lia.
        assert (E : 2 ^ ld = 2 ^ (la + 1) * 2 ^ (ld - (la + 1))).
        { rewrite <- Z.pow_add_r by lia. f_equal. lia. }
        assert (0 < 2 ^ (ld - (la + 1))) by (apply Z.pow_pos_nonneg; lia).
        nia.
    + replace (0 <=? k) with false by (symmetry; apply Z.leb_gt; lia). exact H.
Qed.

(** The significand of the result has at most [prec] bits. *)
Lemma round_significand (prec emin : Z) (x : Q) :
  0 <= prec ->
  let e := ulp_exp prec emin x in
  exists m, (round prec emin x == inject_Z m * pow2 e)%Q /\ Z.abs m <= 2 ^ prec.
Proof.
  intros Hprec e. unfold round. fold (ulp_exp prec emin x). fold e.
  destruct x as [n d]. cbn [Qnum Qden] in *.
  assert (H2p : 0 < 2 ^ prec) by (apply Z.pow_pos_nonneg; lia).
  destruct (Z.eqb_spec n 0) as [-> | Hn].
  - exists 0. split; [rewrite Qmult_0_l; reflexivity | cbn; lia].
  - pose proof (mag_upper n d Hn) as Hu. cbv zeta in Hu.
    assert (He : mag n d - prec <= e) by (unfold e, ulp_exp; cbn [Qnum Qden]; lia).
    clearbody e. unfold pow2.
    destruct (Z.leb_spec 0 e) as [He0 | He0].
    + assert (HP : 0 < 2 ^ e) by (apply Z.pow_pos_nonneg; lia).
      pose proof (rne_error n (Zpos d * 2 ^ e) ltac:(lia)) as Hr.
      set (m := rne n (Zpos d * 2 ^ e)) in *.
      exists m. split; [rewrite Qred_correct, inject_Z_mult; reflexivity |].
      assert (Hn' : Z.abs n < Zpos d * 2 ^ e * 2 ^ prec).
      { destruct (Z.leb_spec 0 (mag n d)) as [Hm | Hm].
        - assert (E : 2 ^ (e + prec) = 2 ^ mag n d * 2 ^ (e + prec - mag n d)).
          { rewrite <- Z.pow_add_r by lia. f_equal. lia. }
          assert (0 < 2 ^ (e + prec - mag n d)) by (apply Z.pow_pos_nonneg; lia).
          rewrite <- Z.mul_assoc, <- Z.pow_add_r by lia. nia.
        - assert (0 < 2 ^ (- mag n d)) by (apply Z.pow_pos_nonneg; lia). nia. }
      set (P := 2 ^ e) in *. set (R := 2 ^ prec) in *. nia.
    + assert (HP : 0 < 2 ^ (- e)) by (apply Z.pow_pos_nonneg; lia).
      pose proof (rne_error (n * 2 ^ (- e)) (Zpos d) ltac:(lia)) as Hr.
      set (m := rne (n * 2 ^ (- e)) (Zpos d)) in *.
      exists m. split.
      { rewrite Qred_correct. unfold Qeq, Qmult, inject_Z. cbn [Qnum Qden]. lia. }
      assert (Hn' : Z.abs n * 2 ^ (- e) < Zpos d * 2 ^ prec).
      { destruct (Z.leb_spec 0 (mag n d)) as [Hm | Hm].
        - assert (E : 2 ^ prec = 2 ^ mag n d * 2 ^ (- e) * 2 ^ (e + prec - mag n d)).
          { rewrite <- !Z.pow_add_r by lia. f_equal. lia. }
          assert (0 < 2 ^ (e + prec - mag n d)) by (apply Z.pow_pos_nonneg; lia).
          assert (0 < 2 ^ mag n d) by (apply Z.pow_pos_nonneg; lia).
          set (M := 2 ^ mag n d) in *. set (P := 2 ^ (- e)) in *.
          set (K := 2 ^ (e + prec - mag n d)) in *.
          assert (H1 : Z.abs n * P < Zpos d * M * P) by nia.
          assert (H2 : M * P <= M * P * K) by nia.
          rewrite E. nia.
        - assert (E : 2 ^ (- e) * 2 ^ (e + prec - mag n d) = 2 ^ (- mag n d) * 2 ^ prec).
          { rewrite <- !Z.pow_add_r by lia. f_equal. lia. }
          assert (0 < 2 ^ (e + prec - mag n d)) by (apply Z.pow_pos_nonneg; lia).
          assert (0 < 2 ^ (- mag n d)) by (apply Z.pow_pos_nonneg; lia).
          set (M := 2 ^ (- mag n d)) in *. set (P := 2 ^ (- e)) in *.
          set (K := 2 ^ (e + prec - mag n d)) in *. set (R := 2 ^ prec) in *.
          assert (H1 : Z.abs n * P * K < Zpos d * R).
          { replace (Z.abs n * P * K) with (Z.abs n * (P * K)) by ring.
            rewrite E. nia. }
          nia. }
      set (P := 2 ^ (- e)) in *. set (R := 2 ^ prec) in *. nia.
Qed.

(** [round] returns a multiple of [2^e] at distance at most [2^e / 2]. *)
Lemma round_nearest (prec emin : Z) (x : Q) :
  let e := ulp_exp prec emin x in
  (exists m, round prec emin x == inject_Z m * pow2 e)%Q
  /\ (Qabs (round prec emin x - x) <= pow2 e * (1 # 2))%Q.
Proof.
  intros e. unfold round. fold (ulp_exp prec emin x). fold e.
  destruct x as [n d]. cbn [Qnum Qden] in *.
  destruct (Z.eqb_spec n 0) as [-> | Hn].
  - split.
    + exists 0. rewrite Qmult_0_l. reflexivity.
    + setoid_replace (0 - 0 # d)%Q with 0%Q by reflexivity.
      unfold pow2. destruct (0 <=? e).
      * apply Qmult_le_0_compat; [| discriminate].
        change 0%Q with (inject_Z 0). rewrite <- Zle_Qle. apply Z.pow_nonneg. lia.
      * discriminate.
  - unfold pow2.
    destruct (Z.leb_spec 0 e) as [He | He].
    + assert (HP : 0 < 2 ^ e) by (apply Z.pow_pos_nonneg; lia).
      pose proof (rne_error n (Zpos d * 2 ^ e) ltac:(lia)) as Hr.
      set (m := rne n (Zpos d * 2 ^ e)) in *. set (P := 2 ^ e) in *.
      split.
      * exists m. rewrite ?Qred_correct, inject_Z_mult. reflexivity.
      * rewrite ?Qred_correct. apply Qabs_Qle_condition. unfold Qle, Qminus, Qplus, Qopp, Qmult, inject_Z.
        cbn [Qnum Qden]. rewrite ?Pos2Z.inj_mul. split; nia.
    + assert (HP : 0 < 2 ^ (- e)) by (apply Z.pow_pos_nonneg; lia).
      pose proof (rne_error (n * 2 ^ (- e)) (Zpos d) ltac:(lia)) as Hr.
      set (m := rne (n * 2 ^ (- e)) (Zpos d)) in *.
      assert (EP : Zpos (Z.to_pos (2 ^ (- e))) = 2 ^ (- e)) by (apply Z2Pos.id; exact HP).
      set (P := 2 ^ (- e)) in *. set (p := Z.to_pos P) in *.
      split.
      * exists m. rewrite ?Qred_correct. unfold Qeq, Qmult, inject_Z. cbn [Qnum Qden]. lia.
      * rewrite ?Qred_correct. apply Qabs_Qle_condition. unfold Qle, Qminus, Qplus, Qopp, Qmult, inject_Z.
        cbn [Qnum Qden]. rewrite ?Pos2Z.inj_mul, ?EP. split; nia.
Qed.

Lemma pow2_Qpower (e : Z) : (pow2 e == 2 ^ e)%Q.
Proof.
  unfold pow2. change 2%Q with (inject_Z 2).
  destruct (Z.leb_spec 0 e) as [He | He].
  - rewrite Zpower_Qpower by exact He. reflexivity.
  - assert (HP : 0 < 2 ^ (- e)) by (apply Z.pow_pos_nonneg; lia).
    replace e with (- (- e)) at 2 by lia.
    rewrite Qpower_opp, <- Zpower_Qpower by lia.
    unfold Qeq, Qinv, inject_Z. cbn [Qnum Qden].
    destruct (2 ^ (- e)) as [| p | p] eqn:E; try lia.
    cbn. reflexivity.
Qed.

Lemma mag_lower_Q (n : Z) (d : positive) :
  n <> 0 -> (2 ^ (mag n d - 1) <= Qabs (n # d))%Q.
Proof.
  intros Hn. pose proof (mag_lower n d Hn) as H. cbv zeta in H.
  rewrite <- pow2_Qpower. unfold pow2.
  destruct (Z.leb_spec 0 (mag n d - 1)) as [He | He].
  - unfold Qle, Qabs, inject_Z. cbn [Qnum Qden]. lia.
  - assert (HP : 0 < 2 ^ (- (mag n d - 1))) by (apply Z.pow_pos_nonneg; lia).
    unfold Qle, Qabs. cbn [Qnum Qden]. rewrite Z2Pos.id by exact HP. lia.
Qed.

(** The error of [round] relative to the value, with the absolute term of
    the gradual underflow. *)
Lemma round_error (prec emin : Z) (x : Q) :
  (Qabs (round prec emin x - x) <= Qabs x * 2 ^ (- prec) + 2 ^ (emin - 1))%Q.
Proof.
  assert (Hpos : forall e, (0 <= 2 ^ e)%Q).
  { intros e. apply Qpower_0_le. discriminate. }
  destruct (Z.eq_dec (Qnum x) 0) as [Hz | Hnz].
  - assert (E : (round prec emin x - x == 0)%Q).
    { unfold round. rewrite Hz. cbn [Z.eqb]. destruct x as [n d]. cbn in Hz. subst n.
      reflexivity. }
    rewrite E. cbn [Qabs Z.abs Qnum Qden].
    rewrite <- (Qplus_0_l 0) at 1.
    apply Qplus_le_compat; [| apply Hpos].
    apply Qmult_le_0_compat; [apply Qabs_nonneg | apply Hpos].
  - destruct (round_nearest prec emin x) as [_ H]. cbv zeta in H.
    rewrite pow2_Qpower in H.
    assert (Hhalf : forall e, (2 ^ e * (1 # 2) == 2 ^ (e - 1))%Q).
    { intros e. unfold Z.sub. rewrite Qpower_plus by discriminate. reflexivity. }
    rewrite Hhalf in H.
    unfold ulp_exp in H.
    destruct (Z.max_spec (mag (Qnum x) (Qden x) - prec) emin) as [[_ E] | [_ E]];
      rewrite E in H; clear E.
    + eapply Qle_trans; [exact H |].
      rewrite <- (Qplus_0_l (2 ^ (emin - 1))) at 1.
      apply Qplus_le_l. apply Qmult_le_0_compat; [apply Qabs_nonneg | apply Hpos].
    + eapply Qle_trans; [exact H |].
      rewrite <- (Qplus_0_r (2 ^ (mag (Qnum x) (Qden x) - prec - 1))).
      apply Qplus_le_compat; [| apply Hpos].
      replace (mag (Qnum x) (Qden x) - prec - 1)
        with ((mag (Qnum x) (Qden x) - 1) + - prec) by lia.
      rewrite Qpower_plus by discriminate.
      apply Qmult_le_compat_r; [| apply Hpos].
      destruct x as [n d]. apply mag_lower_Q. exact Hnz.
Qed.

Lemma to_double_error (x : Q) :
  (Qabs (to_double x - x) <= Qabs x * (1 # 2 ^ 53) + (1 # 2 ^ 1075))%Q.
Proof.
  pose proof (round_error 53 (-1074) x) as H.
  assert (E1 : (2 ^ (- (53)) == 1 # 2 ^ 53)%Q) by reflexivity.
  assert (E2 : (2 ^ (-1074 - 1) == 1 # 2 ^ 1075)%Q) by reflexivity.
  rewrite E1, E2 in H. exact H.
Qed.

(** ** Bit-level lemmas *)

Section Bits.

Lemma testbit_u64 (a n : Z) :
  0 <= n -> Z.testbit (u64 a) n = (n <? 64) && Z.testbit a n.
Proof.
  intros Hn. unfold u64.
  destruct (Z.ltb_spec n 64) as [Hlt | Hge]; cbn [andb orb negb].
  - apply Z.mod_pow2_bits_low; lia.
  - apply Z.mod_pow2_bits_high; lia.
Qed.

Lemma testbit_is_u64_high (w n : Z) :
  is_u64 w -> 64 <= n -> Z.testbit w n = false.
Proof.
  intros Hw Hn. unfold is_u64 in Hw.
  rewrite <- (Z.mod_small w (2 ^ 64)) by lia.
  apply Z.mod_pow2_bits_high; lia.
Qed.

Lemma testbit_0x7F (k : Z) : 0 <= k -> Z.testbit 0x7F k = (k <? 7).
Proof.
  intros Hk. change 0x7F with (Z.ones 7).
  destruct (Z.ltb_spec k 7).
  - apply Z.ones_spec_low; lia.
  - apply Z.ones_spec_high; lia.
Qed.

(** The mask [~(0x7F << 9)] seen as a 64-bit word. *)
Lemma testbit_vid_mask (n : Z) :
  0 <= n ->
  Z.testbit (u64 (Z.lnot (Z.shiftl 0x7F 9))) n
  = (n <? 64) && negb ((9 <=? n) && (n <? 16)).
Proof.
  intros Hn. rewrite testbit_u64 by lia. f_equal.
  rewrite Z.lnot_spec by lia. f_equal.
  destruct (Z.leb_spec 9 n); cbn [andb orb negb].
  - rewrite Z.shiftl_spec_high by lia.
    rewrite testbit_0x7F by lia.
    destruct (Z.ltb_spec (n - 9) 7), (Z.ltb_spec n 16); (reflexivity || lia).
  - apply Z.shiftl_spec_low; lia.
Qed.

(** Every bit of the word built by the Vid encoder. *)
Lemma encode_testbit (w v n : Z) :
  is_u64 w -> 0 <= n ->
  Z.testbit (encodeVoltageIdentifier w v) n
  = (Z.testbit w n && negb ((9 <=? n) && (n <? 16)))
    || ((n <? 64) && (9 <=? n) && Z.testbit v (n - 9)).
Proof.
  intros Hw Hn. unfold encodeVoltageIdentifier.
  rewrite Z.lor_spec, Z.land_spec, testbit_vid_mask, testbit_u64 by lia.
  destruct (Z.ltb_spec n 64) as [Hlt | Hge]; cbn [andb orb negb].
  - f_equal.
    destruct (Z.leb_spec 9 n); cbn [andb orb negb].
    + apply Z.shiftl_spec_high; lia.
    + apply Z.shiftl_spec_low; lia.
  - rewrite (testbit_is_u64_high w n Hw Hge). reflexivity.
Qed.

Lemma encode_is_u64 (w v : Z) : is_u64 w -> is_u64 (encodeVoltageIdentifier w v).
Proof.
  intros Hw.
  assert (E : u64 (encodeVoltageIdentifier w v) = encodeVoltageIdentifier w v).
  { apply Z.bits_inj'. intros n Hn.
    rewrite testbit_u64 by lia.
    destruct (Z.ltb_spec n 64) as [Hlt | Hge]; cbn [andb]; [reflexivity |].
    rewrite encode_testbit by (assumption || lia).
    rewrite (testbit_is_u64_high w n Hw Hge).
    replace (n <? 64) with false by (symmetry; apply Z.ltb_ge; lia).
    reflexivity. }
  rewrite <- E. unfold is_u64, u64. apply Z.mod_pos_bound. lia.
Qed.

End Bits.

(** ** The Vid field: round trip and preservation of the other bits *)

(** C4. For every 64-bit word [w] and every identifier [id] in [0,127],
    decoding the Vid of the word obtained by encoding [id] into [w] gives
    [id] back, and every bit of [w] outside positions 15..9 is unchanged. *)
Theorem vid_roundtrip (w id : Z) :
  is_u64 w -> 0 <= id <= 127 ->
  decodeVoltageIdentifier (encodeVoltageIdentifier w id) = id
  /\ (forall n, 0 <= n -> n < 9 \/ 15 < n ->
        Z.testbit (encodeVoltageIdentifier w id) n = Z.testbit w n).
Proof.
  intros Hw Hid. split.
  - unfold decodeVoltageIdentifier.
    apply Z.bits_inj'. intros n Hn.
    rewrite Z.land_spec, Z.shiftr_spec, encode_testbit, testbit_0x7F by (assumption || lia).
    replace (n + 9 - 9) with n by lia.
    destruct (Z.ltb_spec n 7) as [Hlt | Hge].
    + replace (9 <=? n + 9) with true by (symmetry; apply Z.leb_le; lia).
      replace (n + 9 <? 16) with true by (symmetry; apply Z.ltb_lt; lia).
      replace (n + 9 <? 64) with true by (symmetry; apply Z.ltb_lt; lia).
      cbn [andb orb negb]. rewrite andb_false_r, andb_true_r. reflexivity.
    + rewrite andb_false_r. symmetry.
      rewrite <- (Z.mod_small id (2 ^ 7)) by lia.
      apply Z.mod_pow2_bits_high; lia.
  - intros n Hn Hout.
    rewrite encode_testbit by (assumption || lia).
    destruct Hout as [Hlo | Hhi].
    + replace (9 <=? n) with false by (symmetry; apply Z.leb_gt; lia).
      cbn [andb orb negb]. rewrite andb_false_r, andb_true_r, orb_false_r. reflexivity.
    + replace (n <? 16) with false by (symmetry; apply Z.ltb_ge; lia).
      rewrite andb_false_r. cbn [andb orb negb]. rewrite andb_true_r.
      replace (Z.testbit id (n - 9)) with false.
      * rewrite !andb_false_r, orb_false_r. reflexivity.
      * symmetry. rewrite <- (Z.mod_small id (2 ^ 7)) by lia.
        apply Z.mod_pow2_bits_high; lia.
Qed.

Lemma vid_roundtrip_witness :
  decodeVoltageIdentifier (encodeVoltageIdentifier 0xFFFFFFFFFFFFFFFF 0x28) = 0x28
  /\ (forall n, 0 <= n -> n < 9 \/ 15 < n ->
        Z.testbit (encodeVoltageIdentifier 0xFFFFFFFFFFFFFFFF 0x28) n
        = Z.testbit 0xFFFFFFFFFFFFFFFF n).
Proof.
  apply (vid_roundtrip 0xFFFFFFFFFFFFFFFF 0x28); unfold is_u64; lia.
Defined.

Lemma encode_spec_testbit (w id n : Z) :
  0 <= n ->
  Z.testbit (encodeVoltageIdentifier_spec w id) n
  = (Z.testbit w n && negb ((9 <=? n) && (n <? 16)))
    || ((9 <=? n) && (n <? 16) && Z.testbit id (n - 9)).
Proof.
  intros Hn. unfold encodeVoltageIdentifier_spec.
  rewrite Z.lor_spec, Z.land_spec, Z.lnot_spec by lia.
  destruct (Z.leb_spec 9 n) as [Hge | Hlt]; cbn [andb orb negb].
  - rewrite !Z.shiftl_spec_high by lia.
    rewrite Z.land_spec, testbit_0x7F by lia.
    destruct (Z.ltb_spec (n - 9) 7), (Z.ltb_spec n 16); try lia;
      cbn [andb orb negb]; rewrite ?andb_true_r, ?andb_false_r; reflexivity.
  - rewrite !Z.shiftl_spec_low by lia. reflexivity.
Qed.

(** An identifier wider than seven bits reaches bit 16 of the register. *)
Lemma vid_encode_overflow_counterexample :
  encodeVoltageIdentifier 0 0x80 <> encodeVoltageIdentifier_spec 0 0x80
  /\ Z.testbit (encodeVoltageIdentifier 0 0x80) 16 <> Z.testbit 0 16.
Proof. split; vm_compute; discriminate. Qed.

(** C3 (amended). For every 64-bit word and every requested identifier in
    [0,127] (where [id & 0x7F] is [id]), the encoder of [main] clears bits
    15..9, sets them to [id & 0x7F] and leaves all other bits untouched:
    it agrees with the encoder written from the description. *)
Theorem vid_encode_field (w id : Z) :
  is_u64 w -> 0 <= id <= 127 ->
  encodeVoltageIdentifier w id = encodeVoltageIdentifier_spec w id
  /\ (forall n, 0 <= n ->
        Z.testbit (encodeVoltageIdentifier w id) n
        = if (9 <=? n) && (n <=? 15)
          then Z.testbit (Z.land id 0x7F) (n - 9)
          else Z.testbit w n).
Proof.
  intros Hw Hid.
  assert (Hhigh : forall k, 7 <= k -> Z.testbit id k = false).
  { intros k Hk. rewrite <- (Z.mod_small id (2 ^ 7)) by lia.
    apply Z.mod_pow2_bits_high; lia. }
  split.
  - apply Z.bits_inj'. intros n Hn.
    rewrite encode_testbit, encode_spec_testbit by (assumption || lia).
    f_equal.
    destruct (Z.leb_spec 9 n); cbn [andb]; [| rewrite andb_false_r; reflexivity].
    destruct (Z.ltb_spec n 16), (Z.ltb_spec n 64); try lia; cbn [andb]; try reflexivity.
    + apply Hhigh; lia.
  - intros n Hn. rewrite encode_testbit by (assumption || lia).
    destruct (Z.leb_spec 9 n); cbn [andb orb negb].
    + destruct (Z.leb_spec n 15).
      * replace (n <? 16) with true by (symmetry; apply Z.ltb_lt; lia).
        replace (n <? 64) with true by (symmetry; apply Z.ltb_lt; lia).
        cbn [andb orb negb]. rewrite andb_false_r. cbn [orb].
        rewrite Z.land_spec, testbit_0x7F by lia.
        replace (n - 9 <? 7) with true by (symmetry; apply Z.ltb_lt; lia).
        rewrite andb_true_r. reflexivity.
      * replace (n <? 16) with false by (symmetry; apply Z.ltb_ge; lia).
        rewrite (Hhigh (n - 9)) by lia.
        cbn [andb orb negb]. rewrite andb_true_r, andb_false_r, orb_false_r.
        reflexivity.
    + rewrite andb_true_r, andb_false_r, orb_false_r. reflexivity.
Qed.

Lemma vid_encode_field_witness :
  encodeVoltageIdentifier 0x8000013000001CC0 0x20
  = encodeVoltageIdentifier_spec 0x8000013000001CC0 0x20
  /\ (forall n, 0 <= n ->
        Z.testbit (encodeVoltageIdentifier 0x8000013000001CC0 0x20) n
        = if (9 <=? n) && (n <=? 15)
          then Z.testbit (Z.land 0x20 0x7F) (n - 9)
          else Z.testbit 0x8000013000001CC0 n).
Proof.
  apply (vid_encode_field 0x8000013000001CC0 0x20); unfold is_u64; lia.
Defined.

(** ** The current P-state printed by [-c] *)

(** The index printed is the two bits 17..16 of the word, hence a value
    of [0,3]; it is the three-bit field of bits 18..16 reduced modulo 4. *)
Lemma currentPstate_bits (val : Z) :
  currentPstate val = (val / 2 ^ 16) mod 4
  /\ 0 <= currentPstate val <= 3
  /\ currentPstate val = Z.land (Z.shiftr val 16) 0x07 mod 4
  /\ (forall n, 0 <= n ->
        Z.testbit (currentPstate val) n = (n <? 2) && Z.testbit val (n + 16)).
Proof.
  unfold currentPstate.
  change 0x03 with (Z.ones 2). change 0x07 with (Z.ones 3).
  rewrite !Z.land_ones by lia. rewrite Z.shiftr_div_pow2 by lia.
  change (2 ^ 2) with 4. change (2 ^ 3) with 8.
  assert (H4 : 0 <= (val / 2 ^ 16) mod 4 < 4) by (apply Z.mod_pos_bound; lia).
  change (Z.ones 2) with 3.
  split; [reflexivity |]. split; [lia |]. split.
  - rewrite Z.mod_mod_divide by (exists 2; reflexivity). reflexivity.
  - intros n Hn. rewrite <- Z.shiftr_div_pow2 by lia.
    change 4 with (2 ^ 2). rewrite <- Z.land_ones by lia.
    rewrite Z.land_spec, Z.shiftr_spec by lia.
    rewrite andb_comm. f_equal.
    destruct (Z.ltb_spec n 2).
    + apply Z.ones_spec_low; lia.
    + apply Z.ones_spec_high; lia.
Qed.

(** ** Enumeration over an interval *)

Lemma in_range (lo hi i : Z) : lo <= i < hi -> In i (range lo hi).
Proof.
  intros H. unfold range. apply in_map_iff.
  exists (Z.to_nat (i - lo)). split; [lia |]. apply in_seq. lia.
Qed.

Lemma range_in (lo hi i : Z) : In i (range lo hi) -> lo <= i < hi.
Proof.
  unfold range. intros H. apply in_map_iff in H.
  destruct H as (k & <- & Hk). apply in_seq in Hk. lia.
Qed.

Lemma forallb_range (P : Z -> bool) (lo hi : Z) :
  forallb P (range lo hi) = true -> forall i, lo <= i < hi -> P i = true.
Proof.
  intros H i Hi. rewrite forallb_forall in H. apply H, in_range, Hi.
Qed.

(** ** [voltage] *)

Lemma voltage_close_all : forallb voltage_close (range 0 128) = true.
Proof. vm_compute. reflexivity. Qed.

(** The value of [voltage] outside the range that reads as 0, for every
    [long]: the forward error of the three roundings and of the two
    literals. *)
Lemma voltage_accuracy (id : Z) :
  (Qabs (to_double (to_double (1550 # 1000)
                    - to_double (to_double (125 # 10000) * to_double (inject_Z id)))
         - voltage_formula id)
   <= (1 # 2 ^ 53) * (3 + Qabs (inject_Z id) * (1 # 16)))%Q.
Proof.
  unfold voltage_formula.
  set (A := inject_Z id). set (a := Qabs A).
  assert (Ha0 : (0 <= a)%Q) by apply Qabs_nonneg.
  assert (Ha1 : (A <= a)%Q) by apply Qle_Qabs.
  assert (Ha2 : (- A <= a)%Q) by (unfold a; rewrite <- Qabs_opp; apply Qle_Qabs).
  pose proof (to_double_error A) as H0.
  set (x0 := to_double A) in *.
  set (c2 := to_double (125 # 10000)).
  pose proof (to_double_error (c2 * x0)) as H1.
  set (p := to_double (c2 * x0)) in *.
  set (c1 := to_double (1550 # 1000)).
  pose proof (to_double_error (c1 - p)) as H2.
  set (r := to_double (c1 - p)) in *.
  change (Qabs A) with a in H0.
  (* the constants, as numerals *)
  let v := eval vm_compute in c1 in change c1 with v in *.
  let v := eval vm_compute in c2 in change c2 with v in *.
  let v := eval vm_compute in (1 # 2 ^ 53)%Q in change (1 # 2 ^ 53)%Q with v in *.
  let v := eval vm_compute in (1 # 2 ^ 1075)%Q in change (1 # 2 ^ 1075)%Q with v in *.
  match goal with
  | H : (Qabs (x0 - A) <= a * ?u + ?eta)%Q |- _ =>
    set (U := u) in *; set (E := eta) in *
  end.
  match type of H1 with
  | (Qabs (p - ?c * x0) <= _)%Q => set (C2 := c) in *
  end.
  match type of H2 with
  | (Qabs (r - (?c - p)) <= _)%Q => set (C1 := c) in *
  end.
  apply Qabs_Qle_condition in H0. destruct H0 as [H0a H0b].
  assert (Hx0 : (Qabs (C2 * x0) <= C2 * (a + a * U + E))%Q).
  { apply Qabs_Qle_condition. unfold C2, U, E in *. split; lra. }
  assert (H1' : (Qabs (p - C2 * x0) <= C2 * (a + a * U + E) * U + E)%Q).
  { eapply Qle_trans; [exact H1 |]. apply Qplus_le_l.
    apply Qmult_le_compat_r; [exact Hx0 | discriminate]. }
  clear H1. apply Qabs_Qle_condition in H1'. destruct H1' as [H1a H1b].
  apply Qabs_Qle_condition in Hx0. destruct Hx0 as [Hx0a Hx0b].
  assert (Hcp : (Qabs (C1 - p)
                 <= C1 + C2 * (a + a * U + E) + C2 * (a + a * U + E) * U + E)%Q).
  { apply Qabs_Qle_condition. unfold C1, C2, U, E in *. split; lra. }
  assert (H2' : (Qabs (r - (C1 - p))
                 <= (C1 + C2 * (a + a * U + E) + C2 * (a + a * U + E) * U + E) * U
                    + E)%Q).
  { eapply Qle_trans; [exact H2 |]. apply Qplus_le_l.
    apply Qmult_le_compat_r; [exact Hcp | discriminate]. }
  clear H2 Hcp. apply Qabs_Qle_condition in H2'. destruct H2' as [H2a H2b].
  apply Qabs_Qle_condition.
  unfold C1, C2, U, E in *. split; lra.
Qed.

(** C6. For every identifier in [0x7C, 0x7F] [voltage] returns exactly 0;
    for every identifier outside that range it returns
    [1.550 - 0.0125 * id] as double precision computes it: within
    [2^-53 * (3 + |id| / 16)] of the exact value, and within [2^-52] of it
    for the 7-bit identifiers. *)
Theorem voltage_of_identifier (id : Z) :
  - 2 ^ 63 <= id < 2 ^ 63 ->
  if (0x7C <=? id) && (id <=? 0x7F)
  then voltage id = 0%Q
  else voltage id
       = to_double (to_double (1550 # 1000)
                    - to_double (to_double (125 # 10000) * to_double (inject_Z id)))
       /\ (Qabs (voltage id - voltage_formula id)
            <= (1 # 2 ^ 53) * (3 + Qabs (inject_Z id) * (1 # 16)))%Q
       /\ (0 <= id <= 127 ->
           (Qabs (voltage id - voltage_formula id) <= 1 # 2 ^ 52)%Q).
Proof.
  intros _.
  destruct ((0x7C <=? id) && (id <=? 0x7F)) eqn:Hr.
  - apply andb_true_iff in Hr. destruct Hr as [H1 H2].
    unfold voltage.
    replace (id <=? 0x7F) with true by (symmetry; exact H2).
    replace (id >=? 0x7C) with true by (symmetry; rewrite Z.geb_leb; exact H1).
    reflexivity.
  - assert (E : voltage id
                = to_double (to_double (1550 # 1000)
                             - to_double (to_double (125 # 10000)
                                          * to_double (inject_Z id)))).
    { unfold voltage.
      replace ((id <=? 0x7F) && (id >=? 0x7C)) with false; [reflexivity |].
      rewrite Z.geb_leb, andb_comm. symmetry. exact Hr. }
    split; [exact E |]. split.
    + rewrite E. apply voltage_accuracy.
    + intros Hid.
      pose proof (forallb_range _ _ _ voltage_close_all id ltac:(lia)) as Hc.
      unfold voltage_close in Hc. rewrite Hr in Hc. cbn [orb] in Hc.
      apply Qle_bool_iff. exact Hc.
Qed.

Lemma voltage_of_identifier_witness :
  voltage 0x28
  = to_double (to_double (1550 # 1000)
               - to_double (to_double (125 # 10000) * to_double (inject_Z 0x28)))
  /\ (Qabs (voltage 0x28 - voltage_formula 0x28)
       <= (1 # 2 ^ 53) * (3 + Qabs (inject_Z 0x28) * (1 # 16)))%Q
  /\ (0 <= 0x28 <= 127 ->
      (Qabs (voltage 0x28 - voltage_formula 0x28) <= 1 # 2 ^ 52)%Q).
Proof.
  apply (voltage_of_identifier 0x28).
  change (2 ^ 63) with 9223372036854775808. lia.
Defined.

(** ** Reasoning about runs *)

Lemma add_log_nil (w : world) : add_log w [] = w.
Proof. destruct w. unfold add_log. cbn. rewrite app_nil_r. reflexivity. Qed.

Lemma add_log_app (w : world) (l1 l2 : list event) :
  add_log (add_log w l1) l2 = add_log w (l1 ++ l2).
Proof. unfold add_log. cbn. rewrite app_assoc. reflexivity. Qed.

Lemma runs_ret {A : Type} (a : A) (w : world) (Post : A -> list event -> Prop) :
  Post a [] -> runs (ret a) w Post.
Proof. intros H. exists a, []. rewrite add_log_nil. split; [reflexivity | exact H]. Qed.

Lemma runs_bind {A B : Type} (m : M A) (k : A -> M B) (w : world)
    (Post : B -> list event -> Prop) :
  runs m w (fun a l => runs (k a) (add_log w l) (fun b l' => Post b (l ++ l'))) ->
  runs (bind m k) w Post.
Proof.
  intros (a & l & Hm & b & l' & Hk & HP).
  exists b, (l ++ l'). unfold bind. rewrite Hm, Hk, add_log_app.
  split; [reflexivity | exact HP].
Qed.

Lemma runs_weaken {A : Type} (m : M A) (w : world) (P Q : A -> list event -> Prop) :
  runs m w P -> (forall a l, P a l -> Q a l) -> runs m w Q.
Proof. intros (a & l & Hm & HP) H. exists a, l. split; [exact Hm | apply H, HP]. Qed.

Lemma runs_emit (e : event) (w : world) (Post : unit -> list event -> Prop) :
  Post tt [e] -> runs (emit e) w Post.
Proof. intros H. exists tt, [e]. split; [reflexivity | exact H]. Qed.

Lemma runs_print (s : stream) (m : msg) (w : world) (Post : unit -> list event -> Prop) :
  Post tt [Print s m] -> runs (print s m) w Post.
Proof. apply runs_emit. Qed.

Lemma runs_whenv (m : M unit) (w : world) (Post : unit -> list event -> Prop) :
  Post tt [] -> runs m w Post -> runs (whenv m) w Post.
Proof.
  intros H0 Hm. unfold runs, whenv in *. destruct (verbose w).
  - exact Hm.
  - exists tt, []. rewrite add_log_nil. split; [reflexivity | exact H0].
Qed.

Lemma runs_get_ncpu (w : world) (Post : Z -> list event -> Prop) :
  Post (ncpu w) [] -> runs get_ncpu w Post.
Proof. intros H. exists (ncpu w), []. rewrite add_log_nil. split; [reflexivity | exact H]. Qed.

Lemma quiet_app (l1 l2 : list event) : quiet l1 -> quiet l2 -> quiet (l1 ++ l2).
Proof. unfold quiet. intros H1 H2. apply Forall_app. split; assumption. Qed.

Lemma quiet_nil : quiet [].
Proof. constructor. Qed.

Lemma quiet_print (s : stream) (m : msg) : quiet [Print s m].
Proof. repeat constructor. Qed.

Lemma quiet_hw_events (l : list event) : quiet l -> hw_events l = [].
Proof.
  unfold quiet, hw_events. induction 1 as [| e l He _ IH]; cbn; [reflexivity |].
  rewrite He. exact IH.
Qed.

Lemma quiet_no_write (l : list event) (cpu msr v c : Z) :
  quiet l -> ~ In (SysWrite cpu msr v c) l.
Proof.
  unfold quiet. intros H Hin. rewrite Forall_forall in H.
  specialize (H _ Hin). discriminate.
Qed.

Create HintDb runs.
#[local] Hint Resolve quiet_nil quiet_print quiet_app : runs.

(** ** The divisor *)

(** [checkdid] only prints. *)
Lemma checkdid_runs (msd lsd : Z) (w : world) :
  runs (checkdid msd lsd) w (fun _ l => quiet l).
Proof.
  unfold checkdid.
  apply runs_bind, runs_whenv.
  - apply runs_bind.
    destruct (0x19 <? msd); [apply runs_print | apply runs_ret];
      (destruct (3 <? lsd); [apply runs_print | apply runs_ret]); auto 6 with runs.
  - apply runs_print, runs_bind.
    destruct (0x19 <? msd); [apply runs_print | apply runs_ret];
      (destruct (3 <? lsd); [apply runs_print | apply runs_ret]); auto 6 with runs.
Qed.

Lemma div_of_fields_exact_all :
  forallb (fun msd =>
    forallb (fun lsd =>
      Qeq_bool (div_of_fields msd lsd)
               (inject_Z msd + inject_Z lsd * (25 # 100) + 1))
      (range 0 16))
    (range 0 32) = true.
Proof. vm_compute. reflexivity. Qed.

(** No rounding occurs on the values of the two fields. *)
Lemma div_of_fields_value (msd lsd : Z) :
  0 <= msd < 32 -> 0 <= lsd < 16 ->
  (div_of_fields msd lsd == inject_Z msd + inject_Z lsd * (25 # 100) + 1)%Q.
Proof.
  intros Hm Hl. apply Qeq_bool_iff.
  pose proof (forallb_range _ _ _ div_of_fields_exact_all msd Hm) as H.
  cbv beta in H.
  pose proof (forallb_range _ _ _ H lsd Hl) as H2.
  cbv beta in H2. exact H2.
Qed.

Lemma DidMSD_bounds (val : Z) : 0 <= DidMSD val < 32.
Proof. unfold DidMSD. apply Z.mod_pos_bound. reflexivity. Qed.

Lemma DidLSD_bounds (val : Z) : 0 <= DidLSD val < 16.
Proof. unfold DidLSD. apply Z.mod_pos_bound. reflexivity. Qed.

Lemma didmsd_of_msr (val : Z) : u32 (Z.land (Z.shiftr val 4) 0x1f) = DidMSD val.
Proof.
  change 0x1f with (Z.ones 5).
  rewrite Z.land_ones, Z.shiftr_div_pow2 by lia.
  fold (DidMSD val). pose proof (DidMSD_bounds val).
  unfold u32. apply Z.mod_small. lia.
Qed.

Lemma didlsd_of_msr (val : Z) : u32 (Z.land val 0xf) = DidLSD val.
Proof.
  change 0xf with (Z.ones 4).
  rewrite Z.land_ones by lia.
  fold (DidLSD val). pose proof (DidLSD_bounds val).
  unfold u32. apply Z.mod_small. lia.
Qed.

Lemma msrtodiv_runs (val : Z) (w : world) :
  runs (msrtodiv val) w
       (fun q l => q = div_of_fields (DidMSD val) (DidLSD val) /\ quiet l).
Proof.
  unfold msrtodiv. rewrite didmsd_of_msr, didlsd_of_msr.
  apply runs_bind.
  apply (runs_weaken _ _ _ _ (checkdid_runs _ _ w)).
  intros [] l Hl. apply runs_ret. rewrite app_nil_r. split; [reflexivity | exact Hl].
Qed.

(** C7. For every word, [msrtodiv] extracts DidMSD from bits 8..4 and
    DidLSD from bits 3..0 and returns [DidMSD + DidLSD * 0.25 + 1]; a word
    with DidMSD = 0x0A and DidLSD = 0x2 decodes to 11.5. *)
Theorem msrtodiv_decodes (val : Z) (w : world) :
  exists q w',
    msrtodiv val w = Ret q w'
    /\ (q == inject_Z (DidMSD val) + inject_Z (DidLSD val) * (25 # 100) + 1)%Q
    /\ (DidMSD val = 0x0A -> DidLSD val = 0x2 -> (q == 115 # 10)%Q).
Proof.
  destruct (msrtodiv_runs val w) as (q & l & Hrun & Hq & _).
  exists q, (add_log w l). split; [exact Hrun |].
  assert (E : (q == inject_Z (DidMSD val) + inject_Z (DidLSD val) * (25 # 100) + 1)%Q).
  { subst q. apply div_of_fields_value; [apply DidMSD_bounds | apply DidLSD_bounds]. }
  split; [exact E |].
  intros Hm Hl. rewrite Hm, Hl in E. rewrite E. vm_compute. reflexivity.
Qed.

Lemma msrtodiv_decodes_witness :
  exists q w', msrtodiv 0xA2 initial_world = Ret q w' /\ (q == 115 # 10)%Q.
Proof.
  destruct (msrtodiv_decodes 0xA2 initial_world) as (q & w' & Hrun & _ & H).
  exists q, w'. split; [exact Hrun |]. apply H; reflexivity.
Defined.

Lemma testbit_small (x k n : Z) :
  0 <= x < 2 ^ k -> 0 <= k <= n -> Z.testbit x n = false.
Proof.
  intros Hx Hn. rewrite <- (Z.mod_small x (2 ^ k)) by lia.
  apply Z.mod_pow2_bits_high; lia.
Qed.

(** Every bit of the word that [divtomsr] stores. *)
Lemma did_word_testbit (msr msd lsd n : Z) :
  0 <= n ->
  Z.testbit (Z.lor (Z.lor (Z.land msr (u64 (Z.lnot 0x1ff))) (u32 (Z.shiftl msd 4))) lsd) n
  = (Z.testbit msr n && ((n <? 64) && negb (n <? 9)))
    || ((n <? 32) && ((4 <=? n) && Z.testbit msd (n - 4)))
    || Z.testbit lsd n.
Proof.
  intros Hn. rewrite !Z.lor_spec, Z.land_spec, testbit_u64 by lia.
  f_equal. f_equal.
  - f_equal. f_equal. rewrite Z.lnot_spec by lia. f_equal.
    change 0x1ff with (Z.ones 9).
    destruct (Z.ltb_spec n 9).
    + apply Z.ones_spec_low; lia.
    + apply Z.ones_spec_high; lia.
  - unfold u32.
    destruct (Z.ltb_spec n 32); cbn [andb].
    + rewrite Z.mod_pow2_bits_low by lia.
      destruct (Z.leb_spec 4 n); cbn [andb].
      * apply Z.shiftl_spec_high; lia.
      * apply Z.shiftl_spec_low; lia.
    + apply Z.mod_pow2_bits_high; lia.
Qed.

(** The two fields of the stored word are the two fields computed. *)
Lemma did_word_fields (msr msd lsd : Z) :
  0 <= msd < 32 -> 0 <= lsd < 16 ->
  let x := Z.lor (Z.lor (Z.land msr (u64 (Z.lnot 0x1ff))) (u32 (Z.shiftl msd 4))) lsd in
  DidMSD x = msd /\ DidLSD x = lsd.
Proof.
  intros Hm Hl x. unfold DidMSD, DidLSD. split.
  - rewrite <- Z.shiftr_div_pow2, <- Z.land_ones by lia.
    apply Z.bits_inj'. intros k Hk.
    rewrite Z.land_spec, Z.shiftr_spec by lia.
    unfold x. rewrite did_word_testbit by lia.
    replace (k + 4 - 4) with k by lia.
    rewrite (testbit_small lsd 4 (k + 4)) by lia.
    destruct (Z.ltb_spec k 5).
    + rewrite Z.ones_spec_low by lia.
      replace (k + 4 <? 9) with true by (symmetry; apply Z.ltb_lt; lia).
      replace (k + 4 <? 32) with true by (symmetry; apply Z.ltb_lt; lia).
      replace (4 <=? k + 4) with true by (symmetry; apply Z.leb_le; lia).
      cbn [andb orb negb]. rewrite !andb_false_r, orb_false_r, andb_true_r.
      reflexivity.
    + rewrite Z.ones_spec_high, andb_false_r by lia.
      symmetry. apply (testbit_small msd 5); lia.
  - rewrite <- Z.land_ones by lia.
    apply Z.bits_inj'. intros k Hk.
    rewrite Z.land_spec. unfold x. rewrite did_word_testbit by lia.
    destruct (Z.ltb_spec k 4).
    + rewrite Z.ones_spec_low by lia.
      replace (k <? 9) with true by (symmetry; apply Z.ltb_lt; lia).
      replace (4 <=? k) with false by (symmetry; apply Z.leb_gt; lia).
      cbn [andb orb negb]. rewrite !andb_false_r, andb_true_r. reflexivity.
    + rewrite Z.ones_spec_high, andb_false_r by lia.
      symmetry. apply (testbit_small lsd 4); lia.
Qed.

Lemma divtomsr_runs (d : cfloat) (msr msd lsd : Z) (w : world) :
  did_of_div d = Some (msd, lsd) ->
  runs (divtomsr d msr) w
       (fun v l =>
          v = Z.lor (Z.lor (Z.land msr (u64 (Z.lnot 0x1ff))) (u32 (Z.shiftl msd 4))) lsd
          /\ quiet l).
Proof.
  intros Hd. unfold divtomsr. rewrite Hd.
  apply runs_bind.
  apply (runs_weaken _ _ _ _ (checkdid_runs _ _ w)).
  intros [] l Hl. apply runs_ret. rewrite app_nil_r. split; [reflexivity | exact Hl].
Qed.

Lemma did_of_div_quarters_all :
  forallb (fun n =>
    forallb (fun f =>
      match did_of_div (quarters n f) with
      | Some (msd, lsd) => (msd =? n - 1) && (lsd =? f)
      | None => false
      end)
      (range 0 4))
    (range 1 33) = true.
Proof. vm_compute. reflexivity. Qed.

(** On [n + f/4] with [1 <= n <= 32], [divtomsr] computes the fields
    [n - 1] and [f]. *)
Lemma did_of_div_quarters (n f : Z) :
  1 <= n <= 32 -> 0 <= f <= 3 -> did_of_div (quarters n f) = Some (n - 1, f).
Proof.
  intros Hn Hf.
  pose proof (forallb_range _ _ _ did_of_div_quarters_all n ltac:(lia)) as H.
  cbv beta in H.
  pose proof (forallb_range _ _ _ H f ltac:(lia)) as H2.
  cbv beta in H2.
  destruct (did_of_div (quarters n f)) as [[msd lsd] |]; [| discriminate].
  apply andb_true_iff in H2. destruct H2 as [H1 H2].
  apply Z.eqb_eq in H1, H2. subst. reflexivity.
Qed.

(** A divisor of 33 needs a sixth bit of DidMSD: it is stored in bit 9 and
    read back as 1. *)
Lemma divisor_roundtrip_counterexample :
  exists msr w1 w2,
    divtomsr (quarters 33 0) 0 initial_world = Ret msr w1
    /\ msrtodiv msr w1 = Ret 1%Q w2
    /\ ~ (1 == quarters 33 0)%Q.
Proof.
  do 3 eexists. split; [vm_compute; reflexivity |].
  split; [vm_compute; reflexivity |].
  vm_compute. discriminate.
Qed.

(** C5 (amended). For every 64-bit word and every divisor [d] of the form
    integer + {0, 0.25, 0.5, 0.75} with [1.0 <= d <= 32.75], decoding the
    divisor of the word produced by encoding [d] yields exactly [d]. *)
Theorem divisor_roundtrip (word n f : Z) (w : world) :
  is_u64 word -> 1 <= n <= 32 -> 0 <= f <= 3 ->
  exists msr w1 q w2,
    divtomsr (quarters n f) word w = Ret msr w1
    /\ msrtodiv msr w1 = Ret q w2
    /\ (q == quarters n f)%Q.
Proof.
  intros Hw Hn Hf.
  destruct (divtomsr_runs _ word _ _ w (did_of_div_quarters n f Hn Hf))
    as (msr & l1 & Hrun1 & Hmsr & _).
  destruct (msrtodiv_runs msr (add_log w l1)) as (q & l2 & Hrun2 & Hq & _).
  exists msr, (add_log w l1), q, (add_log (add_log w l1) l2).
  split; [exact Hrun1 |]. split; [exact Hrun2 |].
  destruct (did_word_fields word (n - 1) f ltac:(lia) ltac:(lia)) as [Em El].
  rewrite <- Hmsr in Em, El. rewrite Em, El in Hq. subst q.
  rewrite div_of_fields_value by lia.
  unfold quarters. replace (n - 1) with (n + -1) by lia.
  rewrite inject_Z_plus. change (inject_Z (-1)) with (- (1))%Q.
  setoid_replace (25 # 100)%Q with (1 # 4)%Q by reflexivity.
  ring.
Qed.

Lemma divisor_roundtrip_witness :
  exists msr w1 q w2,
    divtomsr (quarters 11 2) 0x8000013000001CC0 initial_world = Ret msr w1
    /\ msrtodiv msr w1 = Ret q w2
    /\ (q == quarters 11 2)%Q.
Proof.
  apply (divisor_roundtrip 0x8000013000001CC0 11 2 initial_world);
    unfold is_u64; lia.
Defined.

(** ** The access layer *)

Lemma lowest_free_nonneg (fuel : nat) (fd : Z) (open : list Z) :
  0 <= fd -> 0 <= lowest_free fuel fd open.
Proof.
  revert fd. induction fuel as [| fuel IH]; intros fd Hfd; cbn; [exact Hfd |].
  destruct (existsb (Z.eqb fd) open); [apply IH; lia | exact Hfd].
Qed.

Lemma remove_fd_head (fd : Z) (open : list Z) : remove_fd fd (fd :: open) = open.
Proof. cbn. rewrite Z.eqb_refl. reflexivity. Qed.

Lemma writes_only_app (P : Z -> Prop) (l1 l2 : list event) :
  writes_only P l1 -> writes_only P l2 -> writes_only P (l1 ++ l2).
Proof.
  intros H1 H2 cpu msr v c Hin. apply in_app_or in Hin.
  destruct Hin; [eapply H1 | eapply H2]; eassumption.
Qed.

Lemma writes_only_weaken (P Q : Z -> Prop) (l : list event) :
  writes_only P l -> (forall m, P m -> Q m) -> writes_only Q l.
Proof. intros H HPQ cpu msr v c Hin. eapply HPQ, H, Hin. Qed.

Lemma no_writes_nil : no_writes [].
Proof. intros cpu msr v c []. Qed.

Lemma no_writes_app (l1 l2 : list event) :
  no_writes l1 -> no_writes l2 -> no_writes (l1 ++ l2).
Proof. apply writes_only_app. Qed.

Lemma quiet_no_writes (l : list event) : quiet l -> no_writes l.
Proof. intros H cpu msr v c Hin. exact (quiet_no_write _ _ _ _ _ H Hin). Qed.

Lemma no_writes_only (P : Z -> Prop) (l : list event) : no_writes l -> writes_only P l.
Proof. intros H. apply (writes_only_weaken _ _ _ H). intros m []. Qed.

(** On a device that works, [rdmsr] returns 0 with the word read, leaves
    no descriptor open and writes nothing. *)
Lemma rdmsr_ok (dev : msrdev) (cpu msr pVal : Z) (w : world) :
  dev_ok dev -> 0 <= msr ->
  runs (rdmsr dev cpu msr pVal) w
       (fun r l => fst r = 0
                   /\ (exists h, snd r = u64 (snd (dev_read dev h cpu msr)))
                   /\ In (SysRead cpu msr 8 (snd r)) l
                   /\ no_writes l).
Proof.
  intros Hok Hmsr. destruct Hok as [Hopen Hseek Hread Hwrite Hclose].
  assert (Hfd : forall f, (lowest_free (List.length f) 0 f <? 0) = false).
  { intros f. apply Z.ltb_ge, lowest_free_nonneg. lia. }
  assert (Hm : (msr <? 0) = false) by (apply Z.ltb_ge; exact Hmsr).
  unfold runs, rdmsr, bind, whenv, print, perror, emit, ret,
    sys_open, sys_lseek, sys_read, sys_close.
  destruct w as [vb n f lg].
  destruct vb; cbn [verbose ncpu fds log add_log];
    rewrite Hopen; cbn [verbose ncpu fds log add_log];
    rewrite Hfd, Hseek, Hm;
    (match goal with
     | |- context [dev_read dev ?h cpu msr] =>
       pose proof (Hread h cpu msr) as Hc;
       destruct (dev_read dev h cpu msr) as [count data] eqn:Er
     end);
    cbn [fst] in Hc; subst count;
    change (8 <? 8) with false; change (0 <? 8) with true;
    cbn [verbose ncpu fds log add_log];
    rewrite Hclose; change (negb (0 =? 0)) with false;
    cbn [verbose ncpu fds log add_log];
    rewrite remove_fd_head, <- !app_assoc; cbn [app];
    (eexists _, _; split; [reflexivity |]);
    (split; [reflexivity |]);
    (split; [eexists; rewrite Er; reflexivity |]);
    (split; [cbn; tauto |]);
    intros c m v k Hin; cbn in Hin;
    repeat (destruct Hin as [Hin | Hin]; [discriminate |]); exact Hin.
Qed.

(** On a device that works, [wrmsr] returns 0 after one write of [val] to
    [msr], and leaves no descriptor open. *)
Lemma wrmsr_ok (dev : msrdev) (cpu msr val : Z) (w : world) :
  dev_ok dev -> 0 <= msr ->
  runs (wrmsr dev cpu msr val) w
       (fun r l => r = 0
                   /\ In (SysWrite cpu msr val 8) l
                   /\ writes_only (eq msr) l).
Proof.
  intros Hok Hmsr. destruct Hok as [Hopen Hseek Hread Hwrite Hclose].
  assert (Hfd : forall f, (lowest_free (List.length f) 0 f <? 0) = false).
  { intros f. apply Z.ltb_ge, lowest_free_nonneg. lia. }
  assert (Hm : (msr <? 0) = false) by (apply Z.ltb_ge; exact Hmsr).
  unfold runs, wrmsr, bind, whenv, print, perror, emit, ret,
    sys_open, sys_lseek, sys_write, sys_close.
  destruct w as [vb n f lg].
  destruct vb; cbn [verbose ncpu fds log add_log];
    rewrite Hopen; cbn [verbose ncpu fds log add_log];
    rewrite Hfd, Hseek, Hm, Hwrite;
    change (8 <? 8) with false;
    cbn [verbose ncpu fds log add_log];
    rewrite Hclose; change (negb (0 =? 0)) with false;
    cbn [verbose ncpu fds log add_log];
    rewrite remove_fd_head, <- !app_assoc; cbn [app];
    (eexists _, _; split; [reflexivity |]);
    (split; [reflexivity |]);
    (split; [cbn; tauto |]);
    intros c m v k Hin; cbn in Hin;
    repeat (destruct Hin as [Hin | Hin]; [try discriminate |]);
    try (injection Hin as _ <- _ _; reflexivity); try contradiction.
Qed.

(** C8 (what the code does). When [open] succeeds and a later step fails
    ([lseek], or a transfer of fewer than 8 bytes), [rdmsr] and [wrmsr]
    return 1 with the descriptor they opened still open: the two early
    [return (1)] skip [close(fd)]. *)
Theorem msr_descriptor_left_open (dev : msrdev) (cpu msr pVal val : Z) (w : world) :
  (forall l, dev_open dev l cpu = true) ->
  (forall l, dev_lseek dev l cpu msr = false)
  \/ (0 <= msr
      /\ (forall l, dev_lseek dev l cpu msr = true)
      /\ (forall l, fst (dev_read dev l cpu msr) < 8)
      /\ (forall l, dev_write dev l cpu msr val < 8)) ->
  let fd := lowest_free (List.length (fds w)) 0 (fds w) in
  (exists v w', rdmsr dev cpu msr pVal w = Ret (1, v) w'
                /\ fds w' = fd :: fds w
                /\ forall r, ~ In (SysClose fd r) (skipn (List.length (log w)) (log w')))
  /\ (exists w', wrmsr dev cpu msr val w = Ret 1 w'
                 /\ fds w' = fd :: fds w
                 /\ forall r, ~ In (SysClose fd r) (skipn (List.length (log w)) (log w'))).
Proof.
  intros Hopen Hfail fd.
  assert (Hfd : (fd <? 0) = false).
  { apply Z.ltb_ge, lowest_free_nonneg. lia. }
  assert (Hskip : forall (l1 l2 : list event), skipn (List.length l1) (l1 ++ l2) = l2).
  { intros l1 l2. rewrite skipn_app, skipn_all, Nat.sub_diag. reflexivity. }
  unfold rdmsr, wrmsr, bind, whenv, print, perror, emit, ret,
    sys_open, sys_lseek, sys_read, sys_write, sys_close.
  destruct w as [vb n f lg]. cbn [fds log] in *. fold fd.
  assert (Hm : 0 <= msr -> (msr <? 0) = false) by (intros; apply Z.ltb_ge; assumption).
  split.
  - destruct vb; cbn [verbose ncpu fds log add_log];
      rewrite Hopen; cbn [verbose ncpu fds log add_log]; fold fd; rewrite Hfd;
      (destruct Hfail as [Hseek | (Hmsr & Hseek & Hread & Hwrite)];
       [ rewrite Hseek; change (-1 <? 0) with true
       | rewrite Hseek, Hm by assumption;
         match goal with
         | |- context [dev_read dev ?h cpu msr] =>
           pose proof (Hread h) as Hc;
           destruct (dev_read dev h cpu msr) as [count data] eqn:Er;
           cbn [fst] in Hc;
           replace (count <? 8) with true by (symmetry; apply Z.ltb_lt; exact Hc)
         end ]);
      cbn [verbose ncpu fds log add_log];
      (eexists _, _; split; [reflexivity | split; [reflexivity |]]);
      cbn [verbose ncpu fds log add_log]; rewrite <- ?app_assoc, Hskip; cbn;
      intros r Hin; repeat (destruct Hin as [Hin | Hin]; [discriminate |]); exact Hin.
  - destruct vb; cbn [verbose ncpu fds log add_log];
      rewrite Hopen; cbn [verbose ncpu fds log add_log]; fold fd; rewrite Hfd;
      (destruct Hfail as [Hseek | (Hmsr & Hseek & Hread & Hwrite)];
       [ rewrite Hseek; change (-1 <? 0) with true
       | rewrite Hseek, Hm by assumption;
         match goal with
         | |- context [dev_write dev ?h cpu msr val] =>
           replace (dev_write dev h cpu msr val <? 8) with true
             by (symmetry; apply Z.ltb_lt; apply Hwrite)
         end ]);
      cbn [verbose ncpu fds log add_log];
      (eexists; split; [reflexivity | split; [reflexivity |]]);
      cbn [verbose ncpu fds log add_log]; rewrite <- ?app_assoc, Hskip; cbn;
      intros r Hin; repeat (destruct Hin as [Hin | Hin]; [discriminate |]); exact Hin.
Qed.

Lemma msr_descriptor_left_open_witness :
  (exists v w', rdmsr io_error_dev 0 0xC0010061 0 initial_world = Ret (1, v) w'
                /\ fds w' = 3 :: [0; 1; 2]
                /\ forall r, ~ In (SysClose 3 r) (skipn 0 (log w')))
  /\ (exists w', wrmsr io_error_dev 0 0xC0010061 0 initial_world = Ret 1 w'
                 /\ fds w' = 3 :: [0; 1; 2]
                 /\ forall r, ~ In (SysClose 3 r) (skipn 0 (log w'))).
Proof.
  apply (msr_descriptor_left_open io_error_dev 0 0xC0010061 0 0 initial_world).
  - reflexivity.
  - right. repeat split; intros; cbn; lia.
Defined.

(** ** The option loop *)

Lemma parse_quiet_refl (w : world) : parse_quiet w w.
Proof. exists []. rewrite app_nil_r. split; [reflexivity | apply quiet_nil]. Qed.

Lemma parse_quiet_trans (w1 w2 w3 : world) :
  parse_quiet w1 w2 -> parse_quiet w2 w3 -> parse_quiet w1 w3.
Proof.
  intros (l1 & E1 & Q1) (l2 & E2 & Q2). exists (l1 ++ l2).
  rewrite E2, E1, app_assoc. split; [reflexivity | apply quiet_app; assumption].
Qed.

Lemma parse_quiet_fatal (w1 w2 w3 : world) :
  parse_quiet w1 w2 -> parse_fatal w2 w3 -> parse_fatal w1 w3.
Proof.
  intros (l1 & E1 & Q1) (l2 & m & E2 & Q2). exists (l1 ++ l2), m.
  rewrite E2, E1, <- !app_assoc. split; [reflexivity | apply quiet_app; assumption].
Qed.

Lemma parse_fatal_quiet (w w' : world) : parse_fatal w w' -> parse_quiet w w'.
Proof.
  intros (l & m & E & Q). exists (l ++ [Print Stderr m]).
  split; [exact E | apply quiet_app; [exact Q | apply quiet_print]].
Qed.

Lemma parse_quiet_add (w : world) (l : list event) : quiet l -> parse_quiet w (add_log w l).
Proof. intros Q. exists l. split; [reflexivity | exact Q]. Qed.

Lemma parse_fatal_add (w : world) (l : list event) (m : msg) :
  quiet l -> parse_fatal w (add_log w (l ++ [Print Stderr m])).
Proof. intros Q. exists l, m. split; [reflexivity | exact Q]. Qed.

(** [case 'p']: out of bounds or duplicate, or the slot is set. *)
Lemma set_pstate_step (a : args) (p v : Z) (d : cfloat) (w : world) :
  (exists w', (forall k, set_pstate a p v d k w = Exit 1 w') /\ parse_fatal w w')
  \/ (exists a' w',
        (forall k, set_pstate a p v d k w = k a' w')
        /\ parse_quiet w w'
        /\ (forall i, vidToSet a i <> 0 -> vidToSet a' i = vidToSet a i)
        /\ 0 <= p < 8 /\ vidToSet a p = 0 /\ vidToSet a' p = u64 v).
Proof.
  unfold set_pstate.
  destruct ((p <? 0) || (p >=? 8)) eqn:Hb.
  - left. exists (add_log w [Print Stderr (OutOfBounds p)]). split; [reflexivity |].
    apply (parse_fatal_add w [] _), quiet_nil.
  - apply orb_false_iff in Hb. destruct Hb as [Hb1 Hb2].
    apply Z.ltb_ge in Hb1. rewrite Z.geb_leb in Hb2. apply Z.leb_gt in Hb2.
    destruct (vidToSet a p =? 0) eqn:Hz; cbn [negb].
    + apply Z.eqb_eq in Hz. right.
      eexists _, (if verbose w
                  then add_log w [Print Stdout (VidToSet v (voltage v) d p)]
                  else w).
      split; [| split; [| split; [| split; [lia | split; [exact Hz |]]]]].
      * intros k. unfold bind, whenv, print, emit. destruct (verbose w); reflexivity.
      * destruct (verbose w); [apply parse_quiet_add, quiet_print | apply parse_quiet_refl].
      * intros i Hi. cbn [vidToSet]. unfold upd.
        destruct (Z.eqb_spec i p) as [-> | _]; [contradiction | reflexivity].
      * cbn [vidToSet]. unfold upd. rewrite Z.eqb_refl. reflexivity.
    + left. exists (add_log w [Print Stderr (Duplicate p)]). split; [reflexivity |].
      apply (parse_fatal_add w [] _), quiet_nil.
Qed.

(** One option either ends the run with status 1, or leaves a table in
    which the slots already set are unchanged and the slot it requests,
    which was unset, holds its identifier. *)
Lemma getopt_step (o : opt) (a : args) (w : world) :
  (exists w', (forall rest, getopt_loop (o :: rest) a w = Exit 1 w') /\ parse_fatal w w')
  \/ (exists a' w',
        (forall rest, getopt_loop (o :: rest) a w = getopt_loop rest a' w')
        /\ parse_quiet w w'
        /\ (forall i, vidToSet a i <> 0 -> vidToSet a' i = vidToSet a i)
        /\ (forall i v, request_of o = Some (i, v) ->
              0 <= i < 8 /\ vidToSet a i = 0 /\ vidToSet a' i = u64 v)).
Proof.
  destruct o as [| | | | optarg [n | p v | p v d] | [|] arg].
  - left. exists (add_log w [Print Stderr Usage]). split; [reflexivity |].
    apply (parse_fatal_add w [] Usage), quiet_nil.
  - right. eexists a, _. split; [reflexivity |].
    split; [exists []; cbn; rewrite app_nil_r; split; [reflexivity | apply quiet_nil] |].
    split; [reflexivity | discriminate].
  - right. eexists _, w. split; [reflexivity |].
    split; [apply parse_quiet_refl |]. split; [reflexivity | discriminate].
  - right. eexists _, w. split; [reflexivity |].
    split; [apply parse_quiet_refl |]. split; [reflexivity | discriminate].
  - left. exists (add_log w [Print Stderr (ParseError optarg)]). split; [reflexivity |].
    apply (parse_fatal_add w [] _), quiet_nil.
  - destruct (set_pstate_step a p v 0%Q w)
      as [(w' & Hk & Hf) | (a' & w' & Hk & Hq & Hkeep & Hp)].
    + left. exists w'. split; [intros rest; apply Hk | exact Hf].
    + right. exists a', w'. split; [intros rest; apply Hk |].
      split; [exact Hq |]. split; [exact Hkeep |].
      intros i v0 E. cbn in E. injection E as <- <-. exact Hp.
  - destruct (set_pstate_step a p v (scan_float d) w)
      as [(w' & Hk & Hf) | (a' & w' & Hk & Hq & Hkeep & Hp)].
    + left. exists w'. split; [intros rest; apply Hk | exact Hf].
    + right. exists a', w'. split; [intros rest; apply Hk |].
      split; [exact Hq |]. split; [exact Hkeep |].
      intros i v0 E. cbn in E. injection E as <- <-. exact Hp.
  - left.
    exists (add_log (add_log w [Print Stderr (InvalidArgument arg)]) [Print Stderr Usage]).
    split; [reflexivity |].
    apply (parse_quiet_fatal _ (add_log w [Print Stderr (InvalidArgument arg)])).
    + apply parse_quiet_add, quiet_print.
    + apply (parse_fatal_add _ [] Usage), quiet_nil.
  - left. exists (add_log w [Print Stderr Usage]). split; [reflexivity |].
    apply (parse_fatal_add w [] Usage), quiet_nil.
Qed.

(** The loop never leaves the behaviour undefined; when it exits, the
    status is 1 and a diagnostic was printed; when it returns, the slots
    that were set are unchanged. *)
Lemma getopt_loop_spec (argv : list opt) (a : args) (w : world) :
  match getopt_loop argv a w with
  | Ret a' w' => parse_quiet w w' /\ (forall i, vidToSet a i <> 0 -> vidToSet a' i = vidToSet a i)
  | Exit st w' => st = 1 /\ parse_fatal w w'
  | Undef _ => False
  end.
Proof.
  revert a w. induction argv as [| o rest IH]; intros a w.
  - cbn. split; [apply parse_quiet_refl | reflexivity].
  - destruct (getopt_step o a w) as [(w' & Hk & Hf) | (a' & w' & Hk & Hq & Hkeep & _)].
    + rewrite Hk. split; [reflexivity | exact Hf].
    + rewrite Hk. specialize (IH a' w').
      destruct (getopt_loop rest a' w') as [a'' w'' | st w'' | w''].
      * destruct IH as [Hq' Hkeep']. split; [eapply parse_quiet_trans; eassumption |].
        intros i Hi. rewrite Hkeep' by (rewrite Hkeep; assumption). apply Hkeep, Hi.
      * destruct IH as [-> Hf]. split; [reflexivity | eapply parse_quiet_fatal; eassumption].
      * exact IH.
Qed.

Lemma getopt_loop_app (l1 l2 : list opt) (a : args) (w : world) :
  getopt_loop (l1 ++ l2) a w = bind (getopt_loop l1 a) (getopt_loop l2) w.
Proof.
  revert a w. induction l1 as [| o l1 IH]; intros a w; [reflexivity |].
  cbn [app]. unfold bind in *.
  destruct (getopt_step o a w) as [(w' & Hk & _) | (a' & w' & Hk & _)].
  - rewrite !Hk. reflexivity.
  - rewrite !Hk. apply IH.
Qed.

(** A second request for a slot that is set ends the run. *)
Lemma getopt_duplicate (o : opt) (rest : list opt) (a : args) (w : world) (i v : Z) :
  request_of o = Some (i, v) -> 0 <= i < 8 -> vidToSet a i <> 0 ->
  getopt_loop (o :: rest) a w = Exit 1 (add_log w [Print Stderr (Duplicate i)]).
Proof.
  intros Hreq Hi Hset.
  assert (Hb : (i <? 0) || (i >=? 8) = false).
  { apply orb_false_iff. split; [apply Z.ltb_ge; lia |].
    rewrite Z.geb_leb. apply Z.leb_gt. lia. }
  assert (Hz : (vidToSet a i =? 0) = false) by (apply Z.eqb_neq; exact Hset).
  destruct o as [| | | | optarg [n | p v' | p v' d] | b arg]; try discriminate;
    cbn in Hreq; injection Hreq as -> ->;
    cbn [getopt_loop]; unfold set_pstate; rewrite Hb, Hz; reflexivity.
Qed.

Lemma u64_int_nonzero (v : Z) : is_int v -> v <> 0 -> u64 v <> 0.
Proof.
  unfold is_int, u64. intros Hv Hnz H.
  apply Z.mod_divide in H; [| lia]. destruct H as [k Hk].
  change (2 ^ 64) with 18446744073709551616 in Hk.
  change (2 ^ 31) with 2147483648 in Hv. lia.
Qed.

Lemma quiet_hw_writes (l : list event) : quiet l -> hw_writes l = [].
Proof.
  unfold quiet, hw_writes. induction 1 as [| e l He _ IH]; cbn; [reflexivity |].
  destruct e; try discriminate; exact IH.
Qed.

(** The table after [pre ++ o1 :: mid], when the loop returns, has the slot
    requested by [o1] set. *)
Lemma getopt_slot_set (pre mid : list opt) (o1 : opt) (i v1 : Z)
    (a0 a : args) (w0 w : world) :
  request_of o1 = Some (i, v1) -> is_int v1 -> v1 <> 0 ->
  getopt_loop (pre ++ o1 :: mid) a0 w0 = Ret a w ->
  0 <= i < 8 /\ vidToSet a i <> 0.
Proof.
  intros Hreq Hint Hnz Hrun.
  rewrite getopt_loop_app in Hrun. unfold bind in Hrun.
  destruct (getopt_loop pre a0 w0) as [ap wp | st wp | wp]; try discriminate.
  destruct (getopt_step o1 ap wp) as [(w' & Hk & _) | (a' & w' & Hk & _ & _ & Hp)].
  - rewrite Hk in Hrun. discriminate.
  - rewrite Hk in Hrun. destruct (Hp i v1 Hreq) as (Hi & _ & Hset).
    split; [exact Hi |].
    pose proof (getopt_loop_spec mid a' w') as Hspec. rewrite Hrun in Hspec.
    destruct Hspec as [_ Hkeep].
    assert (Hnz' : vidToSet a' i <> 0) by (rewrite Hset; apply u64_int_nonzero; assumption).
    rewrite (Hkeep i Hnz'). exact Hnz'.
Qed.

(** A first request with identifier 0 leaves the slot unset: the second
    request for P-state 1 is accepted and written to both cores. *)
Lemma duplicate_after_zero_counterexample :
  exists w,
    main (good_dev sample_regs) sample_cpuinfo
         [Opt_p "1:0" (Scan2 1 0); Opt_p "1:0x25" (Scan2 1 0x25)] initial_world
    = Exit 0 w
    /\ hw_writes (log w)
       = [SysWrite 0 0xC0010065 0x8000013000004AC0 8;
          SysWrite 1 0xC0010065 0x8000013000004AC0 8].
Proof. eexists. split; vm_compute; reflexivity. Qed.

(** C2 (amended). For every pair of [-p] requests for the same P-state
    index of which the first has a non-zero identifier, the run ends with
    status 1 and a diagnostic on [stderr], before any access to the device
    (no write is performed); when the options before the second request
    are all accepted, the diagnostic is the duplicate error for that
    index. *)
Theorem duplicate_edit_fatal (dev : msrdev) (cpuinfo : option (list cpuinfo_line))
    (pre mid post : list opt) (o1 o2 : opt) (i v1 v2 : Z) :
  request_of o1 = Some (i, v1) -> request_of o2 = Some (i, v2) ->
  is_int v1 -> v1 <> 0 ->
  exists w',
    main dev cpuinfo (pre ++ o1 :: mid ++ o2 :: post) initial_world = Exit 1 w'
    /\ hw_events (log w') = []
    /\ hw_writes (log w') = []
    /\ (exists m, In (Print Stderr m) (log w'))
    /\ (forall a w1,
          getopt_loop (pre ++ o1 :: mid) initial_args initial_world = Ret a w1 ->
          log w' = log w1 ++ [Print Stderr (Duplicate i)]).
Proof.
  intros Hreq1 Hreq2 Hint Hnz.
  assert (Hfatal : forall w', parse_fatal initial_world w' ->
            hw_events (log w') = [] /\ hw_writes (log w') = []
            /\ exists m, In (Print Stderr m) (log w')).
  { intros w' (l & m & E & Q). cbn [log initial_world app] in E. rewrite E.
    assert (Q' : quiet (l ++ [Print Stderr m])) by (apply quiet_app; [exact Q | apply quiet_print]).
    split; [apply quiet_hw_events, Q' |]. split; [apply quiet_hw_writes, Q' |].
    exists m. apply in_or_app. right. left. reflexivity. }
  replace (pre ++ o1 :: mid ++ o2 :: post) with ((pre ++ o1 :: mid) ++ o2 :: post)
    by (rewrite <- app_assoc; reflexivity).
  unfold main. unfold bind at 1. rewrite getopt_loop_app. unfold bind at 1.
  pose proof (getopt_loop_spec (pre ++ o1 :: mid) initial_args initial_world) as Hspec.
  destruct (getopt_loop (pre ++ o1 :: mid) initial_args initial_world)
    as [a w1 | st w1 | w1] eqn:Hrun.
  - destruct (getopt_slot_set _ _ _ _ _ _ _ _ _ Hreq1 Hint Hnz Hrun) as [Hi Hset].
    rewrite (getopt_duplicate o2 post a w1 i v2 Hreq2 Hi Hset).
    eexists. split; [reflexivity |].
    destruct Hspec as [Hq _].
    destruct (Hfatal (add_log w1 [Print Stderr (Duplicate i)])) as (H1 & H2 & H3).
    { apply (parse_quiet_fatal _ w1); [exact Hq |].
      apply (parse_fatal_add w1 [] _), quiet_nil. }
    repeat split; try assumption.
    intros a' w1' E. injection E as <- <-. reflexivity.
  - destruct Hspec as [-> Hf]. eexists. split; [reflexivity |].
    destruct (Hfatal w1 Hf) as (H1 & H2 & H3).
    repeat split; try assumption. intros a w E. discriminate.
  - contradiction.
Qed.

Lemma duplicate_edit_fatal_witness :
  exists w',
    main (good_dev sample_regs) sample_cpuinfo
         ([Opt_v] ++ Opt_p "1:0x20" (Scan2 1 0x20)
                  :: [Opt_r] ++ Opt_p "1:0x25,11.5" (Scan3 1 0x25 (115 # 10)) :: [Opt_c])
         initial_world = Exit 1 w'
    /\ hw_events (log w') = []
    /\ hw_writes (log w') = []
    /\ (exists m, In (Print Stderr m) (log w'))
    /\ (forall a w1,
          getopt_loop ([Opt_v] ++ Opt_p "1:0x20" (Scan2 1 0x20) :: [Opt_r])
                      initial_args initial_world = Ret a w1 ->
          log w' = log w1 ++ [Print Stderr (Duplicate 1)]).
Proof.
  apply (duplicate_edit_fatal (good_dev sample_regs) sample_cpuinfo
           [Opt_v] [Opt_r] [Opt_c]
           (Opt_p "1:0x20" (Scan2 1 0x20))
           (Opt_p "1:0x25,11.5" (Scan3 1 0x25 (115 # 10))) 1 0x20 0x25).
  - reflexivity.
  - reflexivity.
  - unfold is_int. lia.
  - lia.
Defined.

(** ** Loops *)

Lemma runs_for_each {S : Type} (body : Z -> S -> M S)
    (Inv : list Z -> S -> list event -> Prop) (idxs : list Z) (s0 : S) (w : world) :
  Inv [] s0 [] ->
  (forall done i s l,
      (exists rest, idxs = done ++ i :: rest) -> Inv done s l ->
      runs (body i s) (add_log w l) (fun s' l' => Inv (done ++ [i]) s' (l ++ l'))) ->
  runs (for_each body idxs s0) w (fun s l => Inv idxs s l).
Proof.
  intros H0 Hbody.
  assert (G : forall rest done s l,
             idxs = done ++ rest -> Inv done s l ->
             runs (for_each body rest s) (add_log w l) (fun s' l' => Inv idxs s' (l ++ l'))).
  { induction rest as [| i rest IH]; intros done s l E HI.
    - apply runs_ret. rewrite !app_nil_r in *. subst idxs. exact HI.
    - cbn [for_each]. apply runs_bind.
      apply (runs_weaken _ _ _ _ (Hbody done i s l (ex_intro _ rest E) HI)).
      intros s' l' HI'. rewrite add_log_app.
      apply (runs_weaken _ _ _ _ (IH (done ++ [i]) s' (l ++ l')
                                   ltac:(rewrite <- app_assoc; exact E) HI')).
      intros s'' l'' H. rewrite app_assoc. exact H. }
  specialize (G idxs [] s0 [] eq_refl H0). rewrite add_log_nil in G. exact G.
Qed.

(** ** The registers of [main] *)


Lemma aMSR_nonneg (i : Z) : 0 <= aMSR i.
Proof.
  unfold aMSR. generalize (Z.to_nat i) as n. intros n.
  do 8 (destruct n as [| n]; [cbn; lia |]).
  cbn. destruct n; lia.
Qed.

Lemma land_7 (x : Z) : Z.land x 0x07 = x mod 8.
Proof. change 0x07 with (Z.ones 3). rewrite Z.land_ones by lia. reflexivity. Qed.

Lemma s32_small (x : Z) : 0 <= x < 8 -> s32 x = x.
Proof.
  intros H. unfold s32. change (2 ^ 31) with 2147483648.
  change (2 ^ 32) with 4294967296. rewrite Z.mod_small by lia. lia.
Qed.

Lemma minPstateOf_bounds (v : Z) : 0 <= minPstateOf v <= 7.
Proof.
  unfold minPstateOf. rewrite land_7.
  pose proof (Z.mod_pos_bound v 8 ltac:(reflexivity)) as H.
  rewrite s32_small by exact H. lia.
Qed.

Lemma maxPstateOf_bounds (v : Z) : 0 <= maxPstateOf v <= 7.
Proof.
  unfold maxPstateOf.
  assert (E : Z.shiftr (Z.land v 0x70) 4 = Z.land (Z.shiftr v 4) 0x07).
  { rewrite Z.shiftr_land. reflexivity. }
  rewrite E, land_7.
  pose proof (Z.mod_pos_bound (Z.shiftr v 4) 8 ltac:(reflexivity)) as H.
  rewrite s32_small by exact H. lia.
Qed.

(** ** The word that the write loop builds *)

(** Settles an equation between boolean combinations of bits. *)
Ltac bits_cases :=
  cbn [andb orb negb];
  repeat match goal with
         | |- context [Z.testbit ?a ?b] => destruct (Z.testbit a b)
         | |- context [?a <? ?b] => destruct (a <? b)
         | |- context [?a <=? ?b] => destruct (a <=? b)
         end;
  cbn [andb orb negb]; reflexivity.

(** The Vid field after the encoder holds the low 7 bits of the
    identifier. *)
Lemma decode_encode_land (w id : Z) :
  is_u64 w ->
  decodeVoltageIdentifier (encodeVoltageIdentifier w id) = Z.land id 0x7F.
Proof.
  intros Hw. unfold decodeVoltageIdentifier.
  apply Z.bits_inj'. intros n Hn.
  rewrite !Z.land_spec, Z.shiftr_spec, encode_testbit, testbit_0x7F by (assumption || lia).
  replace (n + 9 - 9) with n by lia.
  destruct (Z.ltb_spec n 7) as [Hlt | Hge].
  - replace (9 <=? n + 9) with true by (symmetry; apply Z.leb_le; lia).
    replace (n + 9 <? 16) with true by (symmetry; apply Z.ltb_lt; lia).
    replace (n + 9 <? 64) with true by (symmetry; apply Z.ltb_lt; lia).
    bits_cases.
  - bits_cases.
Qed.

Lemma to_unsigned_bounds (x : Q) (t : Z) :
  to_unsigned x = Some t -> 0 <= t < 2 ^ 32.
Proof.
  unfold to_unsigned. intros H.
  destruct (Z.leb_spec 0 (trunc x)), (Z.ltb_spec (trunc x) (2 ^ 32));
    cbn [andb] in H; try discriminate H.
  injection H as <-. lia.
Qed.

(** The two fields that [divtomsr] computes fit an [unsigned]. *)
Lemma did_of_div_bounds (d : cfloat) (msd lsd : Z) :
  did_of_div d = Some (msd, lsd) -> 0 <= msd < 2 ^ 32 /\ 0 <= lsd < 2 ^ 32.
Proof.
  destruct d as [q | s]; [| discriminate].
  unfold did_of_div. intros Hd.
  destruct (to_unsigned (to_float (q - to_float (inject_Z 1)))) as [m |] eqn:E1;
    [| discriminate Hd].
  destruct (to_int q) as [k |]; [| discriminate Hd].
  destruct (to_unsigned
              (to_float (to_float (q - to_float (inject_Z k)) * to_float (inject_Z 4))))
    as [t |] eqn:E2; [| discriminate Hd].
  injection Hd as <- <-.
  split; [exact (to_unsigned_bounds _ _ E1) | exact (to_unsigned_bounds _ _ E2)].
Qed.

(** The encoder leaves bits 8..0 alone, and bits 16 and above when the
    identifier has 7 bits. *)
Lemma encode_low_bits (o vid n : Z) :
  is_u64 o -> 0 <= n < 9 ->
  Z.testbit (encodeVoltageIdentifier o vid) n = Z.testbit o n.
Proof.
  intros Ho Hn. rewrite encode_testbit by (assumption || lia).
  replace (9 <=? n) with false by (symmetry; apply Z.leb_gt; lia).
  bits_cases.
Qed.

Lemma encode_high_bits (o vid n : Z) :
  is_u64 o -> 0 <= vid <= 127 -> 16 <= n ->
  Z.testbit (encodeVoltageIdentifier o vid) n = Z.testbit o n.
Proof.
  intros Ho Hv Hn. rewrite encode_testbit by (assumption || lia).
  replace (n <? 16) with false by (symmetry; apply Z.ltb_ge; lia).
  rewrite (testbit_small vid 7 (n - 9)) by lia.
  bits_cases.
Qed.

(** The word that [divtomsr] builds from an encoded word, when the two
    computed fields fit theirs. *)
Lemma did_edit_word (o vid msd lsd : Z) :
  is_u64 o -> 0 <= msd < 32 -> 0 <= lsd < 16 ->
  let v := Z.lor (Z.lor (Z.land (encodeVoltageIdentifier o vid) (u64 (Z.lnot 0x1ff)))
                        (u32 (Z.shiftl msd 4))) lsd in
  decodeVoltageIdentifier v = Z.land vid 0x7F
  /\ DidMSD v = msd /\ DidLSD v = lsd
  /\ (0 <= vid <= 127 -> forall n, 16 <= n -> Z.testbit v n = Z.testbit o n).
Proof.
  intros Ho Hm Hl.
  set (e := encodeVoltageIdentifier o vid). intros v.
  assert (He : is_u64 e) by (apply encode_is_u64, Ho).
  assert (Hbit : forall n, 9 <= n -> Z.testbit v n = Z.testbit e n).
  { intros n Hn. unfold v. rewrite did_word_testbit by lia.
    rewrite (testbit_small lsd 4 n) by lia.
    rewrite (testbit_small msd 5 (n - 4)) by lia.
    replace (n <? 9) with false by (symmetry; apply Z.ltb_ge; lia).
    destruct (Z.ltb_spec n 64) as [H64 | H64].
    - bits_cases.
    - rewrite (testbit_is_u64_high e n He H64). bits_cases. }
  destruct (did_word_fields e msd lsd Hm Hl) as [Em El].
  fold v in Em, El.
  split.
  { transitivity (decodeVoltageIdentifier e).
    - unfold decodeVoltageIdentifier. apply Z.bits_inj'. intros n Hn.
      rewrite !Z.land_spec, !Z.shiftr_spec by lia. rewrite Hbit by lia. reflexivity.
    - apply decode_encode_land, Ho. }
  split; [exact Em |]. split; [exact El |].
  intros Hv n Hn. rewrite Hbit by lia. apply encode_high_bits; assumption.
Qed.

Lemma edited_word_plain (a : args) (i o : Z) :
  is_u64 o -> float_neq_zero (divToSet a i) = false ->
  edited_word a i o (encodeVoltageIdentifier o (vidToSet a i)).
Proof.
  intros Ho Hd. unfold edited_word. rewrite Hd.
  split; [reflexivity |]. split; [apply decode_encode_land, Ho |]. split.
  - intros n Hn. apply encode_low_bits; assumption.
  - intros Hv n Hn. apply encode_high_bits; assumption.
Qed.

Lemma edited_word_div (a : args) (i o msd lsd : Z) :
  is_u64 o -> float_neq_zero (divToSet a i) = true ->
  did_of_div (divToSet a i) = Some (msd, lsd) ->
  edited_word a i o
    (Z.lor (Z.lor (Z.land (encodeVoltageIdentifier o (vidToSet a i)) (u64 (Z.lnot 0x1ff)))
                  (u32 (Z.shiftl msd 4))) lsd).
Proof.
  intros Ho Hd Hdid. unfold edited_word. rewrite Hd.
  exists msd, lsd. split; [exact Hdid |]. split; [reflexivity |].
  intros Hm Hl.
  destruct (did_of_div_bounds _ _ _ Hdid) as [[Hm0 _] [Hl0 _]].
  apply did_edit_word; [exact Ho | lia | lia].
Qed.

(** ** The writes recorded in a log *)

Lemma write_targets_app (l1 l2 : list event) :
  write_targets (l1 ++ l2) = write_targets l1 ++ write_targets l2.
Proof. apply flat_map_app. Qed.

Lemma no_writes_targets (l : list event) : no_writes l -> write_targets l = [].
Proof.
  unfold write_targets. induction l as [| e l IH]; intros H; [reflexivity |].
  assert (Hl : no_writes l).
  { intros c m v k Hin. apply (H c m v k). right. exact Hin. }
  destruct e; cbn [flat_map app]; try (apply IH, Hl).
  exfalso. exact (H _ _ _ _ (or_introl eq_refl)).
Qed.

Lemma quiet_targets (l : list event) : quiet l -> write_targets l = [].
Proof. intros H. apply no_writes_targets, quiet_no_writes, H. Qed.

(** The write targets of a concatenation of pieces, each known to write
    nothing or known by its targets. *)
Ltac solve_targets :=
  rewrite ?write_targets_app;
  repeat match goal with
         | H : no_writes ?l |- context [write_targets ?l] =>
           rewrite (no_writes_targets l H)
         | H : quiet ?l |- context [write_targets ?l] =>
           rewrite (quiet_targets l H)
         | H : write_targets ?l = _ |- context [write_targets ?l] =>
           rewrite H
         end;
  cbn [write_targets flat_map app]; rewrite ?app_nil_r; try reflexivity.

(** Two facts about the same run hold of the same value and events. *)
Lemma runs_conj {A : Type} (m : M A) (w : world) (P Q : A -> list event -> Prop) :
  runs m w P -> runs m w Q -> runs m w (fun a l => P a l /\ Q a l).
Proof.
  intros (a & l & E & HP) (a' & l' & E' & HQ).
  rewrite E in E'. injection E' as Ea Ew.
  apply app_inv_head in Ew.
  subst a' l'. exists a, l. split; [exact E | split; assumption].
Qed.

(** On a device that works, [wrmsr] issues its write, and no other. *)
Lemma wrmsr_ok_targets (dev : msrdev) (cpu msr val : Z) (w : world) :
  dev_ok dev -> 0 <= msr ->
  runs (wrmsr dev cpu msr val) w (fun _ l => write_targets l = [(cpu, msr)]).
Proof.
  intros Hok Hmsr. destruct Hok as [Hopen Hseek Hread Hwrite Hclose].
  assert (Hfd : forall f, (lowest_free (List.length f) 0 f <? 0) = false).
  { intros f. apply Z.ltb_ge, lowest_free_nonneg. lia. }
  assert (Hm : (msr <? 0) = false) by (apply Z.ltb_ge; exact Hmsr).
  unfold runs, wrmsr, bind, whenv, print, perror, emit, ret,
    sys_open, sys_lseek, sys_write, sys_close.
  destruct w as [vb n f lg].
  destruct vb; cbn [verbose ncpu fds log add_log];
    rewrite Hopen; cbn [verbose ncpu fds log add_log];
    rewrite Hfd, Hseek, Hm, Hwrite;
    change (8 <? 8) with false;
    cbn [verbose ncpu fds log add_log];
    rewrite Hclose; change (negb (0 =? 0)) with false;
    cbn [verbose ncpu fds log add_log];
    rewrite remove_fd_head, <- !app_assoc; cbn [app];
    (eexists _, _; split; [reflexivity |]);
    reflexivity.
Qed.

Lemma wrmsr_ok_exact (dev : msrdev) (cpu msr val : Z) (w : world) :
  dev_ok dev -> 0 <= msr ->
  runs (wrmsr dev cpu msr val) w
       (fun r l => (r = 0
                    /\ In (SysWrite cpu msr val 8) l
                    /\ writes_only (eq msr) l)
                   /\ write_targets l = [(cpu, msr)]).
Proof.
  intros Hok Hmsr.
  exact (runs_conj _ _ _ _ (wrmsr_ok dev cpu msr val w Hok Hmsr)
                   (wrmsr_ok_targets dev cpu msr val w Hok Hmsr)).
Qed.

(** ** The bodies of the loops of [main], on a device that works *)

Lemma no_writes_print (s : stream) (m : msg) : no_writes [Print s m].
Proof. apply quiet_no_writes, quiet_print. Qed.

#[local] Hint Resolve no_writes_nil no_writes_app no_writes_print quiet_no_writes : runs.

(** Writes of a concatenation of pieces, each known to write nothing or to
    write as required. *)
Ltac solve_writes :=
  repeat apply writes_only_app;
  first [ assumption | solve [apply no_writes_only; auto with runs] ].

Lemma check_pstate_runs (a : args) (maxPstate minPstate i : Z) (w : world) :
  runs (check_pstate a maxPstate minPstate i tt) w
       (fun _ l => quiet l
                   /\ (vidToSet a i <> 0 -> ~ (minPstate <= i <= maxPstate) ->
                       In (Print Stderr (NotValid i)) l)).
Proof.
  unfold check_pstate.
  destruct (vidToSet a i =? 0) eqn:Hz; cbn [negb andb].
  - apply Z.eqb_eq in Hz. apply runs_ret. split; [apply quiet_nil | contradiction].
  - destruct ((maxPstate <? i) || (i <? minPstate)) eqn:Hr.
    + apply runs_print. split; [apply quiet_print | intros _ _; left; reflexivity].
    + apply orb_false_iff in Hr. destruct Hr as [H1 H2].
      apply Z.ltb_ge in H1, H2.
      apply runs_ret. split; [apply quiet_nil | intros _ Hout; lia].
Qed.

Section OnGoodDevice.

Variable dev : msrdev.
Hypothesis Hok : dev_ok dev.

Lemma read_pstate_runs (i : Z) (l0 : locals) (w : world) :
  runs (read_pstate dev i l0) w (fun _ l => no_writes l).
Proof.
  unfold read_pstate. apply runs_bind.
  apply (runs_weaken _ _ _ _ (rdmsr_ok dev 0 (aMSR i) _ w Hok (aMSR_nonneg i))).
  intros [rc o] l1 (Hrc & _ & _ & Hnw). cbn [fst snd] in *. subst rc.
  change (negb (0 =? 0)) with false. cbv iota.
  apply runs_bind.
  apply (runs_weaken _ _ _ _ (msrtodiv_runs o _)).
  intros d l2 [_ Hq]. apply runs_bind, runs_print, runs_ret.
  auto 10 with runs.
Qed.

(** One iteration of the [-c] loop reads the status word of the core and
    prints a line whose P-state is [currentPstate] of that word. *)
Lemma current_core_reports (i : Z) (l0 : locals) (w : world) :
  runs (current_core dev i l0) w
       (fun _ l =>
          no_writes l
          /\ exists h d,
               let v := u64 (snd (dev_read dev h i 0xC0010071)) in
               In (SysRead i 0xC0010071 8 v) l
               /\ In (Print Stdout
                        (CurrentState i (currentPstate v) (decodeVoltageIdentifier v)
                                      (voltage (s64 (decodeVoltageIdentifier v))) d)) l).
Proof.
  unfold current_core. apply runs_bind.
  apply (runs_weaken _ _ _ _ (rdmsr_ok dev i 0xC0010071 _ w Hok ltac:(lia))).
  intros [rc o] l1 (Hrc & (h & Ho) & Hrd & Hnw). cbn [fst snd] in *. subst rc.
  change (negb (0 =? 0)) with false. cbv iota.
  apply runs_bind.
  apply (runs_weaken _ _ _ _ (msrtodiv_runs o _)).
  intros d l2 [_ Hq]. apply runs_bind, runs_print, runs_ret.
  split; [auto 10 with runs |].
  exists h, d. cbv zeta. rewrite <- Ho. rewrite !in_app_iff. cbn [In]. tauto.
Qed.

Lemma current_core_runs (i : Z) (l0 : locals) (w : world) :
  runs (current_core dev i l0) w (fun _ l => no_writes l).
Proof.
  apply (runs_weaken _ _ _ _ (current_core_reports i l0 w)).
  intros s l [H _]. exact H.
Qed.

Lemma edit_written_app_l (a : args) (i j : Z) (l l' : list event) :
  edit_written a i j l -> edit_written a i j (l ++ l').
Proof.
  intros (o & v & Ho & H1 & H2 & H3). exists o, v.
  split; [exact Ho |]. split; [apply in_or_app; left; exact H1 |].
  split; [apply in_or_app; left; exact H2 | exact H3].
Qed.

Lemma edit_written_app_r (a : args) (i j : Z) (l l' : list event) :
  edit_written a i j l' -> edit_written a i j (l ++ l').
Proof.
  intros (o & v & Ho & H1 & H2 & H3). exists o, v.
  split; [exact Ho |]. split; [apply in_or_app; right; exact H1 |].
  split; [apply in_or_app; right; exact H2 | exact H3].
Qed.

(** One iteration of the write loop on a core: the register is read and
    written with the word built from the word read, and nothing else is
    written. *)
Lemma write_core_runs (a : args) (i j : Z) (l0 : locals) (w : world) :
  (float_neq_zero (divToSet a i) = true -> did_of_div (divToSet a i) <> None) ->
  runs (write_core dev a i j l0) w
       (fun _ l => edit_written a i j l
                   /\ writes_only (eq (aMSR i)) l
                   /\ write_targets l = [(j, aMSR i)]).
Proof.
  intros Hdef. unfold write_core. apply runs_bind.
  apply (runs_weaken _ _ _ _ (rdmsr_ok dev j (aMSR i) _ w Hok (aMSR_nonneg i))).
  intros [rc o] l1 (Hrc & (h & Ho) & Hrd & Hnw1). cbn [fst snd] in *. subst rc.
  assert (Hu : is_u64 o).
  { rewrite Ho. unfold is_u64, u64. apply Z.mod_pos_bound. reflexivity. }
  clear h Ho.
  change (negb (0 =? 0)) with false. cbv iota.
  apply runs_bind, runs_print, runs_bind.
  destruct (float_neq_zero (divToSet a i)) eqn:Hd.
  - specialize (Hdef eq_refl).
    destruct (did_of_div (divToSet a i)) as [[msd lsd] |] eqn:Hdid; [| contradiction].
    apply runs_bind.
    apply (runs_weaken _ _ _ _ (msrtodiv_runs o _)).
    intros d l2 [_ Hq2]. apply runs_print, runs_bind, runs_print, runs_bind, runs_bind, runs_print.
    apply (runs_weaken _ _ _ _ (divtomsr_runs _ _ _ _ _ Hdid)).
    intros v l3 [-> Hq3].
    apply runs_bind.
    apply (runs_weaken _ _ _ _ (wrmsr_ok_exact dev j (aMSR i) _ _ Hok (aMSR_nonneg i))).
    intros rc l4 ((-> & Hwr & Hw4) & Ht4).
    change (negb (0 =? 0)) with false. cbv iota. apply runs_ret.
    split; [| split].
    + match type of Hwr with In (SysWrite _ _ ?x _) _ => exists o, x end.
      split; [exact Hu |].
      split; [rewrite !in_app_iff; tauto |].
      split; [rewrite !in_app_iff; tauto |].
      apply edited_word_div; assumption.
    + solve_writes.
    + solve_targets.
  - apply runs_ret, runs_bind, runs_print, runs_bind, runs_bind, runs_print, runs_ret.
    apply runs_bind.
    apply (runs_weaken _ _ _ _ (wrmsr_ok_exact dev j (aMSR i) _ _ Hok (aMSR_nonneg i))).
    intros rc l2 ((-> & Hwr & Hw2) & Ht2).
    change (negb (0 =? 0)) with false. cbv iota. apply runs_ret.
    split; [| split].
    + exists o, (encodeVoltageIdentifier o (vidToSet a i)). split; [exact Hu |].
      split; [rewrite !in_app_iff; tauto |].
      split; [rewrite !in_app_iff; tauto |].
      apply edited_word_plain; assumption.
    + solve_writes.
    + solve_targets.
Qed.

Lemma write_pstate_runs (a : args) (i : Z) (l0 : locals) (w : world) :
  (vidToSet a i <> 0 -> float_neq_zero (divToSet a i) = true ->
   did_of_div (divToSet a i) <> None) ->
  runs (write_pstate dev a i l0) w
       (fun _ l =>
          (vidToSet a i <> 0 -> forall j, 0 <= j < ncpu w -> edit_written a i j l)
          /\ writes_only (fun m => vidToSet a i <> 0 /\ m = aMSR i) l
          /\ write_targets l = pstate_targets a (ncpu w) i).
Proof.
  intros Hdef. unfold write_pstate, pstate_targets.
  destruct (vidToSet a i =? 0) eqn:Hz; cbn [negb].
  - apply Z.eqb_eq in Hz. apply runs_ret.
    split; [contradiction |]. split; [apply no_writes_only, no_writes_nil | reflexivity].
  - apply Z.eqb_neq in Hz. apply runs_bind, runs_get_ncpu.
    rewrite add_log_nil.
    pose (Inv := fun (done : list Z) (_ : locals) (l : list event) =>
                   (forall j, In j done -> edit_written a i j l)
                   /\ writes_only (eq (aMSR i)) l
                   /\ write_targets l = map (fun j => (j, aMSR i)) done).
    assert (H0 : Inv [] l0 []).
    { split; [intros j [] |]. split; [apply no_writes_only, no_writes_nil | reflexivity]. }
    assert (Hbody : forall done j s l,
               (exists rest, range 0 (ncpu w) = done ++ j :: rest) -> Inv done s l ->
               runs (write_core dev a i j s) (add_log w l)
                    (fun s' l' => Inv (done ++ [j]) s' (l ++ l'))).
    { intros done j s l _ (Hin & Hw & Ht).
      apply (runs_weaken _ _ _ _ (write_core_runs a i j s _ (Hdef Hz))).
      intros s' l' (He & Hw' & Ht'). split; [| split].
      - intros j' Hj'. apply in_app_or in Hj'. destruct Hj' as [Hj' | [<- | []]].
        + apply edit_written_app_l, Hin, Hj'.
        + apply edit_written_app_r, He.
      - apply writes_only_app; assumption.
      - rewrite write_targets_app, Ht, Ht', map_app. reflexivity. }
    apply (runs_weaken _ _ _ _ (runs_for_each _ Inv _ l0 w H0 Hbody)).
    intros s l (Hin & Hw & Ht). cbn [app]. split; [| split].
    + intros _ j Hj. apply Hin, in_range, Hj.
    + apply (writes_only_weaken _ _ _ Hw). intros m <-. split; [exact Hz | reflexivity].
    + exact Ht.
Qed.

(** The write loop over the P-states [lo .. hi - 1]. *)
Lemma write_loop_runs (a : args) (lo hi : Z) (l0 : locals) (w : world) :
  (forall i, lo <= i < hi -> vidToSet a i <> 0 ->
     float_neq_zero (divToSet a i) = true -> did_of_div (divToSet a i) <> None) ->
  runs (for_each (write_pstate dev a) (range lo hi) l0) w
       (fun _ l =>
          (forall i, lo <= i < hi -> vidToSet a i <> 0 ->
             forall j, 0 <= j < ncpu w -> edit_written a i j l)
          /\ writes_only (fun m => exists i, lo <= i < hi /\ vidToSet a i <> 0 /\ m = aMSR i) l
          /\ write_targets l = flat_map (pstate_targets a (ncpu w)) (range lo hi)).
Proof.
  intros Hdef.
  pose (Inv := fun (done : list Z) (_ : locals) (l : list event) =>
                 (forall i, In i done -> vidToSet a i <> 0 ->
                    forall j, 0 <= j < ncpu w -> edit_written a i j l)
                 /\ writes_only (fun m => exists i, In i done /\ vidToSet a i <> 0
                                                     /\ m = aMSR i) l
                 /\ write_targets l = flat_map (pstate_targets a (ncpu w)) done).
  assert (H0 : Inv [] l0 []).
  { split; [intros i [] |]. split; [apply no_writes_only, no_writes_nil | reflexivity]. }
  assert (Hbody : forall done i s l,
             (exists rest, range lo hi = done ++ i :: rest) -> Inv done s l ->
             runs (write_pstate dev a i s) (add_log w l)
                  (fun s' l' => Inv (done ++ [i]) s' (l ++ l'))).
  { intros done i s l [rest E] (Hin & Hw & Ht).
    assert (Hi : lo <= i < hi).
    { apply range_in. rewrite E. apply in_elt. }
    apply (runs_weaken _ _ _ _ (write_pstate_runs a i s _ (Hdef i Hi))).
    cbn [ncpu add_log].
    intros s' l' (He & Hw' & Ht'). split; [| split].
    - intros i' Hi' Hp j Hj. apply in_app_or in Hi'. destruct Hi' as [Hi' | [<- | []]].
      + apply edit_written_app_l. exact (Hin i' Hi' Hp j Hj).
      + apply edit_written_app_r. exact (He Hp j Hj).
    - apply writes_only_app.
      + apply (writes_only_weaken _ _ _ Hw). intros m (i' & Hi' & Hp & ->).
        exists i'. split; [apply in_or_app; left; exact Hi' | split; [exact Hp | reflexivity]].
      + apply (writes_only_weaken _ _ _ Hw'). intros m [Hp ->].
        exists i. split; [apply in_or_app; right; left; reflexivity |].
        split; [exact Hp | reflexivity].
    - rewrite write_targets_app, Ht, Ht', flat_map_app. cbn [flat_map].
      rewrite app_nil_r. reflexivity. }
  apply (runs_weaken _ _ _ _ (runs_for_each _ Inv _ l0 w H0 Hbody)).
  intros s l (Hin & Hw & Ht). split; [| split].
  - intros i Hi. apply Hin, in_range, Hi.
  - apply (writes_only_weaken _ _ _ Hw). intros m (i & Hi & Hp & ->).
    exists i. split; [apply range_in, Hi | split; [exact Hp | reflexivity]].
  - exact Ht.
Qed.

(** The loops that only read or print. *)
Lemma check_loop_runs (a : args) (maxPstate minPstate : Z) (w : world) :
  runs (for_each (check_pstate a maxPstate minPstate) (range 0 8) tt) w
       (fun _ l => quiet l
                   /\ (forall i, 0 <= i < 8 -> vidToSet a i <> 0 ->
                         ~ (minPstate <= i <= maxPstate) ->
                         In (Print Stderr (NotValid i)) l)).
Proof.
  pose (Inv := fun (done : list Z) (_ : unit) (l : list event) =>
                 quiet l
                 /\ (forall i, In i done -> vidToSet a i <> 0 ->
                       ~ (minPstate <= i <= maxPstate) ->
                       In (Print Stderr (NotValid i)) l)).
  assert (H0 : Inv [] tt []) by (split; [apply quiet_nil | intros i []]).
  assert (Hbody : forall done i s l,
             (exists rest, range 0 8 = done ++ i :: rest) -> Inv done s l ->
             runs (check_pstate a maxPstate minPstate i s) (add_log w l)
                  (fun s' l' => Inv (done ++ [i]) s' (l ++ l'))).
  { intros done i [] l _ [Hq Hin].
    apply (runs_weaken _ _ _ _ (check_pstate_runs a maxPstate minPstate i _)).
    intros [] l' [Hq' Hin']. split; [apply quiet_app; assumption |].
    intros i' Hi' Hp Hout. apply in_or_app.
    apply in_app_or in Hi'. destruct Hi' as [Hi' | [<- | []]].
    - left. exact (Hin i' Hi' Hp Hout).
    - right. exact (Hin' Hp Hout). }
  apply (runs_weaken _ _ _ _ (runs_for_each _ Inv _ tt w H0 Hbody)).
  intros [] l [Hq Hin]. split; [exact Hq |].
  intros i Hi. apply Hin, in_range, Hi.
Qed.

Lemma quiet_loop_runs (body : Z -> locals -> M locals) (idxs : list Z)
    (l0 : locals) (w : world) :
  (forall i s w', runs (body i s) w' (fun _ l => no_writes l)) ->
  runs (for_each body idxs l0) w (fun _ l => no_writes l).
Proof.
  intros Hb.
  pose (Inv := fun (_ : list Z) (_ : locals) (l : list event) => no_writes l).
  assert (Hbody : forall done i s l,
             (exists rest, idxs = done ++ i :: rest) -> Inv done s l ->
             runs (body i s) (add_log w l)
                  (fun s' l' => Inv (done ++ [i]) s' (l ++ l'))).
  { intros done i s l _ Hl. apply (runs_weaken _ _ _ _ (Hb i s _)).
    intros s' l' Hl'. apply no_writes_app; assumption. }
  exact (runs_for_each _ Inv _ l0 w no_writes_nil Hbody).
Qed.

Lemma exits_exit {A : Type} (st : Z) (w : world) (Post : list event -> Prop) :
  Post [] -> exits (@exit A st) w st Post.
Proof. intros H. exists []. rewrite add_log_nil. split; [reflexivity | exact H]. Qed.

Lemma exits_bind {A B : Type} (m : M A) (k : A -> M B) (w : world) (st : Z)
    (Post : list event -> Prop) :
  runs m w (fun a l => exits (k a) (add_log w l) st (fun l' => Post (l ++ l'))) ->
  exits (bind m k) w st Post.
Proof.
  intros (a & l & Hm & l' & Hk & HP).
  exists (l ++ l'). unfold bind. rewrite Hm, Hk, add_log_app.
  split; [reflexivity | exact HP].
Qed.

(** What [main] does after [cpuIdCheck], when the status register reads
    as [st] and the divisors to set are in the range of the conversions. *)
Lemma apply_args_exits (a : args) (w : world) (st : Z) :
  (forall h, snd (dev_read dev h 0 0xC0010061) = st) ->
  (forall i, minPstateOf (u64 st) <= i <= maxPstateOf (u64 st) -> vidToSet a i <> 0 ->
     float_neq_zero (divToSet a i) = true -> did_of_div (divToSet a i) <> None) ->
  exits (apply_args dev a) w 0
        (fun l =>
           In (SysRead 0 0xC0010061 8 (u64 st)) l
           /\ (forall i, 0 <= i < 8 -> vidToSet a i <> 0 ->
                 ~ (minPstateOf (u64 st) <= i <= maxPstateOf (u64 st)) ->
                 In (Print Stderr (NotValid i)) l)
           /\ (forall i, minPstateOf (u64 st) <= i <= maxPstateOf (u64 st) ->
                 vidToSet a i <> 0 ->
                 forall j, 0 <= j < ncpu w -> edit_written a i j l)
           /\ writes_only (fun m => exists i,
                               minPstateOf (u64 st) <= i <= maxPstateOf (u64 st)
                               /\ vidToSet a i <> 0 /\ m = aMSR i) l
           /\ write_targets l
              = flat_map (pstate_targets a (ncpu w))
                         (range (minPstateOf (u64 st)) (maxPstateOf (u64 st) + 1))).
Proof.
  intros Hst Hdef. unfold apply_args.
  apply exits_bind.
  apply (runs_weaken _ _ _ _ (rdmsr_ok dev 0 0xC0010061 0 w Hok ltac:(lia))).
  intros [rc v] l1 (Hrc & (h & Hv) & Hrd & Hnw1). cbn [fst snd] in *. subst rc.
  rewrite Hst in Hv. subst v.
  change (negb (0 =? 0)) with false. cbv iota.
  set (minP := minPstateOf (u64 st)) in *. set (maxP := maxPstateOf (u64 st)) in *.
  apply exits_bind.
  assert (Hbeware : forall w',
             runs (if negb (minP =? 0) then whenv (print Stdout Beware) else ret tt) w'
                  (fun _ l => quiet l)).
  { intros w'. destruct (negb (minP =? 0)).
    - apply runs_whenv; [apply quiet_nil | apply runs_print, quiet_print].
    - apply runs_ret, quiet_nil. }
  apply (runs_weaken _ _ _ _ (Hbeware _)). intros _ l2 Hq2.
  apply exits_bind.
  apply (runs_weaken _ _ _ _ (check_loop_runs a maxP minP _)). intros _ l3 [Hq3 Hnv].
  apply exits_bind.
  assert (Hread : forall w',
             runs (if read a
                   then bind (print Stdout TableHeader)
                          (fun _ => for_each (read_pstate dev) (range minP (maxP + 1))
                                      {| val := u64 st; oMSR := fun _ => 0 |})
                   else ret {| val := u64 st; oMSR := fun _ => 0 |}) w'
                  (fun _ l => no_writes l)).
  { intros w'. destruct (read a).
    - apply runs_bind, runs_print.
      apply (runs_weaken _ _ _ _ (quiet_loop_runs _ _ _ _ read_pstate_runs)).
      intros _ l Hl. apply no_writes_app; [apply no_writes_print | exact Hl].
    - apply runs_ret, no_writes_nil. }
  apply (runs_weaken _ _ _ _ (Hread _)). intros s4 l4 Hnw4.
  apply exits_bind.
  assert (Hdef' : forall i, minP <= i < maxP + 1 -> vidToSet a i <> 0 ->
             float_neq_zero (divToSet a i) = true -> did_of_div (divToSet a i) <> None).
  { intros i Hi. apply Hdef. lia. }
  apply (runs_weaken _ _ _ _ (write_loop_runs a minP (maxP + 1) s4 _ Hdef')).
  cbn [ncpu add_log].
  intros s5 l5 (Hwr & Hw5 & Ht5).
  apply exits_bind.
  assert (Hcur : forall w',
             runs (if current a
                   then bind get_ncpu (fun n => for_each (current_core dev) (range 0 n) s5)
                   else ret s5) w'
                  (fun _ l => no_writes l)).
  { intros w'. destruct (current a).
    - apply runs_bind, runs_get_ncpu.
      apply (runs_weaken _ _ _ _ (quiet_loop_runs _ _ _ _ current_core_runs)).
      intros _ l Hl. exact Hl.
    - apply runs_ret, no_writes_nil. }
  apply (runs_weaken _ _ _ _ (Hcur _)). intros s6 l6 Hnw6.
  apply exits_exit.
  split; [rewrite !in_app_iff; tauto |].
  split; [intros i Hi Hp Hout; specialize (Hnv i Hi Hp Hout); rewrite !in_app_iff; tauto |].
  split; [| split].
  - intros i Hi Hp j Hj.
    apply edit_written_app_r, edit_written_app_r, edit_written_app_r, edit_written_app_r,
      edit_written_app_l.
    apply (Hwr i ltac:(lia) Hp j). exact Hj.
  - repeat apply writes_only_app;
      try solve [apply no_writes_only; auto with runs].
    apply (writes_only_weaken _ _ _ Hw5). intros m (i & Hi & Hp & ->).
    exists i. split; [lia | split; [exact Hp | reflexivity]].
  - solve_targets.
Qed.

End OnGoodDevice.

(** [cpuIdCheck] does not touch the device. *)
Lemma cpuinfo_loop_quiet (lines : list cpuinfo_line) (vc fc : bool) (w : world) :
  parse_quiet w (final_world (cpuinfo_loop lines vc fc w)).
Proof.
  revert vc fc w. induction lines as [| line rest IH]; intros vc fc w.
  - apply parse_quiet_refl.
  - assert (Hnext : forall vc' fc' w',
               parse_quiet w w' ->
               parse_quiet w (final_world
                 (bind get_ncpu (fun n =>
                    if vc' && fc' && negb (n =? 0) then ret 0
                    else cpuinfo_loop rest vc' fc') w'))).
    { intros vc' fc' w' Hq. unfold bind, get_ncpu.
      destruct (vc' && fc' && negb (ncpu w' =? 0)); [exact Hq |].
      eapply parse_quiet_trans; [exact Hq | apply IH]. }
    assert (Hv : forall (m : msg) vc' fc',
               parse_quiet w (final_world
                 (bind (whenv (print Stdout m)) (fun _ =>
                    bind get_ncpu (fun n =>
                      if vc' && fc' && negb (n =? 0) then ret 0
                      else cpuinfo_loop rest vc' fc')) w))).
    { intros m vc' fc'. unfold bind at 1. unfold whenv, print, emit.
      destruct (verbose w); apply Hnext;
        [apply parse_quiet_add, quiet_print | apply parse_quiet_refl]. }
    destruct line as [[s |] | f | m | n |]; cbn [cpuinfo_loop].
    + destruct (negb (String.prefix "AuthenticAMD" s)).
      * apply (parse_quiet_add w [_]), quiet_print.
      * apply Hv.
    + apply parse_quiet_refl.
    + destruct (scan_fails f _).
      * apply (parse_quiet_add w [_]), quiet_print.
      * apply Hv.
    + destruct (scan_fails m _).
      * apply (parse_quiet_add w [_]), quiet_print.
      * apply Hv.
    + unfold bind at 1.
      assert (Hset : exists w1, (match n with Some n' => set_ncpu n' | None => ret tt end) w
                                = Ret tt w1 /\ log w1 = log w /\ verbose w1 = verbose w).
      { destruct n; eexists; (split; [reflexivity | split; reflexivity]). }
      destruct Hset as (w1 & -> & Hlog & Hverb).
      unfold bind at 1. unfold get_ncpu at 1.
      assert (Hq1 : parse_quiet w w1).
      { exists []. rewrite app_nil_r. split; [exact Hlog | apply quiet_nil]. }
      destruct (scan_fails n _ || (ncpu w1 =? 0)).
      * apply (parse_quiet_trans _ w1); [exact Hq1 |].
        apply (parse_quiet_add w1 [Print Stderr CoresError]), quiet_print.
      * unfold bind at 1. unfold whenv, print, emit.
        destruct (verbose w1).
        -- apply Hnext. apply (parse_quiet_trans _ w1); [exact Hq1 |].
           apply parse_quiet_add, quiet_print.
        -- apply Hnext. exact Hq1.
    + apply Hnext, parse_quiet_refl.
Qed.

(** [cpuIdCheck] on a file that opens, from the scan of its lines. *)
Lemma cpuIdCheck_some (lines : list cpuinfo_line) (w : world) :
  cpuIdCheck (Some lines) w
  = match cpuinfo_loop lines false false
            (with_fds w (lowest_free (List.length (fds w)) 0 (fds w) :: fds w)) with
    | Ret r w1 =>
      if r =? 0
      then Ret 0 (with_fds w1 (remove_fd (lowest_free (List.length (fds w)) 0 (fds w))
                                         (fds w1)))
      else Ret r w1
    | Exit st w1 => Exit st w1
    | Undef w1 => Undef w1
    end.
Proof.
  unfold cpuIdCheck, bind, fopen.
  destruct (cpuinfo_loop lines false false _) as [r w1 | st w1 | w1]; try reflexivity.
  destruct (r =? 0); reflexivity.
Qed.

Lemma cpuIdCheck_quiet (cpuinfo : option (list cpuinfo_line)) (w : world) :
  parse_quiet w (final_world (cpuIdCheck cpuinfo w)).
Proof.
  destruct cpuinfo as [lines |].
  - rewrite cpuIdCheck_some.
    pose proof (cpuinfo_loop_quiet lines false false
                  (with_fds w (lowest_free (List.length (fds w)) 0 (fds w) :: fds w)))
      as Hq.
    destruct (cpuinfo_loop lines false false _) as [r w1 | st w1 | w1];
      [destruct (r =? 0) |..]; exact Hq.
  - exists [Perror "Opening /proc/cpuinfo"]. split; [reflexivity | repeat constructor].
Qed.

(** ** [main] on a device that works *)


(** Once the options are accepted and [cpuIdCheck] has returned, whatever
    it returned, [main] goes on to the registers and exits with status 0. *)
Lemma main_on_good_device (dev : msrdev) (cpuinfo : option (list cpuinfo_line))
    (argv : list opt) (st : Z) (a : args) (w1 : world) (r : Z) (w2 : world) :
  dev_ok dev ->
  (forall h, snd (dev_read dev h 0 0xC0010061) = st) ->
  getopt_loop argv initial_args initial_world = Ret a w1 ->
  cpuIdCheck cpuinfo w1 = Ret r w2 ->
  (forall i, minPstateOf (u64 st) <= i <= maxPstateOf (u64 st) -> vidToSet a i <> 0 ->
     float_neq_zero (divToSet a i) = true -> did_of_div (divToSet a i) <> None) ->
  exists lq l,
    main dev cpuinfo argv initial_world = Exit 0 (add_log w2 l)
    /\ log w2 = lq /\ quiet lq
    /\ In (SysRead 0 0xC0010061 8 (u64 st)) l
    /\ (forall i, 0 <= i < 8 -> vidToSet a i <> 0 ->
          ~ (minPstateOf (u64 st) <= i <= maxPstateOf (u64 st)) ->
          In (Print Stderr (NotValid i)) l)
    /\ (forall i, minPstateOf (u64 st) <= i <= maxPstateOf (u64 st) ->
          vidToSet a i <> 0 ->
          forall j, 0 <= j < ncpu w2 -> edit_written a i j l)
    /\ writes_only (fun m => exists i,
                        minPstateOf (u64 st) <= i <= maxPstateOf (u64 st)
                        /\ vidToSet a i <> 0 /\ m = aMSR i) l
    /\ write_targets l
       = flat_map (pstate_targets a (ncpu w2))
                  (range (minPstateOf (u64 st)) (maxPstateOf (u64 st) + 1)).
Proof.
  intros Hok Hst Hopt Hcpu Hdef.
  destruct (apply_args_exits dev Hok a w2 st Hst Hdef) as (l & Hrun & Hpost).
  exists (log w2), l.
  split.
  { unfold main, bind. rewrite Hopt, Hcpu. exact Hrun. }
  split; [reflexivity |]. split; [| exact Hpost].
  pose proof (getopt_loop_spec argv initial_args initial_world) as H1.
  rewrite Hopt in H1. destruct H1 as [H1 _].
  pose proof (cpuIdCheck_quiet cpuinfo w1) as H2. rewrite Hcpu in H2. cbn [final_world] in H2.
  destruct (parse_quiet_trans _ _ _ H1 H2) as (lq & E & Hq).
  cbn [log initial_world app] in E. rewrite E. exact Hq.
Qed.

(** The divisors of the whole table being convertible, so are those of
    the P-states in the range. *)
Lemma divisors_defined_in_range (a : args) (st : Z) :
  divisors_defined a ->
  forall i, minPstateOf (u64 st) <= i <= maxPstateOf (u64 st) -> vidToSet a i <> 0 ->
    float_neq_zero (divToSet a i) = true -> did_of_div (divToSet a i) <> None.
Proof.
  intros Hdef i Hi. apply Hdef.
  pose proof (minPstateOf_bounds (u64 st)). pose proof (maxPstateOf_bounds (u64 st)). lia.
Qed.

Lemma good_dev_ok (regs : Z -> Z -> Z) : dev_ok (good_dev regs).
Proof. constructor; intros; reflexivity. Qed.



Lemma sample_args_divisors : divisors_defined sample_args.
Proof.
  intros i Hi Hp Hd.
  assert (H : i = 0 \/ i = 1 \/ i = 2 \/ i = 3 \/ i = 4 \/ i = 5 \/ i = 6 \/ i = 7) by lia.
  clear Hi Hp.
  repeat (destruct H as [-> | H];
          [first [ vm_compute in Hd; discriminate Hd
                 | clear Hd; vm_compute; intros E; discriminate E ] |]).
  subst i. vm_compute in Hd. discriminate Hd.
Qed.


(** C1 (what the code does). When [cpuIdCheck] gives the fail verdict (it
    returns 1 for an unsupported vendor, family or model), [main] does not
    look at it: on a device that works it reads the status register and
    exits with status 0. *)
Theorem fail_verdict_not_fatal (dev : msrdev) (cpuinfo : option (list cpuinfo_line))
    (argv : list opt) (st : Z) (a : args) (w1 w2 : world) :
  dev_ok dev ->
  (forall h, snd (dev_read dev h 0 0xC0010061) = st) ->
  getopt_loop argv initial_args initial_world = Ret a w1 ->
  cpuIdCheck cpuinfo w1 = Ret 1 w2 ->
  divisors_defined a ->
  exists w',
    main dev cpuinfo argv initial_world = Exit 0 w'
    /\ In (SysRead 0 0xC0010061 8 (u64 st)) (log w')
    /\ hw_events (log w') <> [].
Proof.
  intros Hok Hst Hopt Hcpu Hdef.
  destruct (main_on_good_device dev cpuinfo argv st a w1 1 w2 Hok Hst Hopt Hcpu
              (divisors_defined_in_range a st Hdef))
    as (lq & l & Hrun & _ & _ & Hrd & _).
  exists (add_log w2 l). split; [exact Hrun |].
  assert (Hin : In (SysRead 0 0xC0010061 8 (u64 st)) (log (add_log w2 l))).
  { cbn [log add_log]. apply in_or_app. right. exact Hrd. }
  split; [exact Hin |].
  intros E. unfold hw_events in E.
  assert (Hf : In (SysRead 0 0xC0010061 8 (u64 st)) (filter is_hw (log (add_log w2 l)))).
  { apply filter_In. split; [exact Hin | reflexivity]. }
  rewrite E in Hf. exact Hf.
Qed.

Lemma fail_verdict_not_fatal_witness :
  exists w',
    main (good_dev sample_regs) intel_cpuinfo sample_argv initial_world = Exit 0 w'
    /\ In (SysRead 0 0xC0010061 8 (u64 0x20)) (log w')
    /\ hw_events (log w') <> [].
Proof.
  apply (fail_verdict_not_fatal (good_dev sample_regs) intel_cpuinfo sample_argv
           0x20 sample_args initial_world
           {| verbose := false; ncpu := 0; fds := [3; 0; 1; 2];
              log := [Print Stderr (VendorUnsupported "GenuineIntel")] |}).
  - apply good_dev_ok.
  - intros h. reflexivity.
  - reflexivity.
  - reflexivity.
  - apply sample_args_divisors.
Defined.

(** ** The report of [-c] *)

(** C10. For every 64-bit status word read by the per-core report of [-c],
    the current P-state index printed is bits 17..16 of the word, hence
    always in [0,3]; a hardware P-state of 4..7 (the field of bits 18..16)
    is printed reduced modulo 4. *)
Theorem current_pstate_two_bits (dev : msrdev) (word i : Z) (l0 : locals) (w : world) :
  dev_ok dev -> is_u64 word ->
  (forall h, snd (dev_read dev h i 0xC0010071) = word) ->
  exists l0' l vid volt d,
    current_core dev i l0 w = Ret l0' (add_log w l)
    /\ In (SysRead i 0xC0010071 8 word) l
    /\ In (Print Stdout (CurrentState i (currentPstate word) vid volt d)) l
    /\ currentPstate word = (word / 2 ^ 16) mod 4
    /\ 0 <= currentPstate word <= 3
    /\ currentPstate word = Z.land (Z.shiftr word 16) 0x07 mod 4.
Proof.
  intros Hok Hword Hrd.
  destruct (current_core_reports dev Hok i l0 w) as (l0' & l & Hrun & _ & h & d & H1 & H2).
  rewrite Hrd in H1, H2.
  assert (E : u64 word = word) by (apply Z.mod_small; exact Hword).
  rewrite E in H1, H2.
  destruct (currentPstate_bits word) as (B1 & B2 & B3 & _).
  exists l0', l, (decodeVoltageIdentifier word),
    (voltage (s64 (decodeVoltageIdentifier word))), d.
  repeat split; assumption || apply B2.
Qed.

Lemma current_pstate_two_bits_witness :
  exists l0' l vid volt d,
    current_core (good_dev sample_regs) 1 {| val := 0; oMSR := fun _ => 0 |} initial_world
    = Ret l0' (add_log initial_world l)
    /\ In (SysRead 1 0xC0010071 8 0x520A2) l
    /\ In (Print Stdout (CurrentState 1 (currentPstate 0x520A2) vid volt d)) l
    /\ currentPstate 0x520A2 = (0x520A2 / 2 ^ 16) mod 4
    /\ 0 <= currentPstate 0x520A2 <= 3
    /\ currentPstate 0x520A2 = Z.land (Z.shiftr 0x520A2 16) 0x07 mod 4.
Proof.
  apply (current_pstate_two_bits (good_dev sample_regs) 0x520A2 1
           {| val := 0; oMSR := fun _ => 0 |} initial_world).
  - apply good_dev_ok.
  - unfold is_u64. lia.
  - intros h. reflexivity.
Defined.

(** * Part III: further properties of the code *)

(** ** The Vid encoder on every identifier *)

(** X1. Whatever [vidToSet[i]] holds, the Vid field of the word that
    [main] builds is [vidToSet[i] & 0x7F], bits 8..0 are those of the word
    read, and each bit from 16 to 63 is the bit of the word read or-ed
    with bit [n - 9] of the identifier: the part of an identifier above
    its low 7 bits is or-ed into the word above the field. *)
Theorem vid_encode_bits (w id : Z) :
  is_u64 w ->
  decodeVoltageIdentifier (encodeVoltageIdentifier w id) = Z.land id 0x7F
  /\ (forall n, 0 <= n < 9 ->
        Z.testbit (encodeVoltageIdentifier w id) n = Z.testbit w n)
  /\ (forall n, 16 <= n < 64 ->
        Z.testbit (encodeVoltageIdentifier w id) n
        = Z.testbit w n || Z.testbit id (n - 9))
  /\ is_u64 (encodeVoltageIdentifier w id).
Proof.
  intros Hw. repeat split.
  - apply decode_encode_land, Hw.
  - intros n Hn.
    rewrite encode_testbit by (assumption || lia).
    replace (9 <=? n) with false by (symmetry; apply Z.leb_gt; lia).
    bits_cases.
  - intros n Hn.
    rewrite encode_testbit by (assumption || lia).
    replace (n <? 16) with false by (symmetry; apply Z.ltb_ge; lia).
    replace (n <? 64) with true by (symmetry; apply Z.ltb_lt; lia).
    replace (9 <=? n) with true by (symmetry; apply Z.leb_le; lia).
    bits_cases.
  - apply encode_is_u64, Hw.
  - apply encode_is_u64, Hw.
Qed.

Lemma vid_encode_bits_witness :
  decodeVoltageIdentifier (encodeVoltageIdentifier 0x1CC0 0x1A3) = Z.land 0x1A3 0x7F
  /\ (forall n, 0 <= n < 9 ->
        Z.testbit (encodeVoltageIdentifier 0x1CC0 0x1A3) n = Z.testbit 0x1CC0 n)
  /\ (forall n, 16 <= n < 64 ->
        Z.testbit (encodeVoltageIdentifier 0x1CC0 0x1A3) n
        = Z.testbit 0x1CC0 n || Z.testbit 0x1A3 (n - 9))
  /\ is_u64 (encodeVoltageIdentifier 0x1CC0 0x1A3).
Proof.
  apply (vid_encode_bits 0x1CC0 0x1A3).
  unfold is_u64. change (2 ^ 64) with 18446744073709551616. lia.
Defined.

(** X2. Encoding into a word the identifier that the word already holds
    gives the word back, and of two successive encodings of identifiers
    in [0,127] only the second one shows: the result is that of encoding
    the second identifier alone. *)
Theorem vid_encode_idempotent (w a b : Z) :
  is_u64 w -> 0 <= a <= 127 ->
  encodeVoltageIdentifier w (decodeVoltageIdentifier w) = w
  /\ encodeVoltageIdentifier (encodeVoltageIdentifier w a) b
     = encodeVoltageIdentifier w b.
Proof.
  intros Hw Ha. split.
  - apply Z.bits_inj'. intros n Hn.
    rewrite encode_testbit by (assumption || lia).
    unfold decodeVoltageIdentifier.
    destruct (Z.leb_spec 9 n) as [H9 | H9]; cbn [andb orb negb].
    + rewrite Z.land_spec, Z.shiftr_spec, testbit_0x7F by lia.
      replace (n - 9 + 9) with n by lia.
      destruct (Z.ltb_spec n 16) as [H16 | H16]; cbn [andb orb negb].
      * replace (n - 9 <? 7) with true by (symmetry; apply Z.ltb_lt; lia).
        replace (n <? 64) with true by (symmetry; apply Z.ltb_lt; lia).
        bits_cases.
      * replace (n - 9 <? 7) with false by (symmetry; apply Z.ltb_ge; lia).
        bits_cases.
    + bits_cases.
  - apply Z.bits_inj'. intros n Hn.
    pose proof (encode_is_u64 w a Hw) as Hwa.
    rewrite !encode_testbit by (assumption || lia).
    destruct (Z.leb_spec 9 n) as [H9 | H9]; cbn [andb orb negb].
    + destruct (Z.ltb_spec n 16) as [H16 | H16]; cbn [andb orb negb].
      * bits_cases.
      * replace (Z.testbit a (n - 9)) with false.
        { bits_cases. }
        symmetry. rewrite <- (Z.mod_small a (2 ^ 7)) by lia.
        apply Z.mod_pow2_bits_high; lia.
    + bits_cases.
Qed.

Lemma vid_encode_idempotent_witness :
  encodeVoltageIdentifier 0x1CC0 (decodeVoltageIdentifier 0x1CC0) = 0x1CC0
  /\ encodeVoltageIdentifier (encodeVoltageIdentifier 0x1CC0 0x20) 0x30
     = encodeVoltageIdentifier 0x1CC0 0x30.
Proof.
  apply (vid_encode_idempotent 0x1CC0 0x20 0x30).
  - unfold is_u64. change (2 ^ 64) with 18446744073709551616. lia.
  - lia.
Defined.

(** ** [voltage]: sign and order *)

(** The value of [voltage] outside the identifiers that read as 0, between
    two rationals. *)
Lemma voltage_enclosure (id : Z) :
  (0x7C <=? id) && (id <=? 0x7F) = false ->
  (voltage_formula id - (1 # 2 ^ 53) * (3 + Qabs (inject_Z id) * (1 # 16))
   <= voltage id
   <= voltage_formula id + (1 # 2 ^ 53) * (3 + Qabs (inject_Z id) * (1 # 16)))%Q.
Proof.
  intros Hr.
  assert (E : voltage id
              = to_double (to_double (1550 # 1000)
                           - to_double (to_double (125 # 10000)
                                        * to_double (inject_Z id)))).
  { unfold voltage.
    replace ((id <=? 0x7F) && (id >=? 0x7C)) with false; [reflexivity |].
    rewrite Z.geb_leb, andb_comm. symmetry. exact Hr. }
  pose proof (voltage_accuracy id) as H. rewrite <- E in H.
  apply Qabs_Qle_condition in H. destruct H as [H1 H2].
  split; lra.
Qed.

Lemma voltage_window (id : Z) :
  (0x7C <=? id) && (id <=? 0x7F) = true -> voltage id = 0%Q.
Proof.
  intros Hr. apply andb_true_iff in Hr. destruct Hr as [H1 H2].
  unfold voltage.
  replace (id <=? 0x7F) with true by (symmetry; exact H2).
  replace (id >=? 0x7C) with true by (symmetry; rewrite Z.geb_leb; exact H1).
  reflexivity.
Qed.

(** The enclosure with the absolute value resolved. *)
Lemma voltage_enclosure_cases (id : Z) :
  (0x7C <=? id) && (id <=? 0x7F) = false ->
  exists a : Q,
    (0 <= a /\ inject_Z id <= a /\ - inject_Z id <= a
     /\ (a == inject_Z id \/ a == - inject_Z id)
     /\ (1550 # 1000) - (125 # 10000) * inject_Z id
        - (1 # 9007199254740992) * (3 + a * (1 # 16))
        <= voltage id
     /\ voltage id
        <= (1550 # 1000) - (125 # 10000) * inject_Z id
           + (1 # 9007199254740992) * (3 + a * (1 # 16)))%Q.
Proof.
  intros Hr. pose proof (voltage_enclosure id Hr) as [H1 H2].
  unfold voltage_formula in H1, H2.
  change (1 # 2 ^ 53)%Q with (1 # 9007199254740992)%Q in H1, H2.
  exists (Qabs (inject_Z id)).
  split; [apply Qabs_nonneg |]. split; [apply Qle_Qabs |].
  split; [rewrite <- Qabs_opp; apply Qle_Qabs |].
  split; [| split; assumption].
  destruct (Qlt_le_dec (inject_Z id) 0) as [Hn | Hp].
  - right. apply Qabs_neg. apply Qlt_le_weak, Hn.
  - left. apply Qabs_pos, Hp.
Qed.

(** X3. [voltage] is positive for every identifier up to 0x7B and negative
    for every identifier from 0x80 on; over the identifiers that fit an
    [int] it never increases with the identifier, and it decreases
    strictly from one identifier to the next except inside the range
    0x7C..0x7F, where it is 0. *)
Theorem voltage_decreasing (id : Z) :
  - 2 ^ 31 <= id < 2 ^ 31 ->
  (id <= 0x7B -> (0 < voltage id)%Q)
  /\ (0x80 <= id -> (voltage id < 0)%Q)
  /\ (voltage (id + 1) <= voltage id)%Q
  /\ (~ 0x7C <= id <= 0x7E -> (voltage (id + 1) < voltage id)%Q).
Proof.
  intros Hid. change (2 ^ 31) with 2147483648 in Hid.
  assert (Hpos : forall k, k <= 0x7B -> (0 < voltage k)%Q).
  { intros k Hk.
    destruct (voltage_enclosure_cases k) as (a & Ha0 & Ha1 & Ha2 & Ha & Hlo & _).
    { apply andb_false_iff. left. apply Z.leb_gt. lia. }
    assert (Hb : (inject_Z k <= 123)%Q).
    { change 123%Q with (inject_Z 123). rewrite <- Zle_Qle. exact Hk. }
    destruct Ha as [Ha | Ha]; rewrite Ha in Hlo; lra. }
  assert (Hneg : forall k, 0x80 <= k -> (voltage k < 0)%Q).
  { intros k Hk.
    destruct (voltage_enclosure_cases k) as (a & Ha0 & Ha1 & Ha2 & Ha & _ & Hhi).
    { apply andb_false_iff. right. apply Z.leb_gt. lia. }
    assert (Hb : (128 <= inject_Z k)%Q).
    { change 128%Q with (inject_Z 128). rewrite <- Zle_Qle. exact Hk. }
    destruct Ha as [Ha | Ha]; rewrite Ha in Hhi; lra. }
  assert (Hstep : forall k, - 2147483648 <= k < 2147483648 ->
            k < 0x7B \/ 0x7F < k -> (voltage (k + 1) < voltage k)%Q).
  { intros k Hk Hout.
    destruct (voltage_enclosure_cases k) as (a & Ha0 & Ha1 & Ha2 & Ha & Hlo & _).
    { apply andb_false_iff. destruct Hout; [left | right]; apply Z.leb_gt; lia. }
    destruct (voltage_enclosure_cases (k + 1)) as (b & Hb0 & Hb1 & Hb2 & Hb & _ & Hhi).
    { apply andb_false_iff. destruct Hout; [left | right]; apply Z.leb_gt; lia. }
    rewrite inject_Z_plus in Hb1, Hb2, Hb, Hhi.
    change (inject_Z 1) with 1%Q in Hb1, Hb2, Hb, Hhi.
    assert (Hu : (inject_Z k <= 2147483648)%Q).
    { change 2147483648%Q with (inject_Z 2147483648). rewrite <- Zle_Qle. lia. }
    assert (Hl : (- (2147483648) <= inject_Z k)%Q).
    { change (- (2147483648))%Q with (inject_Z (- 2147483648)). rewrite <- Zle_Qle. lia. }
    assert (Hb' : (b <= 2147483649)%Q) by (destruct Hb as [Hb | Hb]; rewrite Hb; lra).
    assert (Ha' : (a <= 2147483649)%Q) by (destruct Ha as [Ha | Ha]; rewrite Ha; lra).
    clear Ha Hb. lra. }
  split; [apply Hpos |]. split; [apply Hneg |].
  assert (Hcases : id < 0x7B \/ id = 0x7B \/ 0x7C <= id <= 0x7E \/ id = 0x7F \/ 0x7F < id)
    by lia.
  split.
  - destruct Hcases as [H | [H | [H | [H | H]]]].
    + apply Qlt_le_weak, Hstep; [exact Hid | left; exact H].
    + subst id. rewrite (voltage_window (0x7B + 1)) by reflexivity.
      apply Qlt_le_weak, Hpos. lia.
    + rewrite (voltage_window id), (voltage_window (id + 1)).
      * apply Qle_refl.
      * apply andb_true_iff. split; apply Z.leb_le; lia.
      * apply andb_true_iff. split; apply Z.leb_le; lia.
    + subst id. rewrite (voltage_window 0x7F) by reflexivity.
      apply Qlt_le_weak, Hneg. lia.
    + apply Qlt_le_weak, Hstep; [exact Hid | right; exact H].
  - intros Hout.
    destruct Hcases as [H | [H | [H | [H | H]]]].
    + apply Hstep; [exact Hid | left; exact H].
    + subst id. rewrite (voltage_window (0x7B + 1)) by reflexivity.
      apply Hpos. lia.
    + contradiction.
    + subst id. rewrite (voltage_window 0x7F) by reflexivity.
      apply Hneg. lia.
    + apply Hstep; [exact Hid | right; exact H].
Qed.

Lemma voltage_decreasing_witness :
  (0x28 <= 0x7B -> (0 < voltage 0x28)%Q)
  /\ (0x80 <= 0x28 -> (voltage 0x28 < 0)%Q)
  /\ (voltage (0x28 + 1) <= voltage 0x28)%Q
  /\ (~ 0x7C <= 0x28 <= 0x7E -> (voltage (0x28 + 1) < voltage 0x28)%Q).
Proof.
  apply (voltage_decreasing 0x28).
  change (2 ^ 31) with 2147483648. lia.
Defined.

(** ** The divisor: warnings, the other round trip, truncation *)

(** X4. [msrtodiv] never rejects a word: it returns the divisor of the two
    sub-fields whatever they hold, a value from 1 to 35.75; on the way
    [checkdid] prints on [stdout] only, the warning on DidMSD exactly when
    the field exceeds 0x19 and the warning on DidLSD exactly when the
    field exceeds 3, and without [-v] nothing else. *)
Theorem msrtodiv_warns (val : Z) (w : world) :
  exists q l,
    msrtodiv val w = Ret q (add_log w l)
    /\ (1 <= q <= 3575 # 100)%Q
    /\ (forall e, In e l -> exists m, e = Print Stdout m)
    /\ (forall m, In (Print Stdout (StrangeMSD m)) l <-> m = DidMSD val /\ 0x19 < m)
    /\ (forall s, In (Print Stdout (StrangeLSD s)) l <-> s = DidLSD val /\ 3 < s)
    /\ (verbose w = false -> DidMSD val <= 0x19 -> DidLSD val <= 3 -> l = []).
Proof.
  pose proof (div_of_fields_value (DidMSD val) (DidLSD val)
                (DidMSD_bounds val) (DidLSD_bounds val)) as Hq.
  assert (Hrange : (1 <= div_of_fields (DidMSD val) (DidLSD val) <= 3575 # 100)%Q).
  { rewrite Hq.
    pose proof (DidMSD_bounds val) as [Hm0 Hm1]. pose proof (DidLSD_bounds val) as [Hl0 Hl1].
    assert (H1 : (0 <= inject_Z (DidMSD val))%Q)
      by (change 0%Q with (inject_Z 0); rewrite <- Zle_Qle; exact Hm0).
    assert (H2 : (inject_Z (DidMSD val) <= 31)%Q)
      by (change 31%Q with (inject_Z 31); rewrite <- Zle_Qle; lia).
    assert (H3 : (0 <= inject_Z (DidLSD val))%Q)
      by (change 0%Q with (inject_Z 0); rewrite <- Zle_Qle; exact Hl0).
    assert (H4 : (inject_Z (DidLSD val) <= 15)%Q)
      by (change 15%Q with (inject_Z 15); rewrite <- Zle_Qle; lia).
    split; lra. }
  unfold msrtodiv. rewrite didmsd_of_msr, didlsd_of_msr.
  set (msd := DidMSD val) in *. set (lsd := DidLSD val) in *.
  exists (div_of_fields msd lsd).
  exists ((if verbose w then [Print Stdout (DidTrace msd lsd)] else [])
          ++ (if 0x19 <? msd then [Print Stdout (StrangeMSD msd)] else [])
          ++ (if 3 <? lsd then [Print Stdout (StrangeLSD lsd)] else [])).
  split.
  { unfold checkdid, bind, whenv, print, emit, ret, add_log.
    destruct w as [v n f lg]. cbn [verbose ncpu fds log].
    destruct v, (0x19 <? msd), (3 <? lsd); cbn [verbose ncpu fds log app];
      rewrite <- ?app_assoc, ?app_nil_r; reflexivity. }
  split; [exact Hrange |].
  set (A := if verbose w then [Print Stdout (DidTrace msd lsd)] else []).
  assert (HA : forall e, In e A -> e = Print Stdout (DidTrace msd lsd)).
  { unfold A. intros e He. destruct (verbose w); cbn [In] in He; intuition. }
  repeat split.
  - intros e He. rewrite !in_app_iff in He.
    destruct He as [He | [He | He]].
    + apply HA in He. eexists; exact He.
    + destruct (0x19 <? msd); cbn [In] in He; [| contradiction].
      destruct He as [<- | []]. eexists; reflexivity.
    + destruct (3 <? lsd); cbn [In] in He; [| contradiction].
      destruct He as [<- | []]. eexists; reflexivity.
  - rewrite !in_app_iff in H.
    destruct H as [H | [H | H]].
    + apply HA in H. discriminate H.
    + destruct (0x19 <? msd); cbn [In] in H; [| contradiction].
      destruct H as [H | []]. injection H as <-. reflexivity.
    + destruct (3 <? lsd); cbn [In] in H; [| contradiction].
      destruct H as [H | []]. discriminate H.
  - rewrite !in_app_iff in H.
    destruct H as [H | [H | H]].
    + apply HA in H. discriminate H.
    + destruct (Z.ltb_spec 0x19 msd); cbn [In] in H; [| contradiction].
      destruct H as [H | []]. injection H as <-. assumption.
    + destruct (3 <? lsd); cbn [In] in H; [| contradiction].
      destruct H as [H | []]. discriminate H.
  - intros [-> Hm]. rewrite !in_app_iff. right. left.
    replace (0x19 <? msd) with true by (symmetry; apply Z.ltb_lt; exact Hm).
    left. reflexivity.
  - rewrite !in_app_iff in H.
    destruct H as [H | [H | H]].
    + apply HA in H. discriminate H.
    + destruct (0x19 <? msd); cbn [In] in H; [| contradiction].
      destruct H as [H | []]. discriminate H.
    + destruct (3 <? lsd); cbn [In] in H; [| contradiction].
      destruct H as [H | []]. injection H as <-. reflexivity.
  - rewrite !in_app_iff in H.
    destruct H as [H | [H | H]].
    + apply HA in H. discriminate H.
    + destruct (0x19 <? msd); cbn [In] in H; [| contradiction].
      destruct H as [H | []]. discriminate H.
    + destruct (Z.ltb_spec 3 lsd); cbn [In] in H; [| contradiction].
      destruct H as [H | []]. injection H as <-. assumption.
  - intros [-> Hs]. rewrite !in_app_iff. right. right.
    replace (3 <? lsd) with true by (symmetry; apply Z.ltb_lt; exact Hs).
    left. reflexivity.
  - intros Hv Hm Hs. unfold A. rewrite Hv.
    replace (0x19 <? msd) with false by (symmetry; apply Z.ltb_ge; lia).
    replace (3 <? lsd) with false by (symmetry; apply Z.ltb_ge; lia).
    reflexivity.
Qed.

Lemma testbit_DidMSD (val k : Z) :
  0 <= k -> Z.testbit (DidMSD val) k = (k <? 5) && Z.testbit val (k + 4).
Proof.
  intros Hk. unfold DidMSD.
  destruct (Z.ltb_spec k 5); cbn [andb].
  - rewrite Z.mod_pow2_bits_low by lia. apply Z.div_pow2_bits; lia.
  - apply Z.mod_pow2_bits_high; lia.
Qed.

Lemma testbit_DidLSD (val k : Z) :
  0 <= k -> Z.testbit (DidLSD val) k = (k <? 4) && Z.testbit val k.
Proof.
  intros Hk. unfold DidLSD.
  destruct (Z.ltb_spec k 4); cbn [andb].
  - apply Z.mod_pow2_bits_low; lia.
  - apply Z.mod_pow2_bits_high; lia.
Qed.

Lemma did_of_div_fields_all :
  forallb (fun msd =>
    forallb (fun lsd =>
      match did_of_div (div_of_fields msd lsd) with
      | Some (msd', lsd') => (msd' =? msd + lsd / 4) && (lsd' =? lsd mod 4)
      | None => false
      end)
      (range 0 16))
    (range 0 32) = true.
Proof. vm_compute. reflexivity. Qed.

(** On the divisor of two fields, [divtomsr] computes the fields with the
    quarters above 3 carried into DidMSD. *)
Lemma did_of_div_fields (msd lsd : Z) :
  0 <= msd < 32 -> 0 <= lsd < 16 ->
  did_of_div (div_of_fields msd lsd) = Some (msd + lsd / 4, lsd mod 4).
Proof.
  intros Hm Hl.
  pose proof (forallb_range _ _ _ did_of_div_fields_all msd Hm) as H.
  cbv beta in H.
  pose proof (forallb_range _ _ _ H lsd Hl) as H2.
  cbv beta in H2.
  destruct (did_of_div (div_of_fields msd lsd)) as [[msd' lsd'] |]; [| discriminate].
  apply andb_true_iff in H2. destruct H2 as [H1 H2].
  apply Z.eqb_eq in H1, H2. subst. reflexivity.
Qed.

(** X5. The round trip from the register: for every 64-bit word,
    [divtomsr] applied to the divisor that [msrtodiv] reads from the word
    computes the fields [DidMSD + DidLSD / 4] and [DidLSD mod 4]; when
    DidLSD is at most 3 it stores the word itself. *)
Theorem divisor_decode_encode (word : Z) (w : world) :
  is_u64 word ->
  exists q w1 msr w2,
    msrtodiv word w = Ret q w1
    /\ did_of_div q = Some (DidMSD word + DidLSD word / 4, DidLSD word mod 4)
    /\ divtomsr q word w1 = Ret msr w2
    /\ (DidLSD word <= 3 -> msr = word).
Proof.
  intros Hw.
  destruct (msrtodiv_runs word w) as (q & l1 & Hrun1 & Hq & _).
  pose proof (did_of_div_fields _ _ (DidMSD_bounds word) (DidLSD_bounds word)) as Hd.
  rewrite <- Hq in Hd.
  destruct (divtomsr_runs q word _ _ (add_log w l1) Hd) as (msr & l2 & Hrun2 & Hmsr & _).
  exists q, (add_log w l1), msr, (add_log (add_log w l1) l2).
  split; [exact Hrun1 |]. split; [exact Hd |]. split; [exact Hrun2 |].
  intros Hl. pose proof (DidLSD_bounds word) as Hb.
  rewrite Z.div_small, Z.mod_small, Z.add_0_r in Hmsr by lia.
  subst msr. apply Z.bits_inj'. intros n Hn.
  rewrite did_word_testbit by exact Hn.
  rewrite testbit_DidLSD by exact Hn.
  destruct (Z.leb_spec 4 n) as [H4 | H4].
  - rewrite testbit_DidMSD by lia. replace (n - 4 + 4) with n by lia.
    destruct (Z.ltb_spec n 9) as [H9 | H9].
    + replace (n - 4 <? 5) with true by (symmetry; apply Z.ltb_lt; lia).
      replace (n <? 32) with true by (symmetry; apply Z.ltb_lt; lia).
      replace (n <? 4) with false by (symmetry; apply Z.ltb_ge; lia).
      bits_cases.
    + replace (n - 4 <? 5) with false by (symmetry; apply Z.ltb_ge; lia).
      replace (n <? 4) with false by (symmetry; apply Z.ltb_ge; lia).
      destruct (Z.ltb_spec n 64) as [H64 | H64].
      * bits_cases.
      * rewrite (testbit_is_u64_high word n Hw H64). bits_cases.
  - replace (n <? 4) with true by (symmetry; apply Z.ltb_lt; lia).
    replace (n <? 9) with true by (symmetry; apply Z.ltb_lt; lia).
    bits_cases.
Qed.

Lemma divisor_decode_encode_witness :
  exists q w1 msr w2,
    msrtodiv 0x8000013000001CA2 initial_world = Ret q w1
    /\ did_of_div q
       = Some (DidMSD 0x8000013000001CA2 + DidLSD 0x8000013000001CA2 / 4,
               DidLSD 0x8000013000001CA2 mod 4)
    /\ divtomsr q 0x8000013000001CA2 w1 = Ret msr w2
    /\ (DidLSD 0x8000013000001CA2 <= 3 -> msr = 0x8000013000001CA2).
Proof.
  apply (divisor_decode_encode 0x8000013000001CA2 initial_world).
  unfold is_u64. change (2 ^ 64) with 18446744073709551616. lia.
Defined.

Lemma did_of_div_sixteenths_all :
  forallb (fun n =>
    forallb (fun s =>
      ((n =? 0) && (s =? 0))
      || match did_of_div (inject_Z n + inject_Z s * (1 # 16))%Q with
         | Some (msd, lsd) => (msd =? Z.max n 1 - 1) && (lsd =? s / 4)
         | None => false
         end)
      (range 0 16))
    (range 0 33) = true.
Proof. vm_compute. reflexivity. Qed.

(** X6. [divtomsr] truncates: for every 64-bit word and every divisor
    [n + s/16] with [0 <= n <= 32] and [0 <= s <= 15], other than 0, the
    divisor read back from the word that [divtomsr] stores is
    [n + (s/4 rounded down)/4]; and for [n = 0], a divisor below 1, it is
    [1 + (s/4 rounded down)/4]. *)
Theorem divtomsr_truncates (word n s : Z) (w : world) :
  is_u64 word -> 0 <= n <= 32 -> 0 <= s <= 15 -> 0 < n + s ->
  exists msr w1 q w2,
    divtomsr (inject_Z n + inject_Z s * (1 # 16))%Q word w = Ret msr w1
    /\ msrtodiv msr w1 = Ret q w2
    /\ (q == quarters (Z.max n 1) (s / 4))%Q.
Proof.
  intros Hw Hn Hs Hpos.
  assert (Hd : did_of_div (inject_Z n + inject_Z s * (1 # 16))%Q
               = Some (Z.max n 1 - 1, s / 4)).
  { pose proof (forallb_range _ _ _ did_of_div_sixteenths_all n ltac:(lia)) as H.
    cbv beta in H.
    pose proof (forallb_range _ _ _ H s ltac:(lia)) as H2.
    cbv beta in H2.
    apply orb_true_iff in H2. destruct H2 as [H2 | H2].
    - apply andb_true_iff in H2. destruct H2 as [H1 H2].
      apply Z.eqb_eq in H1, H2. lia.
    - destruct (did_of_div (inject_Z n + inject_Z s * (1 # 16))%Q) as [[msd lsd] |];
        [| discriminate].
      apply andb_true_iff in H2. destruct H2 as [H1 H2].
      apply Z.eqb_eq in H1, H2. subst. reflexivity. }
  assert (Hs4 : 0 <= s / 4 < 4).
  { split; [apply Z.div_pos; lia | apply Z.div_lt_upper_bound; lia]. }
  destruct (divtomsr_runs _ word _ _ w Hd) as (msr & l1 & Hrun1 & Hmsr & _).
  destruct (msrtodiv_runs msr (add_log w l1)) as (q & l2 & Hrun2 & Hq & _).
  exists msr, (add_log w l1), q, (add_log (add_log w l1) l2).
  split; [exact Hrun1 |]. split; [exact Hrun2 |].
  destruct (did_word_fields word (Z.max n 1 - 1) (s / 4) ltac:(lia) ltac:(lia)) as [Em El].
  rewrite <- Hmsr in Em, El. rewrite Em, El in Hq. subst q.
  rewrite div_of_fields_value by lia.
  unfold quarters. replace (Z.max n 1 - 1) with (Z.max n 1 + -1) by lia.
  rewrite inject_Z_plus. change (inject_Z (-1)) with (- (1))%Q.
  setoid_replace (25 # 100)%Q with (1 # 4)%Q by reflexivity.
  ring.
Qed.

Lemma divtomsr_truncates_witness :
  exists msr w1 q w2,
    divtomsr (inject_Z 11 + inject_Z 7 * (1 # 16))%Q 0x8000013000001CC0 initial_world
    = Ret msr w1
    /\ msrtodiv msr w1 = Ret q w2
    /\ (q == quarters (Z.max 11 1) (7 / 4))%Q.
Proof.
  apply (divtomsr_truncates 0x8000013000001CC0 11 7 initial_world);
    unfold is_u64; lia.
Defined.

(** X7. For a divisor on which [divtomsr] computes a DidLSD below 16,
    the word that it stores keeps every bit above bit 8 of the word it is
    given when the DidMSD it computes is below 32; in general bits 5 and
    above of that DidMSD are or-ed into the word from bit 9 on, so that
    the Vid field of the result is the Vid field of the word or-ed with
    the low 7 bits of [DidMSD >> 5]. *)
Theorem divtomsr_other_bits (d : Q) (word msd lsd : Z) (w : world) :
  is_u64 word -> did_of_div d = Some (msd, lsd) -> lsd < 16 ->
  exists msr l,
    divtomsr d word w = Ret msr (add_log w l)
    /\ quiet l
    /\ decodeVoltageIdentifier msr
       = Z.lor (decodeVoltageIdentifier word) (Z.land (Z.shiftr msd 5) 0x7F)
    /\ (msd < 32 -> forall n, 9 <= n -> Z.testbit msr n = Z.testbit word n).
Proof.
  intros Hw Hd Hl.
  assert (Hb : 0 <= msd < 2 ^ 32 /\ 0 <= lsd < 2 ^ 32).
  { unfold did_of_div in Hd.
    destruct (to_unsigned (to_float (d - to_float (inject_Z 1)))) as [m |] eqn:E1;
      [| discriminate Hd].
    destruct (to_int d) as [k |]; [| discriminate Hd].
    destruct (to_unsigned
                (to_float (to_float (d - to_float (inject_Z k)) * to_float (inject_Z 4))))
      as [s |] eqn:E2; [| discriminate Hd].
    injection Hd as <- <-.
    split; [exact (to_unsigned_bounds _ _ E1) | exact (to_unsigned_bounds _ _ E2)]. }
  destruct Hb as [Hm Hs].
  destruct (divtomsr_runs d word msd lsd w Hd) as (msr & l & Hrun & Hmsr & Hq).
  exists msr, l. split; [exact Hrun |]. split; [exact Hq |].
  assert (Hbit : forall n, 9 <= n ->
            Z.testbit msr n
            = Z.testbit word n || ((n <? 32) && Z.testbit msd (n - 4))).
  { intros n Hn. subst msr. rewrite did_word_testbit by lia.
    rewrite (testbit_small lsd 4 n) by lia.
    replace (n <? 9) with false by (symmetry; apply Z.ltb_ge; lia).
    replace (4 <=? n) with true by (symmetry; apply Z.leb_le; lia).
    destruct (Z.ltb_spec n 64) as [H64 | H64].
    - bits_cases.
    - rewrite (testbit_is_u64_high word n Hw H64).
      replace (n <? 32) with false by (symmetry; apply Z.ltb_ge; lia).
      reflexivity. }
  split.
  - unfold decodeVoltageIdentifier.
    apply Z.bits_inj'. intros n Hn.
    rewrite Z.lor_spec, !Z.land_spec, !Z.shiftr_spec, testbit_0x7F by lia.
    rewrite Hbit by lia.
    replace (n + 9 - 4) with (n + 5) by lia.
    destruct (Z.ltb_spec n 7) as [H7 | H7].
    + replace (n + 9 <? 32) with true by (symmetry; apply Z.ltb_lt; lia).
      bits_cases.
    + bits_cases.
  - intros Hm32 n Hn. rewrite Hbit by exact Hn.
    rewrite (testbit_small msd 5 (n - 4)) by lia.
    bits_cases.
Qed.

Lemma divtomsr_other_bits_witness :
  exists msr l,
    divtomsr (quarters 33 0) 0x8000013000001CC0 initial_world
    = Ret msr (add_log initial_world l)
    /\ quiet l
    /\ decodeVoltageIdentifier msr
       = Z.lor (decodeVoltageIdentifier 0x8000013000001CC0) (Z.land (Z.shiftr 32 5) 0x7F)
    /\ (32 < 32 -> forall n, 9 <= n -> Z.testbit msr n = Z.testbit 0x8000013000001CC0 n).
Proof.
  apply (divtomsr_other_bits (quarters 33 0) 0x8000013000001CC0 32 0 initial_world).
  - unfold is_u64. change (2 ^ 64) with 18446744073709551616. lia.
  - vm_compute. reflexivity.
  - lia.
Defined.

(** ** The access layer on any device *)

(** Splits a list that ends in a call of [perror]. *)
Ltac ends_in_perror :=
  first [ exists []; eexists; reflexivity
        | eexists [_]; eexists; reflexivity
        | eexists [_; _]; eexists; reflexivity
        | eexists [_; _; _]; eexists; reflexivity
        | eexists [_; _; _; _]; eexists; reflexivity
        | eexists [_; _; _; _; _]; eexists; reflexivity
        | eexists [_; _; _; _; _; _]; eexists; reflexivity ].

(** Decides membership of an event in an explicit list. *)
Ltac in_cases H :=
  cbn [In] in H;
  repeat (destruct H as [H | H]; [try discriminate H |]);
  try contradiction.

(** What [rdmsr] does on a device that answers anything: its value, the
    descriptors, and the events it appends. *)
Lemma rdmsr_any (dev : msrdev) (cpu msr pVal : Z) (w : world) :
  exists rc v l fds',
    rdmsr dev cpu msr pVal w
    = Ret (rc, v) {| verbose := verbose w; ncpu := ncpu w; fds := fds'; log := log w ++ l |}
    /\ (rc = 0 \/ rc = 1)
    /\ (forall c m x n, ~ In (SysWrite c m x n) l)
    /\ (forall c m n d, In (SysRead c m n d) l ->
          c = cpu /\ m = msr /\ d = v /\ exists h, n = fst (dev_read dev h cpu msr))
    /\ (rc = 0 ->
        fds' = fds w /\ 0 <= msr /\ is_u64 v
        /\ exists n, 8 <= n /\ In (SysRead cpu msr n v) l)
    /\ (rc = 1 -> exists l' what, l = l' ++ [Perror what])
    /\ (fds' = fds w \/ fds' = lowest_free (List.length (fds w)) 0 (fds w) :: fds w).
Proof.
  assert (Hfd : forall f, (lowest_free (List.length f) 0 f <? 0) = false).
  { intros f. apply Z.ltb_ge, lowest_free_nonneg. lia. }
  assert (Hu : forall x, is_u64 (u64 x)).
  { intros x. unfold is_u64, u64. apply Z.mod_pos_bound. reflexivity. }
  unfold rdmsr, bind, whenv, print, perror, emit, ret,
    sys_open, sys_lseek, sys_read, sys_close, add_log.
  destruct w as [vb n f lg].
  destruct vb; cbn [verbose ncpu fds log];
    (destruct (dev_open dev _ cpu) eqn:Eo; cbn [verbose ncpu fds log];
     [rewrite Hfd | change (-1 <? 0) with true; cbn [verbose ncpu fds log]]);
    try (destruct (dev_lseek dev _ cpu msr) eqn:Es; cbn [verbose ncpu fds log];
         [destruct (Z.ltb_spec msr 0) as [Hm | Hm]; cbn [verbose ncpu fds log]
         | change (-1 <? 0) with true; cbn [verbose ncpu fds log]]);
    try (match goal with
         | |- context [dev_read dev ?h cpu msr] =>
           destruct (dev_read dev h cpu msr) as [count data] eqn:Er
         end;
         destruct (Z.ltb_spec count 8) as [Hc | Hc]; cbn [verbose ncpu fds log]);
    try (match goal with
         | |- context [dev_close dev ?h ?fd] => destruct (dev_close dev h fd) eqn:Ec
         end;
         cbn [verbose ncpu fds log negb Z.eqb];
         rewrite ?remove_fd_head;
         replace (0 <? count) with true by (symmetry; apply Z.ltb_lt; lia));
    rewrite <- ?app_assoc; cbn [app];
    (eexists _, _, _, _; split; [reflexivity |]);
    (split; [auto |]);
    (split; [intros c0 m0 x0 n0 Hin; in_cases Hin |]);
    (split; [intros c0 m0 n0 d0 Hin; in_cases Hin;
             injection Hin as <- <- <- <-;
             repeat split; try reflexivity;
             eexists; rewrite Er; reflexivity |]);
    (split; [intros Hrc;
             first [ discriminate Hrc
                   | split; [reflexivity |]; split; [lia |]; split; [apply Hu |];
                     exists count; split; [lia | cbn [In]; tauto] ] |]);
    (split; [intros Hrc; try discriminate Hrc; ends_in_perror |]);
    auto.
Qed.

(** The same for [wrmsr]. *)
Lemma wrmsr_any (dev : msrdev) (cpu msr val : Z) (w : world) :
  exists rc l fds',
    wrmsr dev cpu msr val w
    = Ret rc {| verbose := verbose w; ncpu := ncpu w; fds := fds'; log := log w ++ l |}
    /\ (rc = 0 \/ rc = 1)
    /\ (forall c m n d, ~ In (SysRead c m n d) l)
    /\ (forall c m x n, In (SysWrite c m x n) l ->
          c = cpu /\ m = msr /\ x = val
          /\ (exists fd, 0 <= fd /\ In (SysOpen cpu fd) l)
          /\ In (SysLseek cpu msr true) l)
    /\ (rc = 0 ->
        fds' = fds w /\ 0 <= msr
        /\ exists n, 8 <= n /\ In (SysWrite cpu msr val n) l)
    /\ (rc = 1 -> exists l' what, l = l' ++ [Perror what])
    /\ (fds' = fds w \/ fds' = lowest_free (List.length (fds w)) 0 (fds w) :: fds w)
    /\ (List.length (hw_writes l) <= 1)%nat.
Proof.
  assert (Hfd : forall f, (lowest_free (List.length f) 0 f <? 0) = false).
  { intros f. apply Z.ltb_ge, lowest_free_nonneg. lia. }
  assert (Hfd' : forall f, 0 <= lowest_free (List.length f) 0 f).
  { intros f. apply lowest_free_nonneg. lia. }
  unfold wrmsr, bind, whenv, print, perror, emit, ret,
    sys_open, sys_lseek, sys_write, sys_close, add_log.
  destruct w as [vb n f lg].
  destruct vb; cbn [verbose ncpu fds log];
    (destruct (dev_open dev _ cpu) eqn:Eo; cbn [verbose ncpu fds log];
     [rewrite Hfd | change (-1 <? 0) with true; cbn [verbose ncpu fds log]]);
    try (destruct (dev_lseek dev _ cpu msr) eqn:Es; cbn [verbose ncpu fds log];
         [destruct (Z.ltb_spec msr 0) as [Hm | Hm]; cbn [verbose ncpu fds log]
         | change (-1 <? 0) with true; cbn [verbose ncpu fds log]]);
    try (match goal with
         | |- context [dev_write dev ?h cpu msr val] =>
           set (count := dev_write dev h cpu msr val)
         end;
         destruct (Z.ltb_spec count 8) as [Hc | Hc]; cbn [verbose ncpu fds log]);
    try (match goal with
         | |- context [dev_close dev ?h ?fd] => destruct (dev_close dev h fd) eqn:Ec
         end;
         cbn [verbose ncpu fds log negb Z.eqb];
         rewrite ?remove_fd_head);
    rewrite <- ?app_assoc; cbn [app];
    (eexists _, _, _; split; [reflexivity |]);
    (split; [auto |]);
    (split; [intros c0 m0 n0 d0 Hin; in_cases Hin |]);
    (split; [intros c0 m0 x0 n0 Hin;
             first [ solve [in_cases Hin]
                   | in_cases Hin;
                     injection Hin as <- <- <- <-;
                     repeat split; try reflexivity;
                     [eexists; split; [apply Hfd' | cbn [In]; tauto] | cbn [In]; tauto] ] |]);
    (split; [intros Hrc;
             first [ discriminate Hrc
                   | split; [reflexivity |]; split; [lia |];
                     exists count; split; [lia | cbn [In]; tauto] ] |]);
    (split; [intros Hrc; try discriminate Hrc; ends_in_perror |]);
    (split; [auto |]);
    cbn; lia.
Qed.

(** X8. On any device and whatever the system calls answer, [rdmsr]
    returns (it never exits) with the value 0 or 1, and changes neither
    global; it writes no register and reads none but the one asked for.
    It returns 0 only when the register address is not negative and a
    [read] of at least 8 bytes took place, with the descriptors as they
    were before the call and [*pVal] the 64-bit word read; when it returns
    1 the last thing it did was a call of [perror]. *)
Theorem rdmsr_outcome (dev : msrdev) (cpu msr pVal : Z) (w : world) :
  exists rc v w' l,
    rdmsr dev cpu msr pVal w = Ret (rc, v) w'
    /\ verbose w' = verbose w /\ ncpu w' = ncpu w /\ log w' = log w ++ l
    /\ (rc = 0 \/ rc = 1)
    /\ hw_writes l = []
    /\ (forall c m n d, In (SysRead c m n d) l -> c = cpu /\ m = msr)
    /\ (rc = 0 ->
        fds w' = fds w /\ 0 <= msr /\ is_u64 v
        /\ exists n, 8 <= n /\ In (SysRead cpu msr n v) l)
    /\ (rc = 1 -> exists l' what, l = l' ++ [Perror what]).
Proof.
  destruct (rdmsr_any dev cpu msr pVal w)
    as (rc & v & l & fds' & Hrun & Hrc & Hw & Hr & H0 & H1 & _).
  eexists rc, v, _, l. split; [exact Hrun |]. cbn [verbose ncpu fds log].
  repeat (split; [reflexivity |]). split; [exact Hrc |].
  split.
  { unfold hw_writes. clear - Hw. induction l as [| e l IH]; [reflexivity |].
    cbn [filter]. destruct e; cbn [is_write];
      try (apply IH; intros c0 m0 x0 n0 Hin; apply (Hw c0 m0 x0 n0); right; exact Hin).
    exfalso. eapply Hw. left. reflexivity. }
  split.
  { intros c m n d Hin. destruct (Hr c m n d Hin) as (-> & -> & _). split; reflexivity. }
  split; assumption.
Qed.

(** X9. On any device [wrmsr] returns with the value 0 or 1; it reads no
    register and issues at most one [write], of [val] to the register
    [msr] of core [cpu], and only after an [open] and an [lseek] that
    succeeded.  It returns 0 only when a [write] of at least 8 bytes took
    place, with the descriptors as they were before the call; when it
    returns 1 the last thing it did was a call of [perror]. *)
Theorem wrmsr_outcome (dev : msrdev) (cpu msr val : Z) (w : world) :
  exists rc w' l,
    wrmsr dev cpu msr val w = Ret rc w'
    /\ verbose w' = verbose w /\ ncpu w' = ncpu w /\ log w' = log w ++ l
    /\ (rc = 0 \/ rc = 1)
    /\ (forall c m n d, ~ In (SysRead c m n d) l)
    /\ (List.length (hw_writes l) <= 1)%nat
    /\ (forall c m x n, In (SysWrite c m x n) l ->
          c = cpu /\ m = msr /\ x = val
          /\ (exists fd, 0 <= fd /\ In (SysOpen cpu fd) l)
          /\ In (SysLseek cpu msr true) l)
    /\ (rc = 0 ->
        fds w' = fds w /\ 0 <= msr
        /\ exists n, 8 <= n /\ In (SysWrite cpu msr val n) l)
    /\ (rc = 1 -> exists l' what, l = l' ++ [Perror what]).
Proof.
  destruct (wrmsr_any dev cpu msr val w)
    as (rc & l & fds' & Hrun & Hrc & Hr & Hw & H0 & H1 & _ & Hlen).
  eexists rc, _, l. split; [exact Hrun |]. cbn [verbose ncpu fds log].
  repeat (split; [reflexivity |]).
  repeat (split; [assumption |]). assumption.
Qed.

(** X10. When [close] fails after a transfer that succeeded, [rdmsr] and
    [wrmsr] return 1: [wrmsr] reports a failure although the 8 bytes were
    written to the register.  The descriptor is not left open. *)
Theorem close_failure_reported (dev : msrdev) (cpu msr pVal val : Z) (w : world) :
  0 <= msr ->
  (forall l, dev_open dev l cpu = true) ->
  (forall l, dev_lseek dev l cpu msr = true) ->
  (forall l, fst (dev_read dev l cpu msr) = 8) ->
  (forall l, dev_write dev l cpu msr val = 8) ->
  (forall l fd, dev_close dev l fd = false) ->
  (exists v w' l,
     rdmsr dev cpu msr pVal w = Ret (1, v) w'
     /\ log w' = log w ++ l /\ fds w' = fds w
     /\ In (SysRead cpu msr 8 v) l
     /\ exists l', l = l' ++ [Perror "Closing msr device"])
  /\ (exists w' l,
        wrmsr dev cpu msr val w = Ret 1 w'
        /\ log w' = log w ++ l /\ fds w' = fds w
        /\ In (SysWrite cpu msr val 8) l
        /\ exists l', l = l' ++ [Perror "Closing msr device"]).
Proof.
  intros Hmsr Hopen Hseek Hread Hwrite Hclose.
  assert (Hfd : forall f, (lowest_free (List.length f) 0 f <? 0) = false).
  { intros f. apply Z.ltb_ge, lowest_free_nonneg. lia. }
  assert (Hm : (msr <? 0) = false) by (apply Z.ltb_ge; exact Hmsr).
  unfold rdmsr, wrmsr, bind, whenv, print, perror, emit, ret,
    sys_open, sys_lseek, sys_read, sys_write, sys_close, add_log.
  destruct w as [vb n f lg]. split.
  - destruct vb; cbn [verbose ncpu fds log];
      rewrite Hopen; cbn [verbose ncpu fds log];
      rewrite Hfd, Hseek, Hm;
      (match goal with
       | |- context [dev_read dev ?h cpu msr] =>
         pose proof (Hread h) as Hc;
         destruct (dev_read dev h cpu msr) as [count data] eqn:Er
       end);
      cbn [fst] in Hc; subst count;
      change (8 <? 8) with false; change (0 <? 8) with true;
      cbn [verbose ncpu fds log];
      rewrite Hclose; cbn [negb Z.eqb verbose ncpu fds log];
      rewrite remove_fd_head, <- ?app_assoc; cbn [app];
      (eexists _, _, _; split; [reflexivity |]);
      cbn [verbose ncpu fds log];
      (split; [reflexivity |]); (split; [reflexivity |]);
      (split; [cbn [In]; tauto |]);
      first [ eexists [_; _; _; _]; reflexivity
            | eexists [_; _; _]; reflexivity
            | eexists [_; _; _; _; _]; reflexivity
            | eexists [_; _; _; _; _; _]; reflexivity ].
  - destruct vb; cbn [verbose ncpu fds log];
      rewrite Hopen; cbn [verbose ncpu fds log];
      rewrite Hfd, Hseek, Hm, Hwrite;
      change (8 <? 8) with false;
      cbn [verbose ncpu fds log];
      rewrite Hclose; cbn [negb Z.eqb verbose ncpu fds log];
      rewrite remove_fd_head, <- ?app_assoc; cbn [app];
      (eexists _, _; split; [reflexivity |]);
      cbn [verbose ncpu fds log];
      (split; [reflexivity |]); (split; [reflexivity |]);
      (split; [cbn [In]; tauto |]);
      first [ eexists [_; _; _; _]; reflexivity
            | eexists [_; _; _]; reflexivity
            | eexists [_; _; _; _; _]; reflexivity
            | eexists [_; _; _; _; _; _]; reflexivity ].
Qed.

Lemma close_failure_reported_witness :
  (exists v w' l,
     rdmsr {| dev_open := fun _ _ => true; dev_lseek := fun _ _ _ => true;
              dev_read := fun _ _ _ => (8, 0x1CC0); dev_write := fun _ _ _ _ => 8;
              dev_close := fun _ _ => false |}
           0 0xC0010064 0 initial_world = Ret (1, v) w'
     /\ log w' = log initial_world ++ l /\ fds w' = fds initial_world
     /\ In (SysRead 0 0xC0010064 8 v) l
     /\ exists l', l = l' ++ [Perror "Closing msr device"])
  /\ (exists w' l,
        wrmsr {| dev_open := fun _ _ => true; dev_lseek := fun _ _ _ => true;
                 dev_read := fun _ _ _ => (8, 0x1CC0); dev_write := fun _ _ _ _ => 8;
                 dev_close := fun _ _ => false |}
              0 0xC0010064 0x40C0 initial_world = Ret 1 w'
        /\ log w' = log initial_world ++ l /\ fds w' = fds initial_world
        /\ In (SysWrite 0 0xC0010064 0x40C0 8) l
        /\ exists l', l = l' ++ [Perror "Closing msr device"]).
Proof.
  apply (close_failure_reported
           {| dev_open := fun _ _ => true; dev_lseek := fun _ _ _ => true;
              dev_read := fun _ _ _ => (8, 0x1CC0); dev_write := fun _ _ _ _ => 8;
              dev_close := fun _ _ => false |}
           0 0xC0010064 0 0x40C0 initial_world);
    intros; (reflexivity || lia).
Defined.

(** ** The option loop: what ends it, and the table it builds *)

Lemma fatal_opt_step (o : opt) (rest : list opt) (a : args) (w : world) :
  fatal_opt o = true ->
  exists w', getopt_loop (o :: rest) a w = Exit 1 w' /\ parse_fatal w w'.
Proof.
  intros Hf.
  destruct (getopt_step o a w) as [(w' & Hk & Hpf) | (a' & w' & Hk & _)].
  - exists w'. split; [apply Hk | exact Hpf].
  - exfalso. specialize (Hk []). cbn [getopt_loop] in Hk.
    destruct o as [| | | | optarg [n | p v | p v d] | [|] arg];
      try discriminate Hf; try discriminate Hk;
      cbn [fatal_opt] in Hf; unfold set_pstate in Hk; rewrite Hf in Hk;
      discriminate Hk.
Qed.

Lemma fatal_opt_loop (argv : list opt) (o : opt) (a : args) (w : world) :
  In o argv -> fatal_opt o = true ->
  exists w', getopt_loop argv a w = Exit 1 w' /\ parse_fatal w w'.
Proof.
  intros Hin Hf. revert a w.
  induction argv as [| o' rest IH]; intros a w; [destruct Hin |].
  destruct (getopt_step o' a w) as [(w' & Hk & Hpf) | (a' & w' & Hk & Hq & _)].
  - exists w'. split; [apply Hk | exact Hpf].
  - destruct Hin as [-> | Hin].
    + apply fatal_opt_step, Hf.
    + destruct (IH Hin a' w') as (w'' & Hrun & Hpf).
      exists w''. rewrite Hk. split; [exact Hrun |].
      eapply parse_quiet_fatal; eassumption.
Qed.

(** X11. A command line that contains [-h], an option that [getopt] does
    not know, a [-p] argument that does not convert, or a request for a
    P-state index outside [0, 8) ends the run in the option loop: the
    status is 1 (also for [-h]: the [exit(0)] that follows the call of
    [usage] is never reached), the last output is a message on [stderr],
    and the MSR device is never accessed, wherever the option stands and
    whatever the other options are. *)
Theorem fatal_option_exits (dev : msrdev) (cpuinfo : option (list cpuinfo_line))
    (argv : list opt) (o : opt) :
  In o argv -> fatal_opt o = true ->
  exists w' l m,
    main dev cpuinfo argv initial_world = Exit 1 w'
    /\ log w' = l ++ [Print Stderr m]
    /\ hw_events (log w') = [].
Proof.
  intros Hin Hf.
  destruct (fatal_opt_loop argv o initial_args initial_world Hin Hf)
    as (w' & Hrun & l & m & E & Hq).
  exists w', l, m. unfold main, bind. rewrite Hrun.
  split; [reflexivity |]. cbn [log initial_world app] in E.
  split; [exact E |]. rewrite E.
  apply quiet_hw_events, quiet_app; [exact Hq | apply quiet_print].
Qed.

Lemma fatal_option_exits_witness :
  exists w' l m,
    main (good_dev sample_regs) sample_cpuinfo
         [Opt_r; Opt_p "1:0x20" (Scan2 1 0x20); Opt_p "9:0x20" (Scan2 9 0x20); Opt_c]
         initial_world = Exit 1 w'
    /\ log w' = l ++ [Print Stderr m]
    /\ hw_events (log w') = [].
Proof.
  apply (fatal_option_exits (good_dev sample_regs) sample_cpuinfo
           [Opt_r; Opt_p "1:0x20" (Scan2 1 0x20); Opt_p "9:0x20" (Scan2 9 0x20); Opt_c]
           (Opt_p "9:0x20" (Scan2 9 0x20))).
  - cbn [In]. tauto.
  - reflexivity.
Defined.

(** One option that does not end the run: the table and the flags after
    it. *)
Lemma getopt_step_table (o : opt) (a : args) (w : world) :
  (exists w', forall rest, getopt_loop (o :: rest) a w = Exit 1 w')
  \/ (exists a' w',
        (forall rest, getopt_loop (o :: rest) a w = getopt_loop rest a' w')
        /\ (forall j, vidToSet a' j
                      = match request_of o with
                        | Some (i, v) => if j =? i then u64 v else vidToSet a j
                        | None => vidToSet a j
                        end)
        /\ (forall i v, request_of o = Some (i, v) -> 0 <= i < 8 /\ vidToSet a i = 0)
        /\ (read a' = true <-> read a = true \/ o = Opt_r)
        /\ (current a' = true <-> current a = true \/ o = Opt_c)
        /\ (verbose w' = true <-> verbose w = true \/ o = Opt_v)
        /\ ncpu w' = ncpu w /\ fds w' = fds w
        /\ (forall j, divToSet a' j
                      = match request_of o with
                        | Some (i, _) => if j =? i then divisor_of o else divToSet a j
                        | None => divToSet a j
                        end)
        /\ div a' = match request_of o with
                    | Some _ => divisor_of o
                    | None => div a
                    end).
Proof.
  assert (Hp : forall p v d (o' : opt),
            request_of o' = Some (p, v) -> divisor_of o' = d ->
            o' <> Opt_r -> o' <> Opt_c -> o' <> Opt_v ->
            (forall rest, getopt_loop (o' :: rest) a w
                          = set_pstate a p v d (getopt_loop rest) w) ->
            (exists w', forall rest, getopt_loop (o' :: rest) a w = Exit 1 w')
            \/ (exists a' w',
                  (forall rest, getopt_loop (o' :: rest) a w = getopt_loop rest a' w')
                  /\ (forall j, vidToSet a' j
                                = match request_of o' with
                                  | Some (i, v) => if j =? i then u64 v else vidToSet a j
                                  | None => vidToSet a j
                                  end)
                  /\ (forall i v, request_of o' = Some (i, v) ->
                        0 <= i < 8 /\ vidToSet a i = 0)
                  /\ (read a' = true <-> read a = true \/ o' = Opt_r)
                  /\ (current a' = true <-> current a = true \/ o' = Opt_c)
                  /\ (verbose w' = true <-> verbose w = true \/ o' = Opt_v)
                  /\ ncpu w' = ncpu w /\ fds w' = fds w
                  /\ (forall j, divToSet a' j
                                = match request_of o' with
                                  | Some (i, _) =>
                                    if j =? i then divisor_of o' else divToSet a j
                                  | None => divToSet a j
                                  end)
                  /\ div a' = match request_of o' with
                              | Some _ => divisor_of o'
                              | None => div a
                              end)).
  { intros p v d o' Hreq Hdiv Hr Hc Hv Hloop.
    unfold set_pstate in Hloop.
    destruct ((p <? 0) || (p >=? 8)) eqn:Hb.
    - left. eexists. intros rest. rewrite Hloop. reflexivity.
    - apply orb_false_iff in Hb. destruct Hb as [Hb1 Hb2].
      apply Z.ltb_ge in Hb1. rewrite Z.geb_leb in Hb2. apply Z.leb_gt in Hb2.
      destruct (Z.eqb_spec (vidToSet a p) 0) as [Hz | Hz]; cbn [negb] in Hloop.
      + right.
        eexists _, (if verbose w
                    then add_log w [Print Stdout (VidToSet v (voltage v) d p)]
                    else w).
        split.
        { intros rest. rewrite Hloop. unfold bind, whenv, print, emit.
          destruct (verbose w); reflexivity. }
        rewrite Hreq, Hdiv. cbn [vidToSet divToSet read current div]. unfold upd.
        split; [reflexivity |].
        split; [intros i v0 E; injection E as <- <-; split; [lia | exact Hz] |].
        split; [split; [tauto | intros [H | H]; [exact H | contradiction]] |].
        split; [split; [tauto | intros [H | H]; [exact H | contradiction]] |].
        assert (E : forall (l : list event),
                  verbose (if verbose w then add_log w l else w) = verbose w
                  /\ ncpu (if verbose w then add_log w l else w) = ncpu w
                  /\ fds (if verbose w then add_log w l else w) = fds w).
        { intros l. destruct (verbose w) eqn:Ev; cbn [verbose ncpu fds add_log];
            rewrite ?Ev; repeat split; reflexivity. }
        destruct (E [Print Stdout (VidToSet v (voltage v) d p)]) as (-> & -> & ->).
        split; [split; [tauto | intros [H | H]; [exact H | contradiction]] |].
        repeat split; reflexivity.
      + left. eexists. intros rest. rewrite Hloop. reflexivity. }
  destruct o as [| | | | optarg [n | p v | p v d] | [|] arg].
  - left. eexists. intros rest. reflexivity.
  - right. eexists a, _. split; [reflexivity |]. cbn [request_of verbose ncpu fds].
    split; [reflexivity |]. split; [discriminate |].
    split; [split; [tauto | intros [H | H]; [exact H | discriminate H]] |].
    split; [split; [tauto | intros [H | H]; [exact H | discriminate H]] |].
    split; [split; [intros _; right; reflexivity | reflexivity] |].
    repeat split; reflexivity.
  - right. eexists _, w. split; [reflexivity |]. cbn [request_of vidToSet read current].
    split; [reflexivity |]. split; [discriminate |].
    split; [split; [intros _; right; reflexivity | reflexivity] |].
    split; [split; [tauto | intros [H | H]; [exact H | discriminate H]] |].
    split; [split; [tauto | intros [H | H]; [exact H | discriminate H]] |].
    repeat split; reflexivity.
  - right. eexists _, w. split; [reflexivity |]. cbn [request_of vidToSet read current].
    split; [reflexivity |]. split; [discriminate |].
    split; [split; [tauto | intros [H | H]; [exact H | discriminate H]] |].
    split; [split; [intros _; right; reflexivity | reflexivity] |].
    split; [split; [tauto | intros [H | H]; [exact H | discriminate H]] |].
    repeat split; reflexivity.
  - left. eexists. intros rest. reflexivity.
  - apply (Hp p v (Finite 0)); try discriminate; reflexivity.
  - apply (Hp p v (scan_float d)); try discriminate; reflexivity.
  - left. eexists. intros rest. reflexivity.
  - left. eexists. intros rest. reflexivity.
Qed.

(** The table and the flags when the loop returns, from any start. *)
Lemma getopt_loop_table (argv : list opt) (a0 a : args) (w0 w : world) :
  getopt_loop argv a0 w0 = Ret a w ->
  (forall o i v, In o argv -> request_of o = Some (i, v) ->
     0 <= i < 8 /\ (u64 v <> 0 -> vidToSet a i = u64 v))
  /\ (forall i, vidToSet a i = vidToSet a0 i
                \/ exists o v, In o argv /\ request_of o = Some (i, v)
                               /\ vidToSet a i = u64 v)
  /\ (read a = true <-> read a0 = true \/ In Opt_r argv)
  /\ (current a = true <-> current a0 = true \/ In Opt_c argv)
  /\ (verbose w = true <-> verbose w0 = true \/ In Opt_v argv)
  /\ ncpu w = ncpu w0 /\ fds w = fds w0.
Proof.
  revert a0 w0. induction argv as [| o rest IH]; intros a0 w0 Hrun.
  - cbn in Hrun. injection Hrun as <- <-.
    split; [intros o i v [] |]. split; [intros i; left; reflexivity |].
    cbn [In]. repeat split; tauto.
  - destruct (getopt_step_table o a0 w0)
      as [(w' & Hk) | (a' & w' & Hk & Hvid & Hreq & Hr & Hc & Hv & Hn & Hfds & _)].
    + rewrite Hk in Hrun. discriminate Hrun.
    + rewrite Hk in Hrun.
      destruct (IH a' w' Hrun) as (I1 & I2 & I3 & I4 & I5 & I6 & I7).
      pose proof (getopt_loop_spec rest a' w') as Hspec. rewrite Hrun in Hspec.
      destruct Hspec as [_ Hkeep].
      split; [| split; [| split; [| split; [| split; [| split]]]]].
      * intros o' i v [<- | Hin] E.
        -- destruct (Hreq i v E) as [Hi _]. split; [exact Hi |].
           intros Hnz. specialize (Hvid i). rewrite E, Z.eqb_refl in Hvid.
           rewrite Hkeep; [exact Hvid | rewrite Hvid; exact Hnz].
        -- exact (I1 o' i v Hin E).
      * intros i. destruct (I2 i) as [E | (o' & v & Hin & E & Hs)].
        -- specialize (Hvid i). destruct (request_of o) as [[i' v'] |] eqn:Eo.
           ++ destruct (Z.eqb_spec i i') as [-> | Hne].
              ** right. exists o, v'. split; [left; reflexivity |].
                 split; [exact Eo | rewrite E; exact Hvid].
              ** left. rewrite E. exact Hvid.
           ++ left. rewrite E. exact Hvid.
        -- right. exists o', v. split; [right; exact Hin | split; assumption].
      * rewrite I3, Hr. cbn [In]. intuition congruence.
      * rewrite I4, Hc. cbn [In]. intuition congruence.
      * rewrite I5, Hv. cbn [In]. intuition congruence.
      * rewrite I6. exact Hn.
      * rewrite I7. exact Hfds.
Qed.

(** X12. When the option loop returns, every request on the command line
    is for an index in [0, 8); the slot of a request whose identifier is
    not 0 (as a 64-bit word) holds that identifier; a slot that is not 0
    holds the identifier of a request for its index that is on the
    command line; and [read], [current] and [verbose] are set exactly when
    [-r], [-c] and [-v] occur.  [ncpu] is still 0. *)
Theorem getopt_table (argv : list opt) (a : args) (w : world) :
  getopt_loop argv initial_args initial_world = Ret a w ->
  (forall o i v, In o argv -> request_of o = Some (i, v) ->
     0 <= i < 8 /\ (u64 v <> 0 -> vidToSet a i = u64 v))
  /\ (forall i, vidToSet a i <> 0 ->
        exists o v, In o argv /\ request_of o = Some (i, v) /\ vidToSet a i = u64 v)
  /\ (read a = true <-> In Opt_r argv)
  /\ (current a = true <-> In Opt_c argv)
  /\ (verbose w = true <-> In Opt_v argv)
  /\ ncpu w = 0.
Proof.
  intros Hrun.
  destruct (getopt_loop_table argv initial_args a initial_world w Hrun)
    as (I1 & I2 & I3 & I4 & I5 & I6 & _).
  cbn [initial_args initial_world vidToSet read current verbose ncpu] in *.
  split; [exact I1 |].
  split; [intros i Hnz; destruct (I2 i) as [E | H]; [contradiction | exact H] |].
  split; [rewrite I3; intuition discriminate |].
  split; [rewrite I4; intuition discriminate |].
  split; [rewrite I5; intuition discriminate |].
  exact I6.
Qed.

Lemma getopt_table_witness :
  (forall o i v,
     In o [Opt_r; Opt_p "1:0" (Scan2 1 0); Opt_p "1:0x25" (Scan2 1 0x25)] ->
     request_of o = Some (i, v) ->
     0 <= i < 8
     /\ (u64 v <> 0 ->
         vidToSet {| vidToSet := upd (upd (fun _ => 0) 1 (u64 0)) 1 (u64 0x25);
                     divToSet := upd (upd (fun _ => Finite 0) 1 (Finite 0)) 1 (Finite 0);
                     read := true; current := false; div := 0%Q |} i = u64 v))
  /\ (forall i,
        vidToSet {| vidToSet := upd (upd (fun _ => 0) 1 (u64 0)) 1 (u64 0x25);
                    divToSet := upd (upd (fun _ => Finite 0) 1 (Finite 0)) 1 (Finite 0);
                    read := true; current := false; div := 0%Q |} i <> 0 ->
        exists o v,
          In o [Opt_r; Opt_p "1:0" (Scan2 1 0); Opt_p "1:0x25" (Scan2 1 0x25)]
          /\ request_of o = Some (i, v)
          /\ vidToSet {| vidToSet := upd (upd (fun _ => 0) 1 (u64 0)) 1 (u64 0x25);
                         divToSet := upd (upd (fun _ => Finite 0) 1 (Finite 0)) 1 (Finite 0);
                         read := true; current := false; div := 0%Q |} i = u64 v)
  /\ (true = true <-> In Opt_r [Opt_r; Opt_p "1:0" (Scan2 1 0); Opt_p "1:0x25" (Scan2 1 0x25)])
  /\ (false = true <-> In Opt_c [Opt_r; Opt_p "1:0" (Scan2 1 0); Opt_p "1:0x25" (Scan2 1 0x25)])
  /\ (verbose initial_world = true
      <-> In Opt_v [Opt_r; Opt_p "1:0" (Scan2 1 0); Opt_p "1:0x25" (Scan2 1 0x25)])
  /\ ncpu initial_world = 0.
Proof.
  apply (getopt_table [Opt_r; Opt_p "1:0" (Scan2 1 0); Opt_p "1:0x25" (Scan2 1 0x25)]
           {| vidToSet := upd (upd (fun _ => 0) 1 (u64 0)) 1 (u64 0x25);
              divToSet := upd (upd (fun _ => Finite 0) 1 (Finite 0)) 1 (Finite 0);
              read := true; current := false; div := 0%Q |}
           initial_world).
  reflexivity.
Defined.

(** The divisors when the loop returns, from any start. *)
Lemma getopt_loop_divisors (argv : list opt) (a0 a : args) (w0 w : world) :
  getopt_loop argv a0 w0 = Ret a w ->
  (forall o i v, In o argv -> request_of o = Some (i, v) -> u64 v <> 0 ->
     divToSet a i = divisor_of o)
  /\ (forall i, vidToSet a0 i <> 0 -> divToSet a i = divToSet a0 i)
  /\ (forall pre o post, argv = pre ++ o :: post -> request_of o <> None ->
        (forall o', In o' post -> request_of o' = None) -> div a = divisor_of o)
  /\ ((forall o, In o argv -> request_of o = None) -> div a = div a0).
Proof.
  revert a0 w0. induction argv as [| o1 rest IH]; intros a0 w0 Hrun.
  - cbn in Hrun. injection Hrun as <- <-.
    split; [intros o i v [] |]. split; [reflexivity |].
    split; [| reflexivity].
    intros pre o post E. destruct pre; discriminate E.
  - destruct (getopt_step_table o1 a0 w0)
      as [(w' & Hk) | (a' & w' & Hk & Hvid & Hreq & _ & _ & _ & _ & _ & Hdiv & Hd)].
    + rewrite Hk in Hrun. discriminate Hrun.
    + rewrite Hk in Hrun.
      destruct (IH a' w' Hrun) as (I1 & I2 & I3 & I4).
      split; [| split; [| split]].
      * intros o i v [<- | Hin] E Hnz.
        -- specialize (Hvid i). specialize (Hdiv i). rewrite E, Z.eqb_refl in Hvid, Hdiv.
           rewrite I2 by (rewrite Hvid; exact Hnz). exact Hdiv.
        -- exact (I1 o i v Hin E Hnz).
      * intros i Hnz. specialize (Hvid i). specialize (Hdiv i).
        destruct (request_of o1) as [[i' v'] |] eqn:Eo.
        -- destruct (Hreq i' v' eq_refl) as [_ Hz].
           destruct (Z.eqb_spec i i') as [-> | Hne]; [contradiction |].
           rewrite I2 by (rewrite Hvid; exact Hnz). exact Hdiv.
        -- rewrite I2 by (rewrite Hvid; exact Hnz). exact Hdiv.
      * intros pre o post E Hsome Hnone.
        destruct pre as [| o' pre]; cbn [app] in E; injection E as -> ->.
        -- rewrite (I4 Hnone), Hd.
           destruct (request_of o) as [p |]; [reflexivity | contradiction].
        -- exact (I3 pre o post eq_refl Hsome Hnone).
      * intros Hnone. rewrite I4 by (intros o Hin; apply Hnone; right; exact Hin).
        rewrite Hd, (Hnone o1) by (left; reflexivity). reflexivity.
Qed.

(** X21. When the option loop returns, the slot of [divToSet] of a
    request with an identifier that is not 0 holds the divisor of that
    request (0 when it gives none), and the variable [div] holds the
    divisor of the last [-p] option of the command line, whatever the
    index of that option. *)
Theorem getopt_divisors (argv : list opt) (a : args) (w : world) :
  getopt_loop argv initial_args initial_world = Ret a w ->
  (forall o i v, In o argv -> request_of o = Some (i, v) -> u64 v <> 0 ->
     divToSet a i = divisor_of o)
  /\ (forall pre o post, argv = pre ++ o :: post -> request_of o <> None ->
        (forall o', In o' post -> request_of o' = None) -> div a = divisor_of o).
Proof.
  intros Hrun.
  destruct (getopt_loop_divisors argv initial_args a initial_world w Hrun)
    as (I1 & _ & I3 & _).
  split; assumption.
Qed.

Lemma getopt_divisors_witness :
  (forall o i v, In o sample_argv -> request_of o = Some (i, v) -> u64 v <> 0 ->
     divToSet sample_args i = divisor_of o)
  /\ (forall pre o post, sample_argv = pre ++ o :: post -> request_of o <> None ->
        (forall o', In o' post -> request_of o' = None) ->
        div sample_args = divisor_of o).
Proof.
  apply (getopt_divisors sample_argv sample_args initial_world).
  reflexivity.
Defined.

(** ** [cpuIdCheck]: the verdicts and the end of the scan *)

(** A message printed under [-v]. *)
Lemma whenv_print_step (m : msg) (w : world) :
  exists w' l,
    whenv (print Stdout m) w = Ret tt w'
    /\ verbose w' = verbose w /\ ncpu w' = ncpu w /\ fds w' = fds w
    /\ log w' = log w ++ l /\ quiet l.
Proof.
  unfold whenv, print, emit, add_log. destruct w as [v n f lg].
  destruct v; cbn [verbose ncpu fds log].
  - eexists _, [Print Stdout m]. split; [reflexivity |].
    cbn [verbose ncpu fds log]. repeat split. apply quiet_print.
  - eexists _, []. split; [reflexivity |].
    cbn [verbose ncpu fds log]. rewrite app_nil_r. repeat split. apply quiet_nil.
Qed.

(** The scan of a line followed by the scan of the rest. *)
Lemma cpuinfo_post_step (line : cpuinfo_line) (rest : list cpuinfo_line)
    (w w1 : world) (l1 : list event) (o : outcome Z) :
  verbose w1 = verbose w -> fds w1 = fds w ->
  (ncpu w1 = ncpu w \/ exists k, line = L_cpu_cores (Some k) /\ ncpu w1 = k) ->
  log w1 = log w ++ l1 -> quiet l1 ->
  cpuinfo_post rest w1 o -> cpuinfo_post (line :: rest) w o.
Proof.
  intros Hv Hf Hn Hl Hq (Pv & Pf & Pn & l & Pl & Pq & Po).
  split; [congruence |]. split; [congruence |].
  split.
  { destruct Pn as [Pn | (k & Hin & Pn)].
    - destruct Hn as [Hn | (k & -> & Hn)].
      + left. congruence.
      + right. exists k. split; [left; reflexivity | congruence].
    - right. exists k. split; [right; exact Hin | exact Pn]. }
  exists (l1 ++ l). split; [rewrite Pl, Hl, app_assoc; reflexivity |].
  split; [apply quiet_app; assumption |].
  destruct o as [r w' | st w' | w'].
  - destruct Po as [Po | (Hr & ln & l' & m & Hin & Ha & El & Hm)]; [left; exact Po |].
    right. split; [exact Hr |]. exists ln, (l1 ++ l'), m.
    split; [right; exact Hin |]. split; [exact Ha |].
    split; [rewrite El, app_assoc; reflexivity | exact Hm].
  - destruct Po as (Hs & n & l' & Hin & Ha & El).
    split; [exact Hs |]. exists n, (l1 ++ l').
    split; [right; exact Hin |]. split; [exact Ha |].
    rewrite El, app_assoc. reflexivity.
  - right. exact Po.
Qed.

Lemma cpuinfo_post_ret0 (lines : list cpuinfo_line) (w : world) :
  cpuinfo_post lines w (Ret 0 w).
Proof.
  split; [reflexivity |]. split; [reflexivity |]. split; [left; reflexivity |].
  exists []. cbn [final_world]. rewrite app_nil_r.
  split; [reflexivity |]. split; [apply quiet_nil | left; reflexivity].
Qed.

Lemma cpuinfo_post_ret1 (line : cpuinfo_line) (rest : list cpuinfo_line)
    (w : world) (m : msg) :
  accepted_line line = false -> unsupported m ->
  cpuinfo_post (line :: rest) w (Ret 1 (add_log w [Print Stderr m])).
Proof.
  intros Ha Hm.
  split; [reflexivity |]. split; [reflexivity |]. split; [left; reflexivity |].
  exists [Print Stderr m]. cbn [final_world log add_log].
  split; [reflexivity |]. split; [apply quiet_print |].
  right. split; [reflexivity |]. exists line, [], m.
  split; [left; reflexivity |]. split; [exact Ha |]. split; [reflexivity | exact Hm].
Qed.

Lemma cpuinfo_loop_post (lines : list cpuinfo_line) (vc fc : bool) (w : world) :
  cpuinfo_post lines w (cpuinfo_loop lines vc fc w).
Proof.
  revert vc fc w. induction lines as [| line rest IH]; intros vc fc w.
  - apply cpuinfo_post_ret0.
  - assert (Hnext : forall vc' fc' w1,
               cpuinfo_post rest w1
                 (bind get_ncpu (fun n =>
                    if vc' && fc' && negb (n =? 0) then ret 0
                    else cpuinfo_loop rest vc' fc') w1)).
    { intros vc' fc' w1. unfold bind, get_ncpu.
      destruct (vc' && fc' && negb (ncpu w1 =? 0)); [apply cpuinfo_post_ret0 | apply IH]. }
    assert (Hv : forall (m : msg) vc' fc' w1 l1,
               verbose w1 = verbose w -> fds w1 = fds w ->
               (ncpu w1 = ncpu w \/ exists k, line = L_cpu_cores (Some k) /\ ncpu w1 = k) ->
               log w1 = log w ++ l1 -> quiet l1 ->
               cpuinfo_post (line :: rest) w
                 (bind (whenv (print Stdout m)) (fun _ =>
                    bind get_ncpu (fun n =>
                      if vc' && fc' && negb (n =? 0) then ret 0
                      else cpuinfo_loop rest vc' fc')) w1)).
    { intros m vc' fc' w1 l1 H1 H2 H3 H4 H5.
      unfold bind at 1.
      destruct (whenv_print_step m w1) as (w2 & l2 & -> & E1 & E2 & E3 & E4 & E5).
      apply (cpuinfo_post_step line rest w w2 (l1 ++ l2)).
      - congruence.
      - congruence.
      - rewrite E2. exact H3.
      - rewrite E4, H4, app_assoc. reflexivity.
      - apply quiet_app; assumption.
      - apply Hnext. }
    assert (Hw : log w = log w ++ []) by (rewrite app_nil_r; reflexivity).
    destruct line as [[s |] | f | m | n |]; cbn [cpuinfo_loop].
    + destruct (String.prefix "AuthenticAMD" s) eqn:Hp; cbn [negb].
      * apply (Hv _ _ _ w []); auto using quiet_nil.
      * apply cpuinfo_post_ret1; [exact Hp | exact I].
    + split; [reflexivity |]. split; [reflexivity |]. split; [left; reflexivity |].
      exists []. split; [exact Hw |]. split; [apply quiet_nil | left; reflexivity].
    + destruct (scan_fails f _) eqn:Hs.
      * apply cpuinfo_post_ret1; [cbn [accepted_line]; rewrite Hs; reflexivity | exact I].
      * apply (Hv _ _ _ w []); auto using quiet_nil.
    + destruct (scan_fails m _) eqn:Hs.
      * apply cpuinfo_post_ret1; [cbn [accepted_line]; rewrite Hs; reflexivity | exact I].
      * apply (Hv _ _ _ w []); auto using quiet_nil.
    + destruct n as [k |].
      * unfold bind at 1. unfold set_ncpu at 1.
        unfold bind at 1. unfold get_ncpu at 1. cbn [ncpu scan_fails orb].
        destruct (Z.eqb_spec k 0) as [-> | Hk].
        -- split; [reflexivity |]. split; [reflexivity |].
           split; [right; exists 0; split; [left; reflexivity | reflexivity] |].
           exists [Print Stderr CoresError].
           split; [reflexivity |]. split; [apply quiet_print |].
           split; [reflexivity |]. exists (Some 0), [].
           split; [left; reflexivity |]. split; reflexivity.
        -- apply (Hv _ _ _ _ []); cbn [verbose ncpu fds log]; auto using quiet_nil.
           right. exists k. split; reflexivity.
      * unfold bind at 1. unfold ret at 1.
        unfold bind at 1. unfold get_ncpu at 1. cbn [scan_fails orb].
        split; [reflexivity |]. split; [reflexivity |]. split; [left; reflexivity |].
        exists [Print Stderr CoresError].
        split; [reflexivity |]. split; [apply quiet_print |].
        split; [reflexivity |]. exists None, [].
        split; [left; reflexivity |]. split; reflexivity.
    + apply (cpuinfo_post_step L_other rest w w []); auto using quiet_nil.
Qed.

(** [cpuIdCheck] on a file that opens: the scan of the lines with the
    stream open, and what [cpuIdCheck] makes of its end. *)
Lemma cpuIdCheck_of_loop (lines : list cpuinfo_line) (w : world) :
  exists o,
    cpuinfo_post lines
      (with_fds w (lowest_free (List.length (fds w)) 0 (fds w) :: fds w)) o
    /\ match o with
       | Ret r w1 =>
         (r = 0 /\ cpuIdCheck (Some lines) w = Ret 0 (with_fds w1 (fds w)))
         \/ (r <> 0 /\ cpuIdCheck (Some lines) w = Ret r w1)
       | Exit st w1 => cpuIdCheck (Some lines) w = Exit st w1
       | Undef w1 => cpuIdCheck (Some lines) w = Undef w1
       end.
Proof.
  rewrite cpuIdCheck_some.
  pose proof (cpuinfo_loop_post lines false false
                (with_fds w (lowest_free (List.length (fds w)) 0 (fds w) :: fds w)))
    as Hpost.
  destruct (cpuinfo_loop lines false false _) as [r w1 | st w1 | w1] eqn:E.
  - exists (Ret r w1). split; [exact Hpost |].
    destruct (Z.eqb_spec r 0) as [-> | Hr].
    + left. split; [reflexivity |].
      destruct Hpost as (_ & Hf & _). cbn [final_world fds with_fds] in Hf.
      rewrite Hf, remove_fd_head. reflexivity.
    + right. split; [exact Hr | reflexivity].
  - exists (Exit st w1). split; [exact Hpost | reflexivity].
  - exists (Undef w1). split; [exact Hpost | reflexivity].
Qed.


(** X14. When every line of [/proc/cpuinfo] is accepted, [cpuIdCheck]
    returns 0, whether or not the file has a [vendor_id], a [cpu family]
    or a [cpu cores] line: an empty file passes.  Without a [cpu cores]
    line [ncpu] keeps its value, which is 0 in [main]; otherwise it keeps
    its value or is the number of one of the [cpu cores] lines. *)
Theorem cpuIdCheck_passes (lines : list cpuinfo_line) (w : world) :
  forallb accepted_line lines = true ->
  exists w',
    cpuIdCheck (Some lines) w = Ret 0 w'
    /\ ((forall n, ~ In (L_cpu_cores n) lines) -> ncpu w' = ncpu w)
    /\ (ncpu w' = ncpu w \/ In (L_cpu_cores (Some (ncpu w'))) lines).
Proof.
  intros Hall. rewrite forallb_forall in Hall.
  destruct (cpuIdCheck_of_loop lines w) as (o & (_ & _ & Hn & l & _ & _ & Ho) & Hrun).
  cbn [ncpu with_fds] in Hn.
  destruct o as [r w1 | st w1 | w1]; cbn [final_world] in Hn.
  - destruct Ho as [-> | (_ & line & _ & _ & Hin & Ha & _)].
    + destruct Hrun as [[_ Hrun] | [Hr _]]; [| contradiction].
      exists (with_fds w1 (fds w)). split; [exact Hrun |]. cbn [ncpu with_fds]. split.
      * intros Hno. destruct Hn as [Hn | (k & Hin & _)]; [exact Hn |].
        exfalso. exact (Hno _ Hin).
      * destruct Hn as [Hn | (k & Hin & Hk)]; [left; exact Hn |].
        right. rewrite Hk. exact Hin.
    + rewrite (Hall _ Hin) in Ha. discriminate Ha.
  - destruct Ho as (_ & n & _ & Hin & Ha & _).
    rewrite (Hall _ Hin) in Ha. discriminate Ha.
  - specialize (Hall _ Ho). discriminate Hall.
Qed.

Lemma cpuIdCheck_passes_witness :
  exists w',
    cpuIdCheck (Some [L_other; L_model (Some 2); L_other]) initial_world = Ret 0 w'
    /\ ((forall n, ~ In (L_cpu_cores n) [L_other; L_model (Some 2); L_other]) ->
        ncpu w' = ncpu initial_world)
    /\ (ncpu w' = ncpu initial_world
        \/ In (L_cpu_cores (Some (ncpu w'))) [L_other; L_model (Some 2); L_other]).
Proof.
  apply (cpuIdCheck_passes [L_other; L_model (Some 2); L_other] initial_world).
  reflexivity.
Defined.

Lemma cpuinfo_loop_stops (pre : list cpuinfo_line) (k : Z) (vc fc : bool) (w : world) :
  forallb accepted_line pre = true ->
  vc = true \/ (exists s, In (L_vendor_id s) pre) ->
  fc = true \/ (exists f, In (L_cpu_family f) pre) ->
  k <> 0 ->
  exists w',
    ncpu w' <> 0
    /\ forall post,
         cpuinfo_loop (pre ++ L_cpu_cores (Some k) :: post) vc fc w = Ret 0 w'.
Proof.
  intros Hall Hvc Hfc Hk. revert vc fc w Hvc Hfc.
  induction pre as [| line pre IH]; intros vc fc w Hvc Hfc.
  - destruct Hvc as [-> | (s & [])]. destruct Hfc as [-> | (f & [])].
    cbn [app cpuinfo_loop].
    unfold bind at 1. unfold set_ncpu at 1.
    unfold bind at 1. unfold get_ncpu at 1. cbn [ncpu scan_fails orb].
    replace (k =? 0) with false by (symmetry; apply Z.eqb_neq; exact Hk).
    unfold bind at 1. unfold whenv, print, emit. cbn [verbose].
    destruct (verbose w); unfold bind, get_ncpu; cbn [ncpu add_log andb];
      replace (k =? 0) with false by (symmetry; apply Z.eqb_neq; exact Hk);
      cbn [negb]; (eexists; split; [| intros post; reflexivity]); cbn [ncpu]; exact Hk.
  - cbn [forallb] in Hall. apply andb_true_iff in Hall. destruct Hall as [Ha Hall].
    specialize (IH Hall).
    assert (Hnext : forall vc' fc' w1,
               vc' = true \/ (exists s, In (L_vendor_id s) pre) ->
               fc' = true \/ (exists f, In (L_cpu_family f) pre) ->
               exists w',
                 ncpu w' <> 0
                 /\ forall post,
                      bind get_ncpu (fun n =>
                        if vc' && fc' && negb (n =? 0) then ret 0
                        else cpuinfo_loop (pre ++ L_cpu_cores (Some k) :: post) vc' fc') w1
                      = Ret 0 w').
    { intros vc' fc' w1 H1 H2. unfold bind, get_ncpu.
      destruct (vc' && fc' && negb (ncpu w1 =? 0)) eqn:Hc.
      - exists w1. split; [| intros post; reflexivity].
        apply andb_true_iff in Hc. destruct Hc as [_ Hc].
        apply negb_true_iff, Z.eqb_neq in Hc. exact Hc.
      - apply IH; assumption. }
    assert (Hv : forall (m : msg) vc' fc' w1,
               vc' = true \/ (exists s, In (L_vendor_id s) pre) ->
               fc' = true \/ (exists f, In (L_cpu_family f) pre) ->
               exists w',
                 ncpu w' <> 0
                 /\ forall post,
                      bind (whenv (print Stdout m)) (fun _ =>
                        bind get_ncpu (fun n =>
                          if vc' && fc' && negb (n =? 0) then ret 0
                          else cpuinfo_loop (pre ++ L_cpu_cores (Some k) :: post) vc' fc')) w1
                      = Ret 0 w').
    { intros m vc' fc' w1 H1 H2. unfold bind at 1.
      destruct (whenv_print_step m w1) as (w2 & l2 & -> & _).
      apply Hnext; assumption. }
    assert (Hvc' : forall b, (forall s, line <> L_vendor_id s) ->
               b = true \/ (exists s, In (L_vendor_id s) (line :: pre)) ->
               b = true \/ (exists s, In (L_vendor_id s) pre)).
    { intros b Hne [H | (s & [H | H])]; [left; exact H | | right; exists s; exact H].
      exfalso. exact (Hne s H). }
    assert (Hfc' : forall b, (forall f, line <> L_cpu_family f) ->
               b = true \/ (exists f, In (L_cpu_family f) (line :: pre)) ->
               b = true \/ (exists f, In (L_cpu_family f) pre)).
    { intros b Hne [H | (f & [H | H])]; [left; exact H | | right; exists f; exact H].
      exfalso. exact (Hne f H). }
    destruct line as [[s |] | f | m | n |]; cbn [app cpuinfo_loop]; cbn [accepted_line] in Ha.
    + rewrite Ha. cbn [negb]. apply Hv; [left; reflexivity |].
      apply Hfc'; [discriminate | exact Hfc].
    + discriminate Ha.
    + apply negb_true_iff in Ha. rewrite Ha. apply Hv; [| left; reflexivity].
      apply Hvc'; [discriminate | exact Hvc].
    + apply negb_true_iff in Ha. rewrite Ha.
      apply Hv; [apply Hvc' | apply Hfc']; (discriminate || assumption).
    + destruct n as [k' |]; [| discriminate Ha].
      cbn [scan_fails] in Ha. apply negb_true_iff in Ha.
      unfold bind at 1. unfold set_ncpu at 1.
      unfold bind at 1. unfold get_ncpu at 1. cbn [ncpu scan_fails orb]. rewrite Ha.
      apply Hv; [apply Hvc' | apply Hfc']; (discriminate || assumption).
    + apply Hnext; [apply Hvc' | apply Hfc']; (discriminate || assumption).
Qed.

(** X15. The scan ends at the first [cpu cores] line that follows the
    vendor and the family: when the lines up to such a line are accepted,
    [cpuIdCheck] returns 0 with [ncpu] set, and what it does is the same
    whatever lines follow, also lines that would not be accepted. *)
Theorem cpuIdCheck_stops (pre post : list cpuinfo_line) (k : Z) (w : world) :
  forallb accepted_line pre = true ->
  (exists s, In (L_vendor_id s) pre) ->
  (exists f, In (L_cpu_family f) pre) ->
  k <> 0 ->
  exists w',
    cpuIdCheck (Some (pre ++ L_cpu_cores (Some k) :: post)) w = Ret 0 w'
    /\ ncpu w' <> 0
    /\ cpuIdCheck (Some (pre ++ [L_cpu_cores (Some k)])) w = Ret 0 w'.
Proof.
  intros Hall Hvc Hfc Hk.
  destruct (cpuinfo_loop_stops pre k false false
              (with_fds w (lowest_free (List.length (fds w)) 0 (fds w) :: fds w)) Hall
              (or_intror Hvc) (or_intror Hfc) Hk) as (w' & Hn & Hrun).
  eexists. rewrite !cpuIdCheck_some, !Hrun. cbn [Z.eqb].
  split; [reflexivity |]. split; [exact Hn | reflexivity].
Qed.

Lemma cpuIdCheck_stops_witness :
  exists w',
    cpuIdCheck (Some ([L_vendor_id (Some "AuthenticAMD"%string); L_cpu_family (Some 0x14)]
                      ++ L_cpu_cores (Some 2) :: [L_model (Some 23)])) initial_world
    = Ret 0 w'
    /\ ncpu w' <> 0
    /\ cpuIdCheck (Some ([L_vendor_id (Some "AuthenticAMD"%string); L_cpu_family (Some 0x14)]
                         ++ [L_cpu_cores (Some 2)])) initial_world
       = Ret 0 w'.
Proof.
  apply (cpuIdCheck_stops [L_vendor_id (Some "AuthenticAMD"%string); L_cpu_family (Some 0x14)]
           [L_model (Some 23)] 2 initial_world).
  - reflexivity.
  - eexists. left. reflexivity.
  - eexists. right. left. reflexivity.
  - discriminate.
Defined.

(** ** The accesses of [main], on any device *)

Lemma steps_ret {A : Type} (a : A) (w : world) (R : event -> Prop) : steps (ret a) w R.
Proof.
  exists []. cbn. rewrite app_nil_r. repeat split. constructor.
Qed.

Lemma steps_exit {A : Type} (st : Z) (w : world) (R : event -> Prop) :
  steps (@exit A st) w R.
Proof.
  exists []. cbn. rewrite app_nil_r. repeat split. constructor.
Qed.

Lemma steps_undef {A : Type} (w : world) (R : event -> Prop) : steps (@undef A) w R.
Proof.
  exists []. cbn. rewrite app_nil_r. repeat split. constructor.
Qed.

Lemma steps_get_ncpu (w : world) (R : event -> Prop) : steps get_ncpu w R.
Proof.
  exists []. cbn. rewrite app_nil_r. repeat split. constructor.
Qed.

Lemma steps_emit (e : event) (w : world) (R : event -> Prop) :
  R e -> steps (emit e) w R.
Proof.
  intros He. exists [e]. cbn. repeat split. constructor; [exact He | constructor].
Qed.

Lemma steps_print (s : stream) (m : msg) (w : world) (rd wr : Z -> Z -> Prop) :
  steps (print s m) w (access rd wr).
Proof. apply steps_emit. exact I. Qed.

Lemma steps_bind {A B : Type} (m : M A) (k : A -> M B) (w : world) (R : event -> Prop) :
  steps m w R ->
  (forall a w1, m w = Ret a w1 -> verbose w1 = verbose w -> ncpu w1 = ncpu w ->
     steps (k a) w1 R) ->
  steps (bind m k) w R.
Proof.
  intros (l & Hv & Hn & Hl & HR) Hk. unfold steps, bind.
  destruct (m w) as [a w1 | st w1 | w1] eqn:Hm; cbn [final_world] in Hv, Hn, Hl |- *.
  - destruct (Hk a w1 eq_refl Hv Hn) as (l' & Hv' & Hn' & Hl' & HR').
    exists (l ++ l'). split; [congruence |]. split; [congruence |].
    split; [rewrite Hl', Hl, app_assoc; reflexivity |].
    apply Forall_app. split; assumption.
  - exists l. repeat split; assumption.
  - exists l. repeat split; assumption.
Qed.

Lemma steps_whenv (m : M unit) (w : world) (R : event -> Prop) :
  steps m w R -> steps (whenv m) w R.
Proof.
  intros Hm. unfold steps, whenv in *. destruct (verbose w) eqn:Ev.
  - exact Hm.
  - exists []. cbn. rewrite app_nil_r. repeat split; [exact Ev | constructor].
Qed.

Lemma steps_for_each {S : Type} (body : Z -> S -> M S) (idxs : list Z) (s : S)
    (w : world) (R : event -> Prop) :
  (forall i s' w1, In i idxs -> verbose w1 = verbose w -> ncpu w1 = ncpu w ->
     steps (body i s') w1 R) ->
  steps (for_each body idxs s) w R.
Proof.
  revert s w. induction idxs as [| i idxs IH]; intros s w Hb.
  - apply steps_ret.
  - cbn [for_each]. apply steps_bind.
    + apply Hb; [left; reflexivity | reflexivity | reflexivity].
    + intros s' w1 _ Hv Hn. apply IH.
      intros i' s'' w2 Hi' Hv' Hn'. apply Hb; [right; exact Hi' | congruence | congruence].
Qed.

Lemma quiet_access (l : list event) (rd wr : Z -> Z -> Prop) :
  quiet l -> Forall (access rd wr) l.
Proof.
  unfold quiet. intros H. induction H as [| e l He _ IH]; constructor; [| exact IH].
  destruct e; try discriminate He; exact I.
Qed.

Lemma steps_of_runs {A : Type} (m : M A) (w : world) (rd wr : Z -> Z -> Prop) :
  runs m w (fun _ l => quiet l) -> steps m w (access rd wr).
Proof.
  intros (a & l & Hm & Hq). exists l. rewrite Hm. cbn.
  repeat split. apply quiet_access, Hq.
Qed.

Lemma steps_rdmsr (dev : msrdev) (cpu msr pVal : Z) (w : world) (rd wr : Z -> Z -> Prop) :
  rd cpu msr -> steps (rdmsr dev cpu msr pVal) w (access rd wr).
Proof.
  intros Hrd.
  destruct (rdmsr_any dev cpu msr pVal w) as (rc & v & l & fds' & Hrun & _ & Hw & Hr & _).
  exists l. rewrite Hrun. cbn. repeat split.
  apply Forall_forall. intros e He. destruct e; try exact I.
  - destruct (Hr _ _ _ _ He) as (-> & -> & _). exact Hrd.
  - exfalso. exact (Hw _ _ _ _ He).
Qed.

Lemma steps_wrmsr (dev : msrdev) (cpu msr val : Z) (w : world) (rd wr : Z -> Z -> Prop) :
  wr cpu msr -> steps (wrmsr dev cpu msr val) w (access rd wr).
Proof.
  intros Hwr.
  destruct (wrmsr_any dev cpu msr val w) as (rc & l & fds' & Hrun & _ & Hr & Hw & _).
  exists l. rewrite Hrun. cbn. repeat split.
  apply Forall_forall. intros e He. destruct e; try exact I.
  - exfalso. exact (Hr _ _ _ _ He).
  - destruct (Hw _ _ _ _ He) as (-> & -> & _). exact Hwr.
Qed.

Lemma steps_msrtodiv (val : Z) (w : world) (rd wr : Z -> Z -> Prop) :
  steps (msrtodiv val) w (access rd wr).
Proof.
  apply steps_of_runs. apply (runs_weaken _ _ _ _ (msrtodiv_runs val w)).
  intros q l [_ Hq]. exact Hq.
Qed.

Lemma steps_divtomsr (d : cfloat) (msr : Z) (w : world) (rd wr : Z -> Z -> Prop) :
  steps (divtomsr d msr) w (access rd wr).
Proof.
  destruct (did_of_div d) as [[msd lsd] |] eqn:Hd.
  - apply steps_of_runs. apply (runs_weaken _ _ _ _ (divtomsr_runs d msr msd lsd w Hd)).
    intros q l [_ Hq]. exact Hq.
  - unfold divtomsr. rewrite Hd. apply steps_undef.
Qed.

(** Goes through a computation built from the operations above. *)
Ltac steps_auto :=
  repeat first
    [ apply steps_ret | apply steps_exit | apply steps_undef | apply steps_print
    | apply steps_get_ncpu | apply steps_msrtodiv | apply steps_divtomsr
    | apply steps_whenv
    | apply steps_bind; [| intros ? ? _ ? ?]
    | match goal with
      | |- steps (if ?b then _ else _) _ _ => destruct b
      | |- steps (match ?p with (_, _) => _ end) _ _ => destruct p
      | |- steps (let (_, _) := ?p in _) _ _ => destruct p
      end ].

Lemma steps_read_pstate (dev : msrdev) (i : Z) (l0 : locals) (w : world)
    (rd wr : Z -> Z -> Prop) :
  rd 0 (aMSR i) -> steps (read_pstate dev i l0) w (access rd wr).
Proof.
  intros Hrd. unfold read_pstate.
  apply steps_bind; [apply steps_rdmsr, Hrd |].
  intros [rc o] w1 _ _ _. steps_auto.
Qed.

Lemma steps_current_core (dev : msrdev) (i : Z) (l0 : locals) (w : world)
    (rd wr : Z -> Z -> Prop) :
  rd i 0xC0010071 -> steps (current_core dev i l0) w (access rd wr).
Proof.
  intros Hrd. unfold current_core.
  apply steps_bind; [apply steps_rdmsr, Hrd |].
  intros [rc o] w1 _ _ _. steps_auto.
Qed.

Lemma steps_write_core (dev : msrdev) (a : args) (i j : Z) (l0 : locals) (w : world)
    (rd wr : Z -> Z -> Prop) :
  rd j (aMSR i) -> wr j (aMSR i) -> steps (write_core dev a i j l0) w (access rd wr).
Proof.
  intros Hrd Hwr. unfold write_core.
  apply steps_bind; [apply steps_rdmsr, Hrd |].
  intros [rc o] w1 _ _ _.
  destruct (negb (rc =? 0)); [steps_auto |].
  apply steps_bind; [steps_auto |]. intros _ w2 _ _ _.
  apply steps_bind; [steps_auto |]. intros _ w3 _ _ _.
  apply steps_bind; [steps_auto |]. intros _ w4 _ _ _.
  apply steps_bind; [steps_auto |]. intros v w5 _ _ _.
  apply steps_bind; [apply steps_wrmsr, Hwr |]. intros rc' w6 _ _ _.
  steps_auto.
Qed.

Lemma steps_write_pstate (dev : msrdev) (a : args) (i : Z) (l0 : locals) (w : world)
    (rd wr : Z -> Z -> Prop) :
  (vidToSet a i <> 0 -> forall j, 0 <= j < ncpu w -> rd j (aMSR i) /\ wr j (aMSR i)) ->
  steps (write_pstate dev a i l0) w (access rd wr).
Proof.
  intros H. unfold write_pstate.
  destruct (Z.eqb_spec (vidToSet a i) 0) as [Hz | Hz]; cbn [negb]; [apply steps_ret |].
  apply steps_bind; [apply steps_get_ncpu |].
  intros n w1 Hn _ _. unfold get_ncpu in Hn. injection Hn as <- <-.
  apply steps_for_each. intros j s' w1 Hj _ _.
  apply range_in in Hj. destruct (H Hz j Hj) as [Hrd Hwr].
  apply steps_write_core; assumption.
Qed.

Lemma steps_check_pstate (a : args) (maxP minP i : Z) (u : unit) (w : world)
    (rd wr : Z -> Z -> Prop) :
  steps (check_pstate a maxP minP i u) w (access rd wr).
Proof. unfold check_pstate. steps_auto. Qed.

(** What follows [cpuIdCheck] in [main] accesses only the registers of
    [may_read] and [may_write], however it ends. *)
Lemma steps_apply_args (dev : msrdev) (a : args) (w : world) :
  steps (apply_args dev a) w (access (may_read a (ncpu w)) (may_write a (ncpu w))).
Proof.
  unfold apply_args.
  apply steps_bind; [apply steps_rdmsr; left; split; reflexivity |].
  intros [rc v] w1 _ _ Hn1.
  destruct (negb (rc =? 0)); [steps_auto |].
  pose proof (minPstateOf_bounds v) as Hmin. pose proof (maxPstateOf_bounds v) as Hmax.
  apply steps_bind; [steps_auto |]. intros _ w2 _ _ Hn2.
  apply steps_bind.
  { apply steps_for_each. intros i s' w3 _ _ _. apply steps_check_pstate. }
  intros _ w3 _ _ Hn3.
  apply steps_bind.
  { destruct (read a) eqn:Hr; [| apply steps_ret].
    apply steps_bind; [apply steps_print |]. intros _ w4 _ _ _.
    apply steps_for_each. intros i s' w5 Hi _ _. apply range_in in Hi.
    apply steps_read_pstate. right. left.
    split; [reflexivity |]. split; [exact Hr |]. exists i. split; [lia | reflexivity]. }
  intros l4 w4 _ _ Hn4.
  apply steps_bind.
  { apply steps_for_each. intros i s' w5 Hi _ Hn5. apply range_in in Hi.
    apply steps_write_pstate. intros Hp j Hj.
    assert (Hj' : 0 <= j < ncpu w) by congruence.
    split.
    - right. right. right. split; [exact Hj' |].
      exists i. split; [lia | split; [exact Hp | reflexivity]].
    - split; [exact Hj' |].
      exists i. split; [lia | split; [exact Hp | reflexivity]]. }
  intros l5 w5 _ _ Hn5.
  apply steps_bind; [| intros; apply steps_exit].
  destruct (current a) eqn:Hc; [| apply steps_ret].
  apply steps_bind; [apply steps_get_ncpu |].
  intros n w6 Hn _ _. unfold get_ncpu in Hn. injection Hn as <- <-.
  apply steps_for_each. intros j s' w7 Hj _ _. apply range_in in Hj.
  apply steps_current_core. right. right. left.
  split; [congruence |]. split; [exact Hc | reflexivity].
Qed.

(** What [cpuIdCheck] leaves, however it ends. *)
Lemma cpuIdCheck_post (cpuinfo : option (list cpuinfo_line)) (w : world) :
  verbose (final_world (cpuIdCheck cpuinfo w)) = verbose w
  /\ (ncpu (final_world (cpuIdCheck cpuinfo w)) = ncpu w
      \/ exists lines k,
           cpuinfo = Some lines /\ In (L_cpu_cores (Some k)) lines
           /\ ncpu (final_world (cpuIdCheck cpuinfo w)) = k)
  /\ exists l,
       log (final_world (cpuIdCheck cpuinfo w)) = log w ++ l /\ quiet l
       /\ match cpuIdCheck cpuinfo w with
          | Exit st _ => st = 1
          | _ => True
          end.
Proof.
  destruct cpuinfo as [lines |].
  - destruct (cpuIdCheck_of_loop lines w) as (o & (Hv & _ & Hn & l & Hl & Hq & Ho) & Hrun).
    cbn [verbose ncpu log with_fds] in Hv, Hn, Hl.
    assert (Hn' : forall w', ncpu w' = ncpu (final_world o) ->
              ncpu w' = ncpu w
              \/ exists lines0 k,
                   Some lines = Some lines0 /\ In (L_cpu_cores (Some k)) lines0
                   /\ ncpu w' = k).
    { intros w' E. destruct Hn as [Hn | (k & Hin & Hk)].
      - left. congruence.
      - right. exists lines, k. split; [reflexivity |]. split; [exact Hin | congruence]. }
    destruct o as [r w1 | st w1 | w1]; cbn [final_world] in Hv, Hl, Hn'.
    + destruct Hrun as [[_ Hrun] | [_ Hrun]]; rewrite Hrun;
        cbn [final_world verbose ncpu log with_fds];
        (split; [exact Hv |]); (split; [apply Hn'; reflexivity |]);
        exists l; repeat split; assumption.
    + rewrite Hrun. cbn [final_world].
      split; [exact Hv |]. split; [apply Hn'; reflexivity |].
      exists l. split; [exact Hl |]. split; [exact Hq |]. destruct Ho as [Ho _]. exact Ho.
    + rewrite Hrun. cbn [final_world].
      split; [exact Hv |]. split; [apply Hn'; reflexivity |].
      exists l. repeat split; assumption.
  - unfold cpuIdCheck, bind, perror, emit, exit. cbn [final_world verbose ncpu log add_log].
    split; [reflexivity |]. split; [left; reflexivity |].
    exists [Perror "Opening /proc/cpuinfo"].
    split; [reflexivity |]. split; [repeat constructor | reflexivity].
Qed.

Lemma getopt_loop_ncpu (argv : list opt) (a : args) (w : world) :
  ncpu (final_world (getopt_loop argv a w)) = ncpu w.
Proof.
  revert a w. induction argv as [| o rest IH]; intros a w; [reflexivity |].
  assert (Hp : forall p v d,
            ncpu (final_world (set_pstate a p v d (getopt_loop rest) w)) = ncpu w).
  { intros p v d. unfold set_pstate.
    destruct ((p <? 0) || (p >=? 8)); [reflexivity |].
    destruct (negb (vidToSet a p =? 0)); [reflexivity |].
    unfold bind at 1.
    destruct (whenv_print_step (VidToSet v (voltage v) d p) w) as (w2 & l2 & -> & _ & E & _).
    rewrite IH. exact E. }
  destruct o as [| | | | optarg [n | p v | p v d] | [|] arg]; cbn [getopt_loop];
    try reflexivity; try apply Hp; try apply IH.
  unfold bind, set_verbose. rewrite IH. reflexivity.
Qed.

(** The whole run: the events of the log, for the table of the options
    (the initial one when the option loop does not return) and the number
    of cores at the end. *)
Lemma main_trace (dev : msrdev) (cpuinfo : option (list cpuinfo_line)) (argv : list opt) :
  let w' := final_world (main dev cpuinfo argv initial_world) in
  exists a,
    Forall (access (may_read a (ncpu w')) (may_write a (ncpu w'))) (log w')
    /\ (forall i, vidToSet a i <> 0 -> requested argv i)
    /\ (read a = true -> In Opt_r argv)
    /\ (current a = true -> In Opt_c argv)
    /\ (ncpu w' = 0
        \/ exists lines, cpuinfo = Some lines /\ In (L_cpu_cores (Some (ncpu w'))) lines).
Proof.
  cbv zeta. unfold main, bind.
  pose proof (getopt_loop_spec argv initial_args initial_world) as Hspec.
  destruct (getopt_loop argv initial_args initial_world) as [a w1 | st w1 | w1] eqn:Hopt.
  - destruct (getopt_loop_table argv initial_args a initial_world w1 Hopt)
      as (_ & I2 & I3 & I4 & _ & I6 & _).
    cbn [initial_args initial_world vidToSet read current verbose ncpu] in I2, I3, I4, I6.
    destruct Hspec as [(l1 & Hl1 & Hq1) _]. cbn [log initial_world app] in Hl1.
    exists a.
    assert (Hreq : forall i, vidToSet a i <> 0 -> requested argv i).
    { intros i Hnz. destruct (I2 i) as [E | (o & v & Hin & E & Hs)]; [contradiction |].
      exists o, v. split; [exact Hin |]. split; [exact E | rewrite <- Hs; exact Hnz]. }
    assert (Hr : read a = true -> In Opt_r argv).
    { intros H. apply I3 in H. destruct H as [H | H]; [discriminate H | exact H]. }
    assert (Hc : current a = true -> In Opt_c argv).
    { intros H. apply I4 in H. destruct H as [H | H]; [discriminate H | exact H]. }
    assert (Hcpu : exists l2,
               log (final_world (cpuIdCheck cpuinfo w1)) = log w1 ++ l2 /\ quiet l2
               /\ (ncpu (final_world (cpuIdCheck cpuinfo w1)) = 0
                   \/ exists lines, cpuinfo = Some lines
                        /\ In (L_cpu_cores
                                 (Some (ncpu (final_world (cpuIdCheck cpuinfo w1))))) lines)).
    { destruct (cpuIdCheck_post cpuinfo w1) as (_ & Hn & l & Hl & Hq & _).
      exists l. split; [exact Hl |]. split; [exact Hq |].
      destruct Hn as [Hn | (lines & k & E & Hin & Hk)].
      - left. rewrite Hn. exact I6.
      - right. exists lines. split; [exact E |]. rewrite Hk. exact Hin. }
    destruct Hcpu as (l2 & Hl2 & Hq2 & Hn2).
    destruct (cpuIdCheck cpuinfo w1) as [r w2 | st w2 | w2];
      cbn [final_world] in Hl2, Hn2 |- *; cbv beta.
    + destruct (steps_apply_args dev a w2) as (l3 & _ & Hn3 & Hl3 & HR).
      rewrite Hn3, Hl3, Hl2, Hl1.
      split; [| repeat split; assumption].
      apply Forall_app. split; [| exact HR].
      apply quiet_access, quiet_app; assumption.
    + rewrite Hl2, Hl1. split; [| repeat split; assumption].
      apply quiet_access, quiet_app; assumption.
    + rewrite Hl2, Hl1. split; [| repeat split; assumption].
      apply quiet_access, quiet_app; assumption.
  - exists initial_args. cbn [final_world].
    destruct Hspec as [_ Hf]. apply parse_fatal_quiet in Hf.
    destruct Hf as (l & Hl & Hq). cbn [log initial_world app] in Hl.
    pose proof (getopt_loop_ncpu argv initial_args initial_world) as Hn.
    rewrite Hopt in Hn. cbn [final_world ncpu initial_world] in Hn.
    rewrite Hl, Hn.
    split; [apply quiet_access, Hq |].
    split; [intros i Hi; exfalso; apply Hi; reflexivity |].
    split; [discriminate |]. split; [discriminate | left; reflexivity].
  - contradiction.
Qed.

Lemma access_forall_in (rd wr : Z -> Z -> Prop) (l : list event) :
  Forall (access rd wr) l ->
  (forall c m v n, In (SysWrite c m v n) l -> wr c m)
  /\ (forall c m n d, In (SysRead c m n d) l -> rd c m).
Proof.
  intros H. rewrite Forall_forall in H.
  split; intros c m x y Hin; exact (H _ Hin).
Qed.

Lemma no_write_hw_writes (l : list event) :
  (forall c m v n, ~ In (SysWrite c m v n) l) -> hw_writes l = [].
Proof.
  intros Hw. unfold hw_writes. induction l as [| e l IH]; [reflexivity |].
  cbn [filter]. destruct e; cbn [is_write];
    try (apply IH; intros c0 m0 x0 n0 Hin; apply (Hw c0 m0 x0 n0); right; exact Hin).
  exfalso. eapply Hw. left. reflexivity.
Qed.

(** X16. On any device, with any [/proc/cpuinfo] and any command line,
    and however the run ends, every [write] that [main] issues is to the
    P-state register of an index in [0, 8) for which the command line
    requests an edit with an identifier that is not 0, on a core below
    [ncpu]; and every [read] is of the status register 0xC0010061 on core
    0, of a P-state register on core 0 under [-r], of the register
    0xC0010071 on a core below [ncpu] under [-c], or of the register of
    such a requested edit.  In particular the two status registers are
    never written, and a run without such a request writes nothing. *)
Theorem main_accesses (dev : msrdev) (cpuinfo : option (list cpuinfo_line))
    (argv : list opt) :
  let w' := final_world (main dev cpuinfo argv initial_world) in
  (forall c m v n, In (SysWrite c m v n) (log w') ->
     0 <= c < ncpu w' /\ exists i, 0 <= i < 8 /\ m = aMSR i /\ requested argv i)
  /\ (forall c m n d, In (SysRead c m n d) (log w') ->
        (c = 0 /\ m = 0xC0010061)
        \/ (c = 0 /\ In Opt_r argv /\ exists i, 0 <= i < 8 /\ m = aMSR i)
        \/ (0 <= c < ncpu w' /\ In Opt_c argv /\ m = 0xC0010071)
        \/ (0 <= c < ncpu w' /\ exists i, 0 <= i < 8 /\ m = aMSR i /\ requested argv i)).
Proof.
  destruct (main_trace dev cpuinfo argv) as (a & HR & Hreq & Hr & Hc & _).
  cbv zeta. apply access_forall_in in HR. destruct HR as [Hw Hrd]. split.
  - intros c m v n Hin. destruct (Hw c m v n Hin) as (Hcpu & i & Hi & Hp & ->).
    split; [exact Hcpu |]. exists i. split; [exact Hi |]. split; [reflexivity | apply Hreq, Hp].
  - intros c m n d Hin.
    destruct (Hrd c m n d Hin)
      as [H | [(H1 & H2 & H3) | [(H1 & H2 & H3) | (H1 & i & Hi & Hp & ->)]]].
    + left. exact H.
    + right. left. split; [exact H1 |]. split; [apply Hr, H2 | exact H3].
    + right. right. left. split; [exact H1 |]. split; [apply Hc, H2 | exact H3].
    + right. right. right. split; [exact H1 |].
      exists i. split; [exact Hi |]. split; [reflexivity | apply Hreq, Hp].
Qed.

Lemma write_pstate_no_cores (dev : msrdev) (a : args) (i : Z) (l0 : locals) (w : world) :
  ncpu w = 0 -> write_pstate dev a i l0 w = Ret l0 w.
Proof.
  intros Hn. unfold write_pstate.
  destruct (negb (vidToSet a i =? 0)); [| reflexivity].
  unfold bind, get_ncpu. rewrite Hn. reflexivity.
Qed.

(** On a device that works and with [ncpu = 0], what follows [cpuIdCheck]
    in [main] goes to [exit(0)]. *)
Lemma apply_args_no_cores (dev : msrdev) (a : args) (w : world) :
  dev_ok dev -> ncpu w = 0 -> exits (apply_args dev a) w 0 (fun _ => True).
Proof.
  intros Hok Hn. unfold apply_args.
  apply exits_bind.
  apply (runs_weaken _ _ _ _ (rdmsr_ok dev 0 0xC0010061 0 w Hok ltac:(lia))).
  intros [rc v] l1 (Hrc & _). cbn [fst snd] in *. subst rc.
  change (negb (0 =? 0)) with false. cbv iota.
  apply exits_bind.
  assert (Hbeware : forall w',
             runs (if negb (minPstateOf v =? 0) then whenv (print Stdout Beware) else ret tt) w'
                  (fun _ _ => True)).
  { intros w'. destruct (negb (minPstateOf v =? 0)).
    - apply runs_whenv; [exact I | apply runs_print; exact I].
    - apply runs_ret. exact I. }
  apply (runs_weaken _ _ _ _ (Hbeware _)). intros _ l2 _.
  apply exits_bind.
  apply (runs_weaken _ _ _ _ (check_loop_runs a (maxPstateOf v) (minPstateOf v) _)).
  intros _ l3 _.
  apply exits_bind.
  assert (Hread : forall w',
             runs (if read a
                   then bind (print Stdout TableHeader)
                          (fun _ => for_each (read_pstate dev)
                                      (range (minPstateOf v) (maxPstateOf v + 1))
                                      {| val := v; oMSR := fun _ => 0 |})
                   else ret {| val := v; oMSR := fun _ => 0 |}) w'
                  (fun _ _ => True)).
  { intros w'. destruct (read a).
    - apply runs_bind, runs_print.
      apply (runs_weaken _ _ _ _ (quiet_loop_runs _ _ _ _ (read_pstate_runs dev Hok))).
      intros _ l _. exact I.
    - apply runs_ret. exact I. }
  apply (runs_weaken _ _ _ _ (Hread _)). intros s4 l4 _.
  apply exits_bind.
  assert (Hwrite : forall idxs s w', ncpu w' = 0 ->
             runs (for_each (write_pstate dev a) idxs s) w' (fun _ _ => True)).
  { induction idxs as [| i idxs IH]; intros s w' Hn'.
    - apply runs_ret. exact I.
    - cbn [for_each]. apply runs_bind.
      exists s, []. rewrite add_log_nil.
      split; [apply write_pstate_no_cores, Hn' |].
      apply (runs_weaken _ _ _ _ (IH s w' Hn')).
      intros _ l _. exact I. }
  eapply runs_weaken; [apply Hwrite; exact Hn |]. intros s5 l5 _.
  apply exits_bind.
  assert (Hcur : forall w', ncpu w' = 0 ->
             runs (if current a
                   then bind get_ncpu (fun n => for_each (current_core dev) (range 0 n) s5)
                   else ret s5) w'
                  (fun _ _ => True)).
  { intros w' Hn'. destruct (current a).
    - apply runs_bind, runs_get_ncpu. rewrite Hn'. apply runs_ret. exact I.
    - apply runs_ret. exact I. }
  eapply runs_weaken; [apply Hcur; exact Hn |]. intros s6 l6 _.
  apply exits_exit. exact I.
Qed.

(** X17. When [/proc/cpuinfo] has no [cpu cores] line, [ncpu] stays 0 and
    [main] writes no register, whatever edits the command line requests,
    and it reads no register on a core other than core 0; on a device
    that works, once the options are accepted and [cpuIdCheck] has
    returned, the run still ends with [exit(0)]. *)
Theorem no_cores_no_write (dev : msrdev) (lines : list cpuinfo_line) (argv : list opt) :
  (forall n, ~ In (L_cpu_cores n) lines) ->
  let o := main dev (Some lines) argv initial_world in
  ncpu (final_world o) = 0
  /\ hw_writes (log (final_world o)) = []
  /\ (forall c m n d, In (SysRead c m n d) (log (final_world o)) -> c = 0)
  /\ (dev_ok dev ->
      forall a w1 r w2,
        getopt_loop argv initial_args initial_world = Ret a w1 ->
        cpuIdCheck (Some lines) w1 = Ret r w2 ->
        exists w', o = Exit 0 w').
Proof.
  intros Hno. cbv zeta.
  destruct (main_trace dev (Some lines) argv) as (a & HR & _ & _ & _ & Hn).
  cbv zeta in HR, Hn.
  assert (Hn0 : ncpu (final_world (main dev (Some lines) argv initial_world)) = 0).
  { destruct Hn as [Hn | (lines' & E & Hin)]; [exact Hn |].
    injection E as <-. exfalso. exact (Hno _ Hin). }
  rewrite Hn0 in HR. apply access_forall_in in HR. destruct HR as [Hw Hrd].
  split; [exact Hn0 |]. split; [| split].
  - apply no_write_hw_writes. intros c m v n Hin.
    destruct (Hw c m v n Hin) as [Hc _]. lia.
  - intros c m n d Hin.
    destruct (Hrd c m n d Hin) as [[H _] | [[H _] | [[H _] | [H _]]]];
      [exact H | exact H | lia | lia].
  - intros Hok a' w1 r w2 Hopt Hcpu.
    assert (Hn2 : ncpu w2 = 0).
    { pose proof (getopt_loop_ncpu argv initial_args initial_world) as H1.
      rewrite Hopt in H1. cbn [final_world ncpu initial_world] in H1.
      destruct (cpuIdCheck_post (Some lines) w1) as (_ & H2 & _).
      rewrite Hcpu in H2. cbn [final_world] in H2.
      destruct H2 as [H2 | (lines' & k & E & Hin & _)]; [congruence |].
      injection E as <-. exfalso. exact (Hno _ Hin). }
    destruct (apply_args_no_cores dev a' w2 Hok Hn2) as (l & Hrun & _).
    exists (add_log w2 l). unfold main, bind. rewrite Hopt, Hcpu. exact Hrun.
Qed.

Lemma no_cores_no_write_witness :
  ncpu (final_world
          (main (good_dev sample_regs)
                (Some [L_vendor_id (Some "AuthenticAMD"%string); L_cpu_family (Some 0x14)])
                [Opt_p "1:0x20" (Scan2 1 0x20)] initial_world)) = 0
  /\ hw_writes
       (log (final_world
               (main (good_dev sample_regs)
                     (Some [L_vendor_id (Some "AuthenticAMD"%string);
                            L_cpu_family (Some 0x14)])
                     [Opt_p "1:0x20" (Scan2 1 0x20)] initial_world))) = []
  /\ (forall c m n d,
        In (SysRead c m n d)
           (log (final_world
                   (main (good_dev sample_regs)
                         (Some [L_vendor_id (Some "AuthenticAMD"%string);
                                L_cpu_family (Some 0x14)])
                         [Opt_p "1:0x20" (Scan2 1 0x20)] initial_world))) ->
        c = 0)
  /\ (dev_ok (good_dev sample_regs) ->
      forall a w1 r w2,
        getopt_loop [Opt_p "1:0x20" (Scan2 1 0x20)] initial_args initial_world = Ret a w1 ->
        cpuIdCheck (Some [L_vendor_id (Some "AuthenticAMD"%string);
                          L_cpu_family (Some 0x14)]) w1 = Ret r w2 ->
        exists w',
          main (good_dev sample_regs)
               (Some [L_vendor_id (Some "AuthenticAMD"%string); L_cpu_family (Some 0x14)])
               [Opt_p "1:0x20" (Scan2 1 0x20)] initial_world = Exit 0 w').
Proof.
  apply (no_cores_no_write (good_dev sample_regs)
           [L_vendor_id (Some "AuthenticAMD"%string); L_cpu_family (Some 0x14)]
           [Opt_p "1:0x20" (Scan2 1 0x20)]).
  intros n Hin. cbn [In] in Hin.
  destruct Hin as [H | [H | H]]; [discriminate H | discriminate H | exact H].
Defined.

Lemma cpuIdCheck_verdict_status (cpuinfo : option (list cpuinfo_line)) (w : world) :
  match cpuIdCheck cpuinfo w with
  | Exit st _ => st = 1
  | _ => True
  end.
Proof.
  destruct (cpuIdCheck_post cpuinfo w) as (_ & _ & l & _ & _ & H). exact H.
Qed.

(** What follows [cpuIdCheck] when the read of the status register
    transfers fewer than 8 bytes. *)
Lemma apply_args_status_failure (dev : msrdev) (a : args) (w : world) :
  (forall h, fst (dev_read dev h 0 0xC0010061) < 8) ->
  exists w' l,
    apply_args dev a w = Exit 1 w'
    /\ log w' = log w ++ l ++ [Print Stderr FailedReadingMsr]
    /\ (forall c m v n, ~ In (SysWrite c m v n) l)
    /\ (forall c m n d, In (SysRead c m n d) l -> c = 0 /\ m = 0xC0010061).
Proof.
  intros Hfail.
  destruct (rdmsr_any dev 0 0xC0010061 0 w)
    as (rc & v & l & fds' & Hrun & Hrc & Hw & Hr & H0 & _).
  assert (E : rc = 1).
  { destruct Hrc as [Hrc | Hrc]; [| exact Hrc].
    destruct (H0 Hrc) as (_ & _ & _ & n & Hn & Hin).
    destruct (Hr _ _ _ _ Hin) as (_ & _ & _ & h & Eh).
    specialize (Hfail h). lia. }
  subst rc. unfold apply_args, bind. rewrite Hrun.
  change (negb (1 =? 0)) with true. cbv iota.
  unfold print, emit, exit, add_log. cbn [verbose ncpu fds log].
  eexists _, l. split; [reflexivity |]. cbn [log].
  split; [rewrite app_assoc; reflexivity |].
  split; [exact Hw |].
  intros c m n d Hin. destruct (Hr c m n d Hin) as (-> & -> & _). split; reflexivity.
Qed.

(** X18. When the [read] of the status register 0xC0010061 never
    transfers 8 bytes, no run of [main] ends with [exit(0)], none writes a
    register, and none reads another register; once the options are
    accepted and [cpuIdCheck] has returned, the run ends with status 1
    right after the message that reading the register failed. *)
Theorem status_read_failure (dev : msrdev) (cpuinfo : option (list cpuinfo_line))
    (argv : list opt) :
  (forall h, fst (dev_read dev h 0 0xC0010061) < 8) ->
  let o := main dev cpuinfo argv initial_world in
  (forall w', o <> Exit 0 w')
  /\ hw_writes (log (final_world o)) = []
  /\ (forall c m n d, In (SysRead c m n d) (log (final_world o)) ->
        c = 0 /\ m = 0xC0010061)
  /\ (forall a w1 r w2,
        getopt_loop argv initial_args initial_world = Ret a w1 ->
        cpuIdCheck cpuinfo w1 = Ret r w2 ->
        exists w' l, o = Exit 1 w' /\ log w' = l ++ [Print Stderr FailedReadingMsr]).
Proof.
  intros Hfail. cbv zeta. unfold main, bind.
  assert (Hquiet : forall l, quiet l ->
            hw_writes l = []
            /\ (forall c m n d, In (SysRead c m n d) l -> c = 0 /\ m = 0xC0010061)).
  { intros l Hq. split; [apply quiet_hw_writes, Hq |].
    intros c m n d Hin. unfold quiet in Hq. rewrite Forall_forall in Hq.
    specialize (Hq _ Hin). discriminate Hq. }
  pose proof (getopt_loop_spec argv initial_args initial_world) as Hspec.
  destruct (getopt_loop argv initial_args initial_world) as [a w1 | st w1 | w1].
  - destruct Hspec as [(l1 & Hl1 & Hq1) _]. cbn [log initial_world app] in Hl1.
    pose proof (cpuIdCheck_quiet cpuinfo w1) as (l2 & Hl2 & Hq2).
    pose proof (cpuIdCheck_verdict_status cpuinfo w1) as Hst.
    destruct (cpuIdCheck cpuinfo w1) as [r w2 | st w2 | w2] eqn:Ecpu;
      cbn [final_world] in *.
    + destruct (apply_args_status_failure dev a w2 Hfail) as (w' & l3 & Hrun & Hl3 & Hw & Hr).
      rewrite Hrun. cbn [final_world].
      split; [intros w'' E; discriminate E |].
      rewrite Hl3, Hl2, Hl1.
      destruct (Hquiet (l1 ++ l2) ltac:(apply quiet_app; assumption)) as [Q1 Q2].
      split; [| split].
      * unfold hw_writes in *. rewrite filter_app, Q1, filter_app.
        cbn [app filter is_write]. rewrite app_nil_r.
        apply (no_write_hw_writes l3 Hw).
      * intros c m n d Hin. rewrite !in_app_iff in Hin. cbn [In] in Hin.
        destruct Hin as [Hin | [Hin | [Hin | []]]].
        -- apply (Q2 c m n d). apply in_or_app. exact Hin.
        -- exact (Hr c m n d Hin).
        -- discriminate Hin.
      * intros a' w1' r' w2' E1 E2. injection E1 as <- <-.
        rewrite Ecpu in E2. injection E2 as <- <-.
        eexists w', _. split; [reflexivity |].
        rewrite Hl3, Hl2, Hl1, app_assoc. reflexivity.
    + split; [intros w'' E; injection E as E _; rewrite Hst in E; discriminate E |].
      rewrite Hl2, Hl1.
      destruct (Hquiet (l1 ++ l2) ltac:(apply quiet_app; assumption)) as [Q1 Q2].
      split; [exact Q1 |]. split; [exact Q2 |].
      intros a' w1' r' w2' E1 E2. injection E1 as <- <-.
      rewrite Ecpu in E2. discriminate E2.
    + split; [intros w'' E; discriminate E |].
      rewrite Hl2, Hl1.
      destruct (Hquiet (l1 ++ l2) ltac:(apply quiet_app; assumption)) as [Q1 Q2].
      split; [exact Q1 |]. split; [exact Q2 |].
      intros a' w1' r' w2' E1 E2. injection E1 as <- <-.
      rewrite Ecpu in E2. discriminate E2.
  - destruct Hspec as [-> Hf]. apply parse_fatal_quiet in Hf.
    destruct Hf as (l & Hl & Hq). cbn [log initial_world app] in Hl.
    cbn [final_world]. rewrite Hl.
    destruct (Hquiet l Hq) as [Q1 Q2].
    split; [intros w'' E; discriminate E |].
    split; [exact Q1 |]. split; [exact Q2 |].
    intros a' w1' r' w2' E1. discriminate E1.
  - contradiction.
Qed.

Lemma status_read_failure_witness :
  (forall w', main io_error_dev sample_cpuinfo sample_argv initial_world <> Exit 0 w')
  /\ hw_writes (log (final_world (main io_error_dev sample_cpuinfo sample_argv initial_world)))
     = []
  /\ (forall c m n d,
        In (SysRead c m n d)
           (log (final_world (main io_error_dev sample_cpuinfo sample_argv initial_world))) ->
        c = 0 /\ m = 0xC0010061)
  /\ (forall a w1 r w2,
        getopt_loop sample_argv initial_args initial_world = Ret a w1 ->
        cpuIdCheck sample_cpuinfo w1 = Ret r w2 ->
        exists w' l,
          main io_error_dev sample_cpuinfo sample_argv initial_world = Exit 1 w'
          /\ log w' = l ++ [Print Stderr FailedReadingMsr]).
Proof.
  apply (status_read_failure io_error_dev sample_cpuinfo sample_argv).
  intros h. cbn. lia.
Defined.

(** ** The table of [-r] and an edit with a divisor, on a device that works *)

(** One iteration of the [-r] loop: the register of the P-state is read
    on core 0 and a row is printed with the fields of the word read. *)
Lemma read_pstate_reports (dev : msrdev) (i : Z) (l0 : locals) (w : world) :
  dev_ok dev ->
  runs (read_pstate dev i l0) w
       (fun _ l =>
          no_writes l
          /\ exists h,
               let o := u64 (snd (dev_read dev h 0 (aMSR i))) in
               In (SysRead 0 (aMSR i) 8 o) l
               /\ In (Print Stdout
                        (TableRow i (decodeVoltageIdentifier o)
                                  (voltage (s64 (decodeVoltageIdentifier o)))
                                  (div_of_fields (DidMSD o) (DidLSD o)))) l).
Proof.
  intros Hok. unfold read_pstate. apply runs_bind.
  apply (runs_weaken _ _ _ _ (rdmsr_ok dev 0 (aMSR i) _ w Hok (aMSR_nonneg i))).
  intros [rc o] l1 (Hrc & (h & Ho) & Hrd & Hnw). cbn [fst snd] in *. subst rc.
  change (negb (0 =? 0)) with false. cbv iota.
  apply runs_bind.
  apply (runs_weaken _ _ _ _ (msrtodiv_runs o _)).
  intros d l2 [-> Hq]. apply runs_bind, runs_print, runs_ret.
  split; [auto 10 with runs |].
  exists h. cbv zeta. rewrite <- Ho. rewrite !in_app_iff. cbn [In]. tauto.
Qed.

Lemma read_loop_reports (dev : msrdev) (lo hi : Z) (l0 : locals) (w : world) :
  dev_ok dev ->
  runs (for_each (read_pstate dev) (range lo hi) l0) w
       (fun _ l =>
          no_writes l
          /\ forall i, lo <= i < hi ->
               exists h,
                 let o := u64 (snd (dev_read dev h 0 (aMSR i))) in
                 In (SysRead 0 (aMSR i) 8 o) l
                 /\ In (Print Stdout
                          (TableRow i (decodeVoltageIdentifier o)
                                    (voltage (s64 (decodeVoltageIdentifier o)))
                                    (div_of_fields (DidMSD o) (DidLSD o)))) l).
Proof.
  intros Hok.
  pose (Inv := fun (done : list Z) (_ : locals) (l : list event) =>
                 no_writes l
                 /\ forall i, In i done ->
                      exists h,
                        let o := u64 (snd (dev_read dev h 0 (aMSR i))) in
                        In (SysRead 0 (aMSR i) 8 o) l
                        /\ In (Print Stdout
                                 (TableRow i (decodeVoltageIdentifier o)
                                           (voltage (s64 (decodeVoltageIdentifier o)))
                                           (div_of_fields (DidMSD o) (DidLSD o)))) l).
  assert (H0 : Inv [] l0 []) by (split; [apply no_writes_nil | intros i []]).
  assert (Hbody : forall done i s l,
             (exists rest, range lo hi = done ++ i :: rest) -> Inv done s l ->
             runs (read_pstate dev i s) (add_log w l)
                  (fun s' l' => Inv (done ++ [i]) s' (l ++ l'))).
  { intros done i s l _ [Hnw Hin].
    apply (runs_weaken _ _ _ _ (read_pstate_reports dev i s _ Hok)).
    intros s' l' [Hnw' (h & H1 & H2)]. split; [apply no_writes_app; assumption |].
    intros i' Hi'. apply in_app_or in Hi'. destruct Hi' as [Hi' | [<- | []]].
    - destruct (Hin i' Hi') as (h' & H1' & H2'). exists h'. cbv zeta in *.
      split; apply in_or_app; left; assumption.
    - exists h. cbv zeta in *. split; apply in_or_app; right; assumption. }
  apply (runs_weaken _ _ _ _ (runs_for_each _ Inv _ l0 w H0 Hbody)).
  intros s l [Hnw Hin]. split; [exact Hnw |].
  intros i Hi. apply Hin, in_range, Hi.
Qed.

(** What [main] does after [cpuIdCheck] under [-r], when the status
    register reads as [st]. *)
Lemma apply_args_report (dev : msrdev) (a : args) (w : world) (st : Z) :
  dev_ok dev ->
  (forall h, snd (dev_read dev h 0 0xC0010061) = st) ->
  (forall i, minPstateOf (u64 st) <= i <= maxPstateOf (u64 st) -> vidToSet a i <> 0 ->
     float_neq_zero (divToSet a i) = true -> did_of_div (divToSet a i) <> None) ->
  read a = true ->
  exits (apply_args dev a) w 0
        (fun l =>
           In (Print Stdout TableHeader) l
           /\ forall i, minPstateOf (u64 st) <= i <= maxPstateOf (u64 st) ->
                exists h,
                  let o := u64 (snd (dev_read dev h 0 (aMSR i))) in
                  In (SysRead 0 (aMSR i) 8 o) l
                  /\ In (Print Stdout
                           (TableRow i (decodeVoltageIdentifier o)
                                     (voltage (s64 (decodeVoltageIdentifier o)))
                                     (div_of_fields (DidMSD o) (DidLSD o)))) l).
Proof.
  intros Hok Hst Hdef Hread. unfold apply_args. rewrite Hread.
  apply exits_bind.
  apply (runs_weaken _ _ _ _ (rdmsr_ok dev 0 0xC0010061 0 w Hok ltac:(lia))).
  intros [rc v] l1 (Hrc & (h & Hv) & _). cbn [fst snd] in *. subst rc.
  rewrite Hst in Hv. subst v.
  change (negb (0 =? 0)) with false. cbv iota.
  set (minP := minPstateOf (u64 st)) in *. set (maxP := maxPstateOf (u64 st)) in *.
  apply exits_bind.
  assert (Hbeware : forall w',
             runs (if negb (minP =? 0) then whenv (print Stdout Beware) else ret tt) w'
                  (fun _ _ => True)).
  { intros w'. destruct (negb (minP =? 0)).
    - apply runs_whenv; [exact I | apply runs_print; exact I].
    - apply runs_ret. exact I. }
  apply (runs_weaken _ _ _ _ (Hbeware _)). intros _ l2 _.
  apply exits_bind.
  apply (runs_weaken _ _ _ _ (check_loop_runs a maxP minP _)). intros _ l3 _.
  apply exits_bind, runs_bind, runs_print.
  apply (runs_weaken _ _ _ _ (read_loop_reports dev minP (maxP + 1) _ _ Hok)).
  intros s4 l4 [_ Hrows].
  apply exits_bind.
  assert (Hdef' : forall i, minP <= i < maxP + 1 -> vidToSet a i <> 0 ->
             float_neq_zero (divToSet a i) = true -> did_of_div (divToSet a i) <> None).
  { intros i Hi. apply Hdef. lia. }
  apply (runs_weaken _ _ _ _ (write_loop_runs dev Hok a minP (maxP + 1) s4 _ Hdef')).
  intros s5 l5 _.
  apply exits_bind.
  assert (Hcur : forall w',
             runs (if current a
                   then bind get_ncpu (fun n => for_each (current_core dev) (range 0 n) s5)
                   else ret s5) w'
                  (fun _ _ => True)).
  { intros w'. destruct (current a).
    - apply runs_bind, runs_get_ncpu.
      apply (runs_weaken _ _ _ _ (quiet_loop_runs _ _ _ _ (current_core_runs dev Hok))).
      intros _ l _. exact I.
    - apply runs_ret. exact I. }
  apply (runs_weaken _ _ _ _ (Hcur _)). intros s6 l6 _.
  apply exits_exit.
  split; [rewrite !in_app_iff; cbn [In]; tauto |].
  intros i Hi. destruct (Hrows i ltac:(lia)) as (h' & H1 & H2).
  exists h'. cbv zeta in *. rewrite !in_app_iff. tauto.
Qed.

(** X19. Under [-r], on a device that works, once the options are
    accepted and [cpuIdCheck] has returned, and with divisors to set that
    are in the range of the conversions of [divtomsr], [main] prints the
    header of the table and, for every P-state index from [minPstate] to
    [maxPstate] of the status register, reads the register of that
    P-state on core 0 and prints a row with the index, the Vid field of
    the word read, the voltage of that field, and the divisor
    [DidMSD + DidLSD * 0.25 + 1] of the word; it goes on to [exit(0)]. *)
Theorem read_report (dev : msrdev) (cpuinfo : option (list cpuinfo_line))
    (argv : list opt) (st : Z) (a : args) (w1 : world) (r : Z) (w2 : world) :
  dev_ok dev ->
  (forall h, snd (dev_read dev h 0 0xC0010061) = st) ->
  getopt_loop argv initial_args initial_world = Ret a w1 ->
  cpuIdCheck cpuinfo w1 = Ret r w2 ->
  divisors_defined a ->
  In Opt_r argv ->
  exists w',
    main dev cpuinfo argv initial_world = Exit 0 w'
    /\ In (Print Stdout TableHeader) (log w')
    /\ forall i, minPstateOf (u64 st) <= i <= maxPstateOf (u64 st) ->
         exists o d,
           In (SysRead 0 (aMSR i) 8 o) (log w')
           /\ In (Print Stdout
                    (TableRow i (decodeVoltageIdentifier o)
                              (voltage (s64 (decodeVoltageIdentifier o))) d)) (log w')
           /\ (d == inject_Z (DidMSD o) + inject_Z (DidLSD o) * (25 # 100) + 1)%Q.
Proof.
  intros Hok Hst Hopt Hcpu Hdef Hr.
  assert (Hread : read a = true).
  { destruct (getopt_loop_table argv initial_args a initial_world w1 Hopt)
      as (_ & _ & I3 & _).
    apply I3. right. exact Hr. }
  destruct (apply_args_report dev a w2 st Hok Hst (divisors_defined_in_range a st Hdef) Hread)
    as (l & Hrun & Hhead & Hrows).
  exists (add_log w2 l). split.
  { unfold main, bind. rewrite Hopt, Hcpu. exact Hrun. }
  cbn [log add_log]. split; [apply in_or_app; right; exact Hhead |].
  intros i Hi. destruct (Hrows i Hi) as (h & H1 & H2). cbv zeta in H1, H2.
  eexists _, _. split; [apply in_or_app; right; exact H1 |].
  split; [apply in_or_app; right; exact H2 |].
  apply div_of_fields_value; [apply DidMSD_bounds | apply DidLSD_bounds].
Qed.

Lemma read_report_witness :
  exists w',
    main (good_dev sample_regs) sample_cpuinfo [Opt_r] initial_world = Exit 0 w'
    /\ In (Print Stdout TableHeader) (log w')
    /\ forall i, minPstateOf (u64 0x20) <= i <= maxPstateOf (u64 0x20) ->
         exists o d,
           In (SysRead 0 (aMSR i) 8 o) (log w')
           /\ In (Print Stdout
                    (TableRow i (decodeVoltageIdentifier o)
                              (voltage (s64 (decodeVoltageIdentifier o))) d)) (log w')
           /\ (d == inject_Z (DidMSD o) + inject_Z (DidLSD o) * (25 # 100) + 1)%Q.
Proof.
  apply (read_report (good_dev sample_regs) sample_cpuinfo [Opt_r] 0x20
           {| vidToSet := fun _ => 0; divToSet := fun _ => 0%Q;
              read := true; current := false; div := 0%Q |}
           initial_world 0
           {| verbose := false; ncpu := 2; fds := [0; 1; 2]; log := [] |}).
  - apply good_dev_ok.
  - intros h. reflexivity.
  - reflexivity.
  - reflexivity.
  - intros i _ Hp. exfalso. apply Hp. reflexivity.
  - left. reflexivity.
Defined.

(** On a device that works, the only write of [wrmsr] is the one asked
    for. *)
Lemma wrmsr_ok_only (dev : msrdev) (cpu msr val : Z) (w : world) :
  dev_ok dev -> 0 <= msr ->
  runs (wrmsr dev cpu msr val) w
       (fun r l => r = 0
                   /\ In (SysWrite cpu msr val 8) l
                   /\ forall c m x n, In (SysWrite c m x n) l ->
                        c = cpu /\ m = msr /\ x = val).
Proof.
  intros Hok Hmsr.
  destruct (wrmsr_ok dev cpu msr val w Hok Hmsr) as (r & l & Hrun & Hr & Hin & _).
  destruct (wrmsr_any dev cpu msr val w) as (rc' & l' & fds' & Hany & _ & _ & Hw & _).
  exists r, l. split; [exact Hrun |]. split; [exact Hr |]. split; [exact Hin |].
  rewrite Hrun in Hany. injection Hany as _ _ E. apply app_inv_head in E. subst l'.
  intros c m x n H. destruct (Hw c m x n H) as (-> & -> & -> & _). repeat split.
Qed.

(** X20. An edit with a divisor, on a device that works: for a pending
    identifier in [0,127] and a divisor for which [divtomsr] computes a
    DidMSD below 32 and a DidLSD below 16, one iteration of the write loop
    reads the register of the P-state on the core and writes to it a word
    whose Vid field is the identifier, whose DidMSD and DidLSD are the two
    fields computed, and whose bits 16 and above are those of the word
    read; it issues no other write.  Among the lines that it prints is
    the divisor line with the value of the variable [div] of [main]. *)
Theorem edit_with_divisor (dev : msrdev) (a : args) (i j msd lsd : Z)
    (l0 : locals) (w : world) :
  dev_ok dev ->
  0 <= vidToSet a i <= 127 ->
  float_neq_zero (divToSet a i) = true ->
  did_of_div (divToSet a i) = Some (msd, lsd) -> msd < 32 -> lsd < 16 ->
  exists l0' l o v,
    write_core dev a i j l0 w = Ret l0' (add_log w l)
    /\ In (SysRead j (aMSR i) 8 o) l
    /\ In (SysWrite j (aMSR i) v 8) l
    /\ (forall c m x n, In (SysWrite c m x n) l -> c = j /\ m = aMSR i /\ x = v)
    /\ decodeVoltageIdentifier v = vidToSet a i
    /\ DidMSD v = msd /\ DidLSD v = lsd
    /\ (forall n, 16 <= n -> Z.testbit v n = Z.testbit o n)
    /\ In (Print Stdout (DivLine (div a))) l.
Proof.
  intros Hok Hvid Hd Hdid Hmsd Hlsd.
  destruct (did_of_div_bounds _ _ _ Hdid) as [[Hm0 _] [Hl0 _]].
  assert (Hrun : runs (write_core dev a i j l0) w
            (fun _ l =>
               exists o, is_u64 o
                 /\ In (SysRead j (aMSR i) 8 o) l
                 /\ In (SysWrite j (aMSR i)
                          (Z.lor (Z.lor (Z.land (encodeVoltageIdentifier o (vidToSet a i))
                                                (u64 (Z.lnot 0x1ff)))
                                        (u32 (Z.shiftl msd 4))) lsd) 8) l
                 /\ (forall c m x n, In (SysWrite c m x n) l ->
                       c = j /\ m = aMSR i
                       /\ x = Z.lor (Z.lor (Z.land (encodeVoltageIdentifier o (vidToSet a i))
                                                   (u64 (Z.lnot 0x1ff)))
                                           (u32 (Z.shiftl msd 4))) lsd)
                 /\ In (Print Stdout (DivLine (div a))) l)).
  { unfold write_core. apply runs_bind.
    apply (runs_weaken _ _ _ _ (rdmsr_ok dev j (aMSR i) _ w Hok (aMSR_nonneg i))).
    intros [rc o] l1 (Hrc & (h & Ho) & Hrd & Hnw1). cbn [fst snd] in *. subst rc.
    change (negb (0 =? 0)) with false. cbv iota.
    apply runs_bind, runs_print, runs_bind.
    rewrite Hd.
    apply runs_bind.
    apply (runs_weaken _ _ _ _ (msrtodiv_runs o _)).
    intros d l2 [_ Hq2].
    apply runs_print, runs_bind, runs_print, runs_bind, runs_bind, runs_print.
    apply (runs_weaken _ _ _ _ (divtomsr_runs _ _ _ _ _ Hdid)).
    intros v l3 [-> Hq3].
    apply runs_bind.
    apply (runs_weaken _ _ _ _ (wrmsr_ok_only dev j (aMSR i) _ _ Hok (aMSR_nonneg i))).
    intros rc l4 (-> & Hwr & Hw4).
    change (negb (0 =? 0)) with false. cbv iota. apply runs_ret.
    exists o. split.
    { rewrite Ho. unfold is_u64, u64. apply Z.mod_pos_bound. reflexivity. }
    split; [rewrite !in_app_iff; tauto |].
    split; [rewrite !in_app_iff; tauto |].
    split; [| rewrite !in_app_iff; cbn [In]; tauto].
    intros c m x n Hin.
    assert (Hnw : forall l', quiet l' -> ~ In (SysWrite c m x n) l').
    { intros l' Hq'. apply quiet_no_write, Hq'. }
    rewrite !in_app_iff in Hin. cbn [In] in Hin.
    destruct Hin as [Hin | Hin]; [exfalso; exact (Hnw1 _ _ _ _ Hin) |].
    destruct Hin as [[Hin | []] | Hin]; [discriminate Hin |].
    destruct Hin as [[Hin | [Hin | []]] | Hin];
      [exfalso; exact (Hnw _ Hq2 Hin) | discriminate Hin |].
    destruct Hin as [[Hin | []] | Hin]; [discriminate Hin |].
    destruct Hin as [[[Hin | []] | Hin] | Hin];
      [discriminate Hin | exfalso; exact (Hnw _ Hq3 Hin) |].
    destruct Hin as [Hin | []]. exact (Hw4 _ _ _ _ Hin). }
  destruct Hrun as (l0' & l & Hrun & o & Ho & Hrd & Hwr & Hw & Hdiv).
  destruct (did_edit_word o (vidToSet a i) msd lsd Ho ltac:(lia) ltac:(lia))
    as (Ev & Em & El & Eh).
  match type of Hwr with In (SysWrite _ _ ?x _) _ => exists l0', l, o, x end.
  split; [exact Hrun |]. split; [exact Hrd |]. split; [exact Hwr |].
  split; [exact Hw |].
  split.
  { rewrite Ev. change 0x7F with (Z.ones 7). rewrite Z.land_ones by lia.
    apply Z.mod_small. change (2 ^ 7) with 128. lia. }
  split; [exact Em |]. split; [exact El |].
  split; [exact (Eh Hvid) | exact Hdiv].
Qed.

Lemma edit_with_divisor_witness :
  exists l0' l o v,
    write_core (good_dev sample_regs) sample_args 1 0
               {| val := 0; oMSR := fun _ => 0 |} initial_world
    = Ret l0' (add_log initial_world l)
    /\ In (SysRead 0 (aMSR 1) 8 o) l
    /\ In (SysWrite 0 (aMSR 1) v 8) l
    /\ (forall c m x n, In (SysWrite c m x n) l -> c = 0 /\ m = aMSR 1 /\ x = v)
    /\ decodeVoltageIdentifier v = vidToSet sample_args 1
    /\ DidMSD v = 10 /\ DidLSD v = 2
    /\ (forall n, 16 <= n -> Z.testbit v n = Z.testbit o n)
    /\ In (Print Stdout (DivLine (div sample_args))) l.
Proof.
  apply (edit_with_divisor (good_dev sample_regs) sample_args 1 0 10 2
           {| val := 0; oMSR := fun _ => 0 |} initial_world).
  - apply good_dev_ok.
  - vm_compute. split; discriminate.
  - vm_compute. reflexivity.
  - vm_compute. reflexivity.
  - lia.
  - lia.
Defined.
